(** * MoodleDL: a shallow embedding of [moodle_downloader.py]

    The development follows the Python source function by function.  A Python
    [str] is a list of Unicode code points; the functions of the Python
    runtime and of third-party libraries whose behaviour rests on tables that
    are not part of the repository (Unicode case folding, the MIME table,
    [urllib], the regular-expression engine on the script patterns) are taken
    through the interface [PyLib]; a reference instance [ref_lib] implements
    it for ASCII input and is used to run the model on concrete scenarios. *)

From Stdlib Require Import ZArith NArith List Ascii String Bool Lia DecimalString.
From stdpp Require Import gmap list.
Import ListNotations.

Local Open Scope Z_scope.
Local Open Scope nat_scope.
Local Open Scope list_scope.

(** ** Python strings *)

Definition char := N.
Definition pystr := list char.

(** A literal of the source, as the list of its code points. *)
Definition lit (s : string) : pystr :=
  map N_of_ascii (list_ascii_of_string s).

Module Str.

Definition eqb (a b : pystr) : bool := bool_decide (a = b).

(** [mem c cs]: the character [c] is one of [cs]. *)
Definition mem (c : char) (cs : pystr) : bool := existsb (N.eqb c) cs.

(** [s.startswith(p)] *)
Fixpoint startswith (s p : pystr) : bool :=
  match p, s with
  | [], _ => true
  | _ :: _, [] => false
  | a :: p', b :: s' => N.eqb a b && startswith s' p'
  end.

(** [s.endswith(p)] *)
Definition endswith (s p : pystr) : bool := startswith (rev s) (rev p).

(** [sub in s] *)
Fixpoint contains (sub s : pystr) : bool :=
  startswith s sub ||
  match s with
  | [] => false
  | _ :: s' => contains sub s'
  end.

(** [any(x in s for x in xs)] *)
Definition any_in (xs : list pystr) (s : pystr) : bool :=
  existsb (fun x => contains x s) xs.

Fixpoint dropwhile (f : char -> bool) (s : pystr) : pystr :=
  match s with
  | [] => []
  | c :: s' => if f c then dropwhile f s' else s
  end.

Definition lstrip (s chars : pystr) : pystr :=
  dropwhile (fun c => mem c chars) s.
Definition rstrip (s chars : pystr) : pystr :=
  rev (dropwhile (fun c => mem c chars) (rev s)).
(** [s.strip(chars)] *)
Definition strip (s chars : pystr) : pystr :=
  rstrip (lstrip s chars) chars.

(** [s[0:n]] *)
Definition slice_to (n : nat) (s : pystr) : pystr := take n s.

(** [s.split(sep)[0]] for a one-character separator. *)
Fixpoint before (sep : char) (s : pystr) : pystr :=
  match s with
  | [] => []
  | c :: s' => if N.eqb c sep then [] else c :: before sep s'
  end.

(** The part after the first [sep], when there is one. *)
Fixpoint after (sep : char) (s : pystr) : option pystr :=
  match s with
  | [] => None
  | c :: s' => if N.eqb c sep then Some s' else after sep s'
  end.

(** [s.split(sep)] for a one-character separator. *)
Fixpoint split (sep : char) (s : pystr) : list pystr :=
  match s with
  | [] => [[]]
  | c :: s' =>
      if N.eqb c sep then [] :: split sep s'
      else match split sep s' with
           | [] => [[c]]
           | w :: ws => (c :: w) :: ws
           end
  end.

(** [s[s.rfind(sep)+1:]]: what follows the last [sep] (all of [s] when
    there is none). *)
Fixpoint after_last (sep : char) (s : pystr) : pystr :=
  match s with
  | [] => []
  | c :: s' =>
      if mem sep s' then after_last sep s'
      else if N.eqb c sep then s' else s
  end.

(** [s[:s.rfind(sep)+1]]: up to and including the last [sep]. *)
Fixpoint upto_last (sep : char) (s : pystr) : pystr :=
  match s with
  | [] => []
  | c :: s' =>
      if mem sep s' then c :: upto_last sep s'
      else if N.eqb c sep then [c] else []
  end.

End Str.

(** A few code points the source names. *)
Definition ch_dot : char := 46%N.
Definition ch_space : char := 32%N.
Definition ch_slash : char := 47%N.
Definition ch_underscore : char := 95%N.
Definition ch_question : char := 63%N.
Definition ch_quote : char := 34%N.
Definition ch_newline : char := 10%N.

(** ** [sanitize_filename] (source lines 388-393) *)

(** The character class of the [re.sub] call: backslash, slash, star,
    question mark, colon, double quote, the two angle brackets and the
    bar; each is replaced by an underscore. *)
Definition illegal_chars : pystr :=
  [92; 47; 42; 63; 58; 34; 60; 62; 124]%N.

Definition is_illegal (c : char) : bool := Str.mem c illegal_chars.

Definition re_sub_illegal (filename : pystr) : pystr :=
  map (fun c => if is_illegal c then ch_underscore else c) filename.

Definition sanitize_filename (filename : pystr) : pystr :=
  let s := re_sub_illegal filename in
  Str.slice_to 100 (Str.strip s (lit ". ")).

(** ** [os.path] (POSIX flavour) *)

Module OsPath.

(** [os.path.basename(p)] *)
Definition basename (p : pystr) : pystr := Str.after_last ch_slash p.

(** [os.path.dirname(p)]: the head up to the last slash, its trailing
    slashes removed unless it consists of slashes only. *)
Definition dirname (p : pystr) : pystr :=
  let head := Str.upto_last ch_slash p in
  if forallb (N.eqb ch_slash) head then head
  else Str.rstrip head [ch_slash].

(** [os.path.join(a, b)] *)
Definition join (a b : pystr) : pystr :=
  if Str.startswith b [ch_slash] then b
  else match a with
       | [] => b
       | _ => if Str.endswith a [ch_slash] then a ++ b
              else a ++ ch_slash :: b
       end.

(** The extension [os.path.splitext(p)] returns: from the last dot of
    the last path component on, provided a character other than a dot
    precedes that dot in the component. *)
Definition ext_of (p : pystr) : pystr :=
  let b := basename p in
  if Str.mem ch_dot b then
    let stem := removelast (Str.upto_last ch_dot b) in
    if forallb (N.eqb ch_dot) stem then []
    else ch_dot :: Str.after_last ch_dot b
  else [].

(** [os.path.splitext(p)] *)
Definition splitext (p : pystr) : pystr * pystr :=
  let ext := ext_of p in
  (take (length p - length ext) p, ext).

End OsPath.

(** ** The Python runtime and library functions the source calls *)

Class PyLib := {
  (** [str.lower] *)
  str_lower : pystr -> pystr;
  (** [str.strip()] with no argument: surrounding white space removed *)
  str_strip_ws : pystr -> pystr;
  (** the class [\d] of the [re] module *)
  is_decimal : char -> bool;
  (** [int(s)] on a string; [None] stands for [ValueError] *)
  py_int : pystr -> option Z;
  (** [str.encode('utf-8')] *)
  encode_utf8 : pystr -> list N;
  (** [urllib.parse.urljoin(base, url)] *)
  urljoin : pystr -> pystr -> pystr;
  (** [urlparse(url).path] and [urlparse(url).query] *)
  urlparse_path : pystr -> pystr;
  urlparse_query : pystr -> pystr;
  (** [parse_qs(query)], in the order of first occurrence of each name *)
  parse_qs : pystr -> list (pystr * list pystr);
  (** [urllib.parse.unquote] *)
  unquote : pystr -> pystr;
  (** [mimetypes.guess_extension] *)
  guess_extension : pystr -> option pystr;
  (** [re.findall] with the two patterns of the script scan (source lines
      586 and 587): absolute, then root-relative file-serving URLs *)
  findall_abs_file_url : pystr -> list pystr;
  findall_rel_file_url : pystr -> list pystr
}.

(** Truth value of a string, and of a string-or-[None]. *)
Definition truthy (s : pystr) : bool :=
  match s with [] => false | _ => true end.
Definition truthy_opt (o : option pystr) : bool :=
  match o with Some s => truthy s | None => false end.

(** [url.startswith(("http://", "https://"))] *)
Definition is_http (url : pystr) : bool :=
  Str.startswith url (lit "http://") || Str.startswith url (lit "https://").

(** The response headers the source reads ([requests] looks header names
    up without regard to case). *)
Record Headers := {
  content_disposition : option pystr;
  content_type : option pystr;
  content_length : option pystr;
  location : option pystr
}.

Definition no_headers : Headers :=
  {| content_disposition := None; content_type := None;
     content_length := None; location := None |}.

(** ** The regular expressions of the source with a fixed, small shape *)

Module Re.

Fixpoint takewhile (f : char -> bool) (s : pystr) : pystr :=
  match s with
  | [] => []
  | c :: s' => if f c then c :: takewhile f s' else []
  end.

(** Group 1 of a match of [key(\d+)] anchored at the start of [s]. *)
Definition digits_at `{PyLib} (key s : pystr) : option pystr :=
  if Str.startswith s key then
    match takewhile is_decimal (drop (length key) s) with
    | [] => None
    | d => Some d
    end
  else None.

(** [re.search(key + r'(\d+)', s)]: group 1 of the leftmost match. *)
Fixpoint search_digits `{PyLib} (key s : pystr) : option pystr :=
  match digits_at key s with
  | Some d => Some d
  | None => match s with
            | [] => None
            | _ :: s' => search_digits key s'
            end
  end.

(** The shortest run of characters other than a newline that a double
    quote follows. *)
Fixpoint lazy_to_quote (s : pystr) : option pystr :=
  match s with
  | [] => None
  | c :: s' =>
      if N.eqb c ch_quote then Some []
      else if N.eqb c ch_newline then None
      else option_map (cons c) (lazy_to_quote s')
  end.

(** A match of the Content-Disposition pattern (the word filename, an
    equals sign, a double quote, [(.+?)], a double quote) anchored at the
    start of [s]: its group 1. *)
Definition filename_at (s : pystr) : option pystr :=
  let key := lit "filename=" ++ [ch_quote] in
  if Str.startswith s key then
    match drop (length key) s with
    | c :: s' =>
        if N.eqb c ch_newline then None
        else option_map (cons c) (lazy_to_quote s')
    | [] => None
    end
  else None.

(** [filename_match[0]] when [re.findall] of that pattern is not empty. *)
Fixpoint first_filename (cd : pystr) : option pystr :=
  match filename_at cd with
  | Some f => Some f
  | None => match cd with
            | [] => None
            | _ :: cd' => first_filename cd'
            end
  end.

End Re.

(** ** [get_file_extension] (source lines 157-287) *)

Definition fmt (name ext : string) : pystr * pystr := (lit name, lit ext).

(** The dictionary [common_formats], in insertion order. *)
Definition common_formats : list (pystr * pystr) :=
  [ fmt "pdf" ".pdf"; fmt "docx" ".docx"; fmt "doc" ".doc";
    fmt "pptx" ".pptx"; fmt "ppt" ".ppt"; fmt "xlsx" ".xlsx";
    fmt "xls" ".xls"; fmt "txt" ".txt"; fmt "rtf" ".rtf";
    fmt "odt" ".odt"; fmt "ods" ".ods"; fmt "odp" ".odp";
    fmt "jpg" ".jpg"; fmt "jpeg" ".jpeg"; fmt "png" ".png";
    fmt "gif" ".gif"; fmt "svg" ".svg"; fmt "bmp" ".bmp";
    fmt "tiff" ".tiff"; fmt "tif" ".tif";
    fmt "mp3" ".mp3"; fmt "wav" ".wav"; fmt "aac" ".aac";
    fmt "flac" ".flac"; fmt "ogg" ".ogg"; fmt "m4a" ".m4a";
    fmt "mp4" ".mp4"; fmt "mov" ".mov"; fmt "avi" ".avi";
    fmt "wmv" ".wmv"; fmt "webm" ".webm"; fmt "mkv" ".mkv";
    fmt "flv" ".flv"; fmt "m4v" ".m4v";
    fmt "zip" ".zip"; fmt "rar" ".rar"; fmt "7z" ".7z";
    fmt "tar" ".tar"; fmt "gz" ".gz"; fmt "tgz" ".tgz";
    fmt "py" ".py"; fmt "java" ".java"; fmt "html" ".html";
    fmt "htm" ".htm"; fmt "css" ".css"; fmt "js" ".js";
    fmt "php" ".php"; fmt "sql" ".sql"; fmt "r" ".r"; fmt "m" ".m";
    fmt "c" ".c"; fmt "cpp" ".cpp"; fmt "h" ".h"; fmt "ipynb" ".ipynb";
    fmt "tex" ".tex"; fmt "epub" ".epub"; fmt "mobi" ".mobi";
    fmt "srt" ".srt"; fmt "vtt" ".vtt"; fmt "xml" ".xml";
    fmt "json" ".json"; fmt "csv" ".csv"; fmt "mm" ".mm";
    fmt "xmind" ".xmind";
    fmt "h5p" ".h5p"; fmt "psd" ".psd"; fmt "ai" ".ai"; fmt "dwg" ".dwg";
    fmt "dxf" ".dxf"; fmt "mus" ".mus"; fmt "sib" ".sib";
    fmt "cdx" ".cdx"; fmt "ggb" ".ggb" ].

Section Extension.
Context `{PyLib}.

(** Priority 1: the extension of the original filename. *)
Definition ext_of_original (original_filename : option pystr)
  : option pystr :=
  match original_filename with
  | Some f =>
      if truthy f then
        let ext := snd (OsPath.splitext f) in
        if truthy ext then Some ext else None
      else None
  | None => None
  end.

(** Priority 2: the extension in the path of the URL, of length at most
    10. *)
Definition ext_of_url_path (url : pystr) : option pystr :=
  let path := unquote (urlparse_path url) in
  let filename := OsPath.basename path in
  let ext := snd (OsPath.splitext filename) in
  if truthy ext && (length ext <=? 10) then Some ext else None.

(** Priority 3: the content type, cut at the first semicolon and
    stripped, through the MIME table. *)
Definition ext_of_content_type (response_headers : option Headers)
  : option pystr :=
  match response_headers with
  | Some hs =>
      match content_type hs with
      | Some ct =>
          let content_type := str_strip_ws (Str.before 59%N ct) in
          match guess_extension content_type with
          | Some ext => if truthy ext then Some ext else None
          | None => None
          end
      | None => None
      end
  | None => None
  end.

(** Priority 4: the [pdf=<digits>] pattern, then the [doc=<digits>]
    pattern. *)
Definition ext_of_pattern (url : pystr) : option pystr :=
  match Re.search_digits (lit "pdf=") url with
  | Some _ => Some (lit ".pdf")
  | None =>
      match Re.search_digits (lit "doc=") url with
      | Some _ => Some (lit ".doc")
      | None => None
      end
  end.

(** Priority 5: the first format name of the table that occurs in the
    lower-cased URL. *)
Definition ext_of_format (url : pystr) : option pystr :=
  match List.find (fun fe => Str.contains (fst fe) (str_lower url))
          common_formats with
  | Some fe => Some (snd fe)
  | None => None
  end.

Definition get_file_extension (url : pystr)
    (response_headers : option Headers)
    (original_filename : option pystr) : pystr :=
  match ext_of_original original_filename with
  | Some ext => ext
  | None =>
  match ext_of_url_path url with
  | Some ext => ext
  | None =>
  match ext_of_content_type response_headers with
  | Some ext => ext
  | None =>
  match ext_of_pattern url with
  | Some ext => ext
  | None =>
  match ext_of_format url with
  | Some ext => ext
  | None => lit ".bin"
  end end end end end.

End Extension.

(** ** Documents

    HTML parsing and selector matching are BeautifulSoup's; a document is
    modelled by the answers to the queries the source makes on it. *)

Record Tag := {
  attrs : list (pystr * pystr);
  (** [tag.get_text(strip=True)] *)
  tag_text : pystr;
  (** [tag.string] *)
  tag_string : option pystr
}.

(** [tag.get(key)] *)
Definition tag_get (t : Tag) (key : pystr) : option pystr :=
  option_map snd (List.find (fun kv => Str.eqb (fst kv) key) (attrs t)).

(** [tag.get(key, default)] with the empty string as default *)
Definition tag_get_str (t : Tag) (key : pystr) : pystr :=
  match tag_get t key with Some v => v | None => [] end.

(** A sub-tree used as a unit: a dashboard card, a course section, or a
    whole page taken as one section. *)
Record Element := {
  (** [find_all("a", href=True)] *)
  el_links : list Tag;
  (** the text of [select_one("h3.sectionname, .content h3, .sectionname")] *)
  el_sectionname : option pystr;
  (** the text of
      [select_one(".coursename, .card-title, .course-title, h3")] *)
  el_coursename : option pystr
}.

Record Soup := {
  (** [find_all("input")], for [find("input", {"name": ...})] *)
  soup_inputs : list Tag;
  (** [select(".dashboard-card, .coursebox, .course-info-container")] *)
  soup_cards : list Element;
  (** [find_all("a", href=True)] *)
  soup_links : list Tag;
  (** [select("li.section, div.section, .topics .topic")] *)
  soup_sections : list Element;
  (** [select("a.downloadbutton, .resourceworkaround a, .resourcecontent a")] *)
  soup_download : list Tag;
  (** [find_all(['iframe', 'embed', 'object'], src=True)] *)
  soup_frames : list Tag;
  (** [find_all(['source', 'video', 'audio'], src=True)] *)
  soup_media : list Tag;
  (** [find_all("script")] *)
  soup_scripts : list Tag;
  (** [select(".resourcelinkdetails a, .urlworkaround a")] *)
  soup_alt : list Tag;
  (** [find_all('meta', attrs={'name': 'course-id'})] *)
  soup_metas : list Tag;
  (** the text of
      [select_one(".assignmentinfo, .descriptionbox, .assign-intro")] *)
  soup_description : option pystr
}.

Definition empty_soup : Soup :=
  {| soup_inputs := []; soup_cards := []; soup_links := [];
     soup_sections := []; soup_download := []; soup_frames := [];
     soup_media := []; soup_scripts := []; soup_alt := [];
     soup_metas := []; soup_description := None |}.

(** The page itself as an element: its anchors are those of the page. *)
Definition soup_element (s : Soup) : Element :=
  {| el_links := soup_links s; el_sectionname := None;
     el_coursename := None |}.

(** ** Transport *)

Inductive Request :=
| HEAD (url : pystr)
    (** [session.head(url, allow_redirects=True)] *)
| GET (url : pystr) (allow_redirects stream : bool)
    (** [session.get(url, ...)] *)
| POST (url : pystr) (data : list (pystr * pystr)).
    (** [session.post(url, data=...)] *)

Record Response := {
  status_code : Z;
  (** the final URL, after redirects *)
  resp_url : pystr;
  resp_headers : Headers;
  resp_text : pystr;
  (** [BeautifulSoup(response.text, "html.parser")] *)
  resp_soup : Soup;
  (** what [iter_content(chunk_size=8192)] yields, and whether the
      connection breaks after the last chunk listed *)
  resp_chunks : list (list N);
  resp_broken : bool
}.

(** ** The file system, as path names to nodes

    A path names the node stored under its text.  A path of slashes only
    names the root directory, which always exists; a path that ends with a
    slash names the directory stored under the text without its trailing
    slashes, and nothing when a file is stored there.  A path without a
    slash lies in the working directory, which always exists.  Symbolic
    links and the components [.] and [..] are not resolved: the program
    builds its paths from the download directory with [os.path.join] and
    sanitized names, which are never [.] or [..]. *)

Inductive Node :=
| File (data : list N)
| Dir.

Definition is_root (p : pystr) : bool :=
  truthy p && forallb (N.eqb ch_slash) p.

(** What [os.stat(p)] finds. *)
Definition entry (m : gmap pystr Node) (p : pystr) : option Node :=
  match m !! p with
  | Some n => Some n
  | None =>
      if is_root p then Some Dir
      else if Str.endswith p [ch_slash] then
        match m !! Str.rstrip p [ch_slash] with
        | Some Dir => Some Dir
        | _ => None
        end
      else None
  end.

(** [os.path.exists(p)] and [os.path.isdir(p)] *)
Definition exists_at (m : gmap pystr Node) (p : pystr) : bool :=
  match entry m p with Some _ => true | None => false end.
Definition isdir (m : gmap pystr Node) (p : pystr) : bool :=
  match entry m p with Some Dir => true | _ => false end.

(** The directory that holds the last component of [p] is there. *)
Definition parent_ok (m : gmap pystr Node) (p : pystr) : bool :=
  match OsPath.dirname p with
  | [] => true
  | d => isdir m d
  end.

(** [os.mkdir(p)]; [None] stands for an [OSError]: something is at the
    path already, or the directory that should hold it is missing or is a
    file. *)
Definition mkdir (m : gmap pystr Node) (p : pystr)
  : option (gmap pystr Node) :=
  let k := Str.rstrip p [ch_slash] in
  match entry m p, m !! k, k with
  | None, None, _ :: _ =>
      if parent_ok m k then Some (<[k := Dir]> m) else None
  | _, _, _ => None
  end.

(** [os.makedirs(name, exist_ok=True)] after its definition in the
    standard library: the missing parents are made first, by a nested call
    on the head of the path, then the directory itself; a failing [mkdir]
    is passed over when the path is a directory.  The result tells whether
    the call returned, and gives the file system it leaves.  [refused]: the
    operating system refuses every [mkdir] of this call.  The nested call
    is on a shorter path; [fuel] bounds the nesting. *)
Fixpoint makedirs_in (fuel : nat) (refused : bool) (m : gmap pystr Node)
    (name : pystr) : bool * gmap pystr Node :=
  match fuel with
  | 0 => (false, m)
  | S fuel' =>
      let leaf := if truthy (OsPath.basename name) then name
                  else OsPath.dirname name in
      let head := OsPath.dirname leaf in
      let tail := OsPath.basename leaf in
      let make := fun m' : gmap pystr Node =>
        match (if refused then None else mkdir m' name) with
        | Some m'' => (true, m'')
        | None => (isdir m' name, m')
        end in
      if truthy head && truthy tail && negb (exists_at m head) then
        let '(ok, m') := makedirs_in fuel' refused m head in
        if negb ok then (false, m')
        else if Str.eqb tail [ch_dot] then (true, m')
        else make m'
      else make m
  end.

(** Whether [open(p, 'w')] can create or truncate a file at [p]: a file
    is there, or nothing is there, the path does not end with a slash and
    the directory that should hold the file exists. *)
Definition can_open (m : gmap pystr Node) (p : pystr) : bool :=
  match m !! p with
  | Some (File _) => true
  | Some Dir => false
  | None =>
      truthy p && negb (Str.endswith p [ch_slash]) && parent_ok m p
  end.

(** The two paths name the same directory. *)
Definition same_dir (a b : pystr) : bool :=
  if is_root a then is_root b
  else negb (is_root b)
       && Str.eqb (Str.rstrip a [ch_slash]) (Str.rstrip b [ch_slash]).

(** ** Exceptions, log messages and observable events *)

Inductive Exn :=
| TransportError   (* requests.exceptions.RequestException *)
| OSError
| ValueError
| IndexError
| KeyError
| RecursionError.

Inductive LogMsg :=
| LoginFailed | LoginSuccessful
| CheckingCourses (url : pystr) | FoundCourses (n : nat) (page : pystr)
| ErrorAccessing (page : pystr)
| SessionExpired
| AddedExtension (filename : pystr)
| SkippingExisting (filename : pystr) (size : Z)
| SizeDiffers (filename : pystr)
| SkippingEmpty (filename : pystr)
| ErrorDownloading (url : pystr) (e : Exn)
| ProcessingCourse (name : pystr) | CompletedCourse (name : pystr)
| FoundResource (name : pystr) | Downloaded (path : pystr)
| WarnNoFile (name : pystr) | ErrorResourceLink (e : Exn)
| FetchingResourcePage (url : pystr)
| TryingDirect (url : pystr) | RedirectedTo (url : pystr)
| PageTitle
| FoundDownloadLink (href : pystr)
| FoundEmbedded (src : pystr)
| FoundInScript (url : pystr)
| TryingContentEndpoint (url : pystr)
| FoundByExtension (href : pystr)
| FoundAlternative (href : pystr)
| TryingPattern (url : pystr)
| CouldNotExtract (url : pystr)
| SavedDebug (path : pystr)
| ErrorResourcePage (url : pystr) (e : Exn) | Traceback
| ProcessingFolder (name : pystr) | ErrorFolder (href : pystr) (e : Exn)
| ProcessingAssignment (name : pystr)
| ErrorAssignment (href : pystr) (e : Exn)
| Banner | NoCoursesFound | FoundNCourses (n : nat)
| CourseLine (i : nat) (name : pystr)
| InvalidSelection | DownloadComplete (dir : pystr).

Inductive Event :=
| EvRequest (q : Request)
| EvLog (printed : bool) (m : LogMsg)
| EvMakedirs (path : pystr)
| EvOpen (path : pystr)
| EvWrite (path : pystr) (data : list N)
| EvInput
| EvExit (code : Z).

(** ** The environment and the state of a run *)

(** What lies outside the program, as a function of the number [t] of
    interactions made so far: the portal's answer to a request ([None]: the
    transport raises), whether the operating system refuses a file-system
    change, and what the user types. *)
Record Env := {
  transport : nat -> Request -> option Response;
  os_refuses : nat -> bool;
  stdin : nat -> pystr;
  (** the size [os.path.getsize] reports for a directory *)
  dir_size : Z
}.

(** The attributes of [self] that never change after construction. *)
Record Config := {
  base_url : pystr;
  download_dir : pystr;
  verbose : bool;
  force_download : bool;
  (** how many nested [download_file] frames the interpreter allows before
      [RecursionError] *)
  recursion_limit : nat
}.

Record World := {
  clock : nat;
  fs : gmap pystr Node;
  (** events, the latest first *)
  trace : list Event;
  (** [self.username], [self.password] *)
  username : option pystr;
  password : option pystr
}.

Inductive Outcome (A : Type) :=
| Ret (a : A)
| Raise (e : Exn)        (** an exception of class [Exception] *)
| Exit (code : Z).       (** [SystemExit], which [except Exception] lets
                             through *)
Arguments Ret {A} a.
Arguments Raise {A} e.
Arguments Exit {A} code.

Definition M (A : Type) : Type := World -> Outcome A * World.

Definition ret {A} (a : A) : M A := fun w => (Ret a, w).

Definition bind {A B} (c : M A) (k : A -> M B) : M B :=
  fun w =>
    match c w with
    | (Ret a, w') => k a w'
    | (Raise e, w') => (Raise e, w')
    | (Exit n, w') => (Exit n, w')
    end.

Definition raise {A} (e : Exn) : M A := fun w => (Raise e, w).

(** [try: c  except Exception as e: h e] *)
Definition try_except {A} (c : M A) (h : Exn -> M A) : M A :=
  fun w =>
    match c w with
    | (Raise e, w') => h e w'
    | r => r
    end.

Declare Scope py_scope.
Delimit Scope py_scope with py.
Notation "x <- c ;; k" := (bind c (fun x => k))
  (at level 100, c at next level, right associativity) : py_scope.
Notation "c ;;; k" := (bind c (fun _ => k))
  (at level 100, right associativity) : py_scope.
Local Open Scope py_scope.

(** [for x in xs: body x], where the body has no [return]. *)
Fixpoint for_each {X} (xs : list X) (body : X -> M unit) : M unit :=
  match xs with
  | [] => ret tt
  | x :: xs' => body x ;;; for_each xs' body
  end.

(** [for x in xs: body x], where the body may [return v] from the
    enclosing function ([Some v]) or fall through to the next item
    ([None]); the loop yields [None] when no item returned. *)
Fixpoint for_return {X R} (xs : list X) (body : X -> M (option R))
  : M (option R) :=
  match xs with
  | [] => ret None
  | x :: xs' =>
      r <- body x ;;
      match r with
      | Some v => ret (Some v)
      | None => for_return xs' body
      end
  end.

(** A step that may return from the enclosing function, then the rest of
    that function. *)
Definition or_else {R} (c : M (option R)) (k : M R) : M R :=
  r <- c ;;
  match r with
  | Some v => ret v
  | None => k
  end.

(** ** Primitive operations *)

Definition interact (e : Event) (w : World) : World :=
  {| clock := S (clock w); fs := fs w; trace := e :: trace w;
     username := username w; password := password w |}.

Definition set_fs (m : gmap pystr Node) (w : World) : World :=
  {| clock := clock w; fs := m; trace := trace w;
     username := username w; password := password w |}.

Definition emit (e : Event) : M unit :=
  fun w => (Ret tt,
            {| clock := clock w; fs := fs w; trace := e :: trace w;
               username := username w; password := password w |}).

(** [str(n)] for a natural number. *)
Definition str_of_nat (n : nat) : pystr :=
  lit (DecimalString.NilEmpty.string_of_uint (Nat.to_uint n)).

Section Program.
Context `{PyLib} (env : Env) (cfg : Config).

(** [self.log(message)]: the call is recorded; the message is printed
    when [verbose] is set. *)
Definition log (m : LogMsg) : M unit := emit (EvLog (verbose cfg) m).

(** A call of [self.session]. *)
Definition request (q : Request) : M Response :=
  fun w =>
    match transport env (clock w) q with
    | Some r => (Ret r, interact (EvRequest q) w)
    | None => (Raise TransportError, interact (EvRequest q) w)
    end.

(** [input(...)], [getpass.getpass(...)] *)
Definition input : M pystr :=
  fun w => (Ret (stdin env (clock w)), interact EvInput w).

(** [sys.exit(code)] *)
Definition sys_exit {A} (code : Z) : M A :=
  fun w => (Exit code, interact (EvExit code) w).

(** [os.makedirs(p, exist_ok=True)]: nothing to do for an existing
    directory; otherwise the call is recorded, and it makes the directory
    and its missing parents unless something prevents it. *)
Definition makedirs (p : pystr) : M unit :=
  fun w =>
    match entry (fs w) p with
    | Some Dir => (Ret tt, w)
    | _ =>
        let w' := interact (EvMakedirs p) w in
        let '(ok, m) :=
          makedirs_in (S (length p)) (os_refuses env (clock w)) (fs w) p in
        ((if ok then Ret tt else Raise OSError), set_fs m w')
    end.

(** [os.path.exists(p)] *)
Definition path_exists (p : pystr) : M bool :=
  fun w => (Ret (exists_at (fs w) p), w).

(** [os.path.getsize(p)] *)
Definition getsize (p : pystr) : M Z :=
  fun w =>
    match entry (fs w) p with
    | Some (File d) => (Ret (Z.of_nat (length d)), w)
    | Some Dir => (Ret (dir_size env), w)
    | None => (Raise OSError, w)
    end.

(** [len(os.listdir(p))]: the entries whose directory is [p]. *)
Definition listdir_len (p : pystr) : M nat :=
  fun w =>
    match entry (fs w) p with
    | Some Dir =>
        (Ret (length (List.filter
                        (fun kv => same_dir (OsPath.dirname (fst kv)) p)
                        (map_to_list (fs w)))), w)
    | _ => (Raise OSError, w)
    end.

(** [open(p, 'wb')] and [open(p, 'w')]: the file is created or
    truncated; an [OSError] when the path is a directory or the directory
    of the file is missing. *)
Definition open_write (p : pystr) : M unit :=
  fun w =>
    if can_open (fs w) p then
      let w' := interact (EvOpen p) w in
      if os_refuses env (clock w) then (Raise OSError, w')
      else (Ret tt, set_fs (<[p := File []]> (fs w)) w')
    else (Raise OSError, w).

(** [f.write(data)] on the file opened at [p]. *)
Definition write (p : pystr) (data : list N) : M unit :=
  fun w =>
    let w' := interact (EvWrite p data) w in
    if os_refuses env (clock w) then (Raise OSError, w')
    else
      match fs w !! p with
      | Some (File old) => (Ret tt, set_fs (<[p := File (old ++ data)]> (fs w)) w')
      | _ => (Raise OSError, w')
      end.

Definition set_username (u : pystr) : M unit :=
  fun w => (Ret tt, {| clock := clock w; fs := fs w; trace := trace w;
                       username := Some u; password := password w |}).
Definition set_password (p : pystr) : M unit :=
  fun w => (Ret tt, {| clock := clock w; fs := fs w; trace := trace w;
                       username := username w; password := Some p |}).
Definition get_username : M (option pystr) := fun w => (Ret (username w), w).
Definition get_password : M (option pystr) := fun w => (Ret (password w), w).

(** ** [login] (source lines 42-87) *)

(** [soup.find("input", {"name": name})] *)
Definition find_input (soup : Soup) (name : pystr) : option Tag :=
  List.find (fun t => match tag_get t (lit "name") with
                      | Some n => Str.eqb n name
                      | None => false
                      end) (soup_inputs soup).

(** The token loop and the fallback that follows it: the first of the
    three field names present on the page gives the name, its [value] the
    token; a token that is [None] or empty is replaced by the default
    pair. *)
Definition login_token (soup : Soup) : pystr * pystr :=
  let found :=
    List.find (fun f => match find_input soup f with
                        | Some _ => true
                        | None => false
                        end)
      [lit "logintoken"; lit "sesskey"; lit "_csrf"] in
  match found with
  | Some f =>
      match find_input soup f with
      | Some t =>
          if truthy_opt (tag_get t (lit "value"))
          then (f, tag_get_str t (lit "value"))
          else (lit "logintoken", [])
      | None => (lit "logintoken", [])
      end
  | None => (lit "logintoken", [])
  end.

Definition login_markers : list pystr :=
  [lit "Log in to the site"; lit "loginform"; lit "Login to your account"].

Definition login : M bool :=
  let login_url := urljoin (base_url cfg) (lit "/login/index.php") in
  response <- request (GET login_url true false) ;;
  let soup := resp_soup response in
  let '(token_name, token) := login_token soup in
  u0 <- get_username ;;
  (if truthy_opt u0 then ret tt else (u <- input ;; set_username u)) ;;;
  p0 <- get_password ;;
  (if truthy_opt p0 then ret tt else (p <- input ;; set_password p)) ;;;
  u <- get_username ;;
  p <- get_password ;;
  let login_data :=
    [ (lit "username", default [] u); (lit "password", default [] p);
      (token_name, token); (lit "anchor", []) ] in
  response <- request (POST login_url login_data) ;;
  if Str.any_in login_markers (resp_text response) then
    log LoginFailed ;;; sys_exit 1%Z
  else
    log LoginSuccessful ;;; ret true.

(** ** Course discovery (source lines 89-155) *)

Record Course := {
  course_url : pystr;
  course_name : pystr
}.

(** [x or "Unnamed Course"] *)
Definition or_unnamed (name : pystr) : pystr :=
  if truthy name then name else lit "Unnamed Course".

Definition is_course_link (link : Tag) : bool :=
  Str.contains (lit "course/view.php") (tag_get_str link (lit "href")).

(** Method 1: dashboard cards. *)
Definition courses_from_cards (soup : Soup) : list Course :=
  flat_map
    (fun card =>
       match el_links card with
       | link :: _ =>
           if is_course_link link then
             let name := match el_coursename card with
                         | Some t => t
                         | None => tag_text link
                         end in
             [{| course_url := tag_get_str link (lit "href");
                 course_name := or_unnamed name |}]
           else []
       | [] => []
       end)
    (soup_cards soup).

(** Method 2: direct course links. *)
Definition courses_from_links (soup : Soup) : list Course :=
  flat_map
    (fun link =>
       if is_course_link link then
         [{| course_url := tag_get_str link (lit "href");
             course_name := or_unnamed (tag_text link) |}]
       else [])
    (soup_links soup).

Definition make_absolute (c : Course) : Course :=
  if is_http (course_url c) then c
  else {| course_url := urljoin (base_url cfg) (course_url c);
          course_name := course_name c |}.

Definition _extract_courses_from_page (soup : Soup) : list Course :=
  let courses := courses_from_cards soup in
  let courses := match courses with
                 | [] => courses_from_links soup
                 | _ => courses
                 end in
  map make_absolute courses.

(** The loop that removes duplicates (source lines 114-121): one step, on
    the pair of [unique_courses] and [seen_urls]. *)
Definition dedup_step (st : list Course * gset pystr) (course : Course)
  : list Course * gset pystr :=
  let '(unique_courses, seen_urls) := st in
  if bool_decide (course_url course ∈ seen_urls) then st
  else (unique_courses ++ [course], {[course_url course]} ∪ seen_urls).

Definition remove_duplicates (courses : list Course) : list Course :=
  fst (fold_left dedup_step courses ([], ∅)).

Definition course_pages : list pystr :=
  [lit "/my/courses.php"; lit "/my/index.php"; lit "/course/index.php"].

(** The loop over the course pages, threading the list [courses]. *)
Fixpoint collect_courses (pages : list pystr) (courses : list Course)
  : M (list Course) :=
  match pages with
  | [] => ret courses
  | page :: pages' =>
      let url := urljoin (base_url cfg) page in
      log (CheckingCourses url) ;;;
      courses <-
        try_except
          (response <- request (GET url true false) ;;
           let courses_found :=
             _extract_courses_from_page (resp_soup response) in
           match courses_found with
           | [] => ret courses
           | _ =>
               log (FoundCourses (length courses_found) page) ;;;
               ret (courses ++ courses_found)
           end)
          (fun e => log (ErrorAccessing page) ;;; ret courses) ;;
      collect_courses pages' courses
  end.

Definition get_courses : M (list Course) :=
  courses <- collect_courses course_pages [] ;;
  ret (remove_duplicates courses).

(** ** [download_file] (source lines 289-386) *)

(** Lines 308-326: the file name, and the original file name when the
    caller gave none. *)
Definition pick_filename (url : pystr) (filename : option pystr)
    (hs : Headers) : pystr * option pystr :=
  if truthy_opt filename then (default [] filename, None)
  else
    let from_url := OsPath.basename (urlparse_path url) in
    let original_filename :=
      match content_disposition hs with
      | Some cd =>
          match Re.first_filename cd with
          | Some f => f
          | None => from_url
          end
      | None => from_url
      end in
    let filename :=
      if Str.mem ch_question original_filename
      then Str.before ch_question original_filename
      else original_filename in
    (filename, Some original_filename).

(** Lines 328-335: an extension is appended when the name has none or a
    bare dot; the flag tells whether one was appended. *)
Definition add_extension (url : pystr) (hs : Headers) (filename : pystr)
    (original_filename : option pystr) : pystr * bool :=
  let ext := snd (OsPath.splitext filename) in
  if negb (truthy ext) || (length ext <=? 1) then
    let new_ext := get_file_extension url (Some hs) original_filename in
    if truthy new_ext then (filename ++ new_ext, true)
    else (filename, false)
  else (filename, false).

(** The name under which the response is stored, and line 338. *)
Definition final_filename (url : pystr) (filename : option pystr)
    (hs : Headers) : pystr :=
  let '(filename, original_filename) := pick_filename url filename hs in
  fst (add_extension url hs filename original_filename).

Definition full_path_of (url path : pystr) (filename : option pystr)
    (hs : Headers) : pystr :=
  OsPath.join path (sanitize_filename (final_filename url filename hs)).

(** [int(response.headers.get('content-length', 0))] *)
Definition int_content_length (hs : Headers) : M Z :=
  match content_length hs with
  | None => ret 0%Z
  | Some s =>
      match py_int s with
      | Some n => ret n
      | None => raise ValueError
      end
  end.

(** Lines 344-358: [Some full_path] when the function returns there. *)
Definition skip_existing (hs : Headers) (filename full_path : pystr)
  : M (option (option pystr)) :=
  if force_download cfg then ret None
  else
    ex <- path_exists full_path ;;
    if negb ex then ret None
    else
      sz <- getsize full_path ;;
      if negb (0 <? sz)%Z then ret None
      else
        existing_size <- getsize full_path ;;
        expected_size <- int_content_length hs ;;
        if (expected_size =? 0)%Z
           || (Z.abs (existing_size - expected_size) <? 100)%Z
        then
          log (SkippingExisting filename existing_size) ;;;
          ret (Some (Some full_path))
        else
          log (SizeDiffers filename) ;;; ret None.

(** Lines 369-381: the chunks are written as they arrive; a broken
    connection raises after the last chunk received. *)
Definition write_chunk (full_path : pystr) (chunk : list N) : M unit :=
  match chunk with
  | [] => ret tt
  | _ => write full_path chunk
  end.

Definition write_chunks (full_path : pystr) (response : Response) : M unit :=
  open_write full_path ;;;
  for_each (resp_chunks response) (write_chunk full_path) ;;;
  if resp_broken response then raise TransportError else ret tt.

(** Lines 308-383, once the streaming response is there. *)
Definition store_response (url path : pystr) (filename : option pystr)
    (response : Response) : M (option pystr) :=
  let hs := resp_headers response in
  let '(filename, original_filename) := pick_filename url filename hs in
  let '(filename, added) :=
    add_extension url hs filename original_filename in
  (if added then log (AddedExtension filename) else ret tt) ;;;
  let full_path := OsPath.join path (sanitize_filename filename) in
  makedirs (OsPath.dirname full_path) ;;;
  or_else (skip_existing hs filename full_path)
    (total_size <- int_content_length hs ;;
     if (total_size =? 0)%Z then
       log (SkippingEmpty filename) ;;; ret None
     else
       write_chunks full_path response ;;;
       ret (Some full_path)).

(** Line 300: the probe ended on a login page that was not asked for. *)
Definition session_expired (head_response : Response) (url : pystr) : bool :=
  Str.contains (lit "login") (resp_url head_response)
  && negb (Str.contains (lit "login") url).

(** [self.download_file(url, path, filename)], with [fuel] nested calls
    left before the interpreter raises [RecursionError]. *)
Fixpoint download_file_rec (fuel : nat) (url path : pystr)
    (filename : option pystr) : M (option pystr) :=
  let url := if is_http url then url else urljoin (base_url cfg) url in
  try_except
    (match fuel with
     | 0 => raise RecursionError
     | S fuel' =>
         head_response <- request (HEAD url) ;;
         if session_expired head_response url then
           log SessionExpired ;;;
           login ;;;
           download_file_rec fuel' url path filename
         else
           response <- request (GET url true true) ;;
           store_response url path filename response
     end)
    (fun e => log (ErrorDownloading url e) ;;; ret None).

Definition download_file (url path : pystr) (filename : option pystr)
  : M (option pystr) :=
  download_file_rec (recursion_limit cfg) url path filename.

(** ** [_process_resource_page] (source lines 507-670) *)

(** Lines 517-521: the [id] query parameter. *)
Definition resource_id_of (url : pystr) : M (option pystr) :=
  let query_params := parse_qs (urlparse_query url) in
  match List.find (fun kv => Str.eqb (fst kv) (lit "id")) query_params with
  | Some (_, v :: _) => ret (Some v)
  | Some (_, []) => raise IndexError
  | None => ret None
  end.

(** [href] made absolute against the base URL. *)
Definition absolute (href : pystr) : pystr :=
  if is_http href then href else urljoin (base_url cfg) href.

Definition redirect_codes : list Z := [301; 302; 303; 307; 308]%Z.

(** Lines 523-539: the direct-redirect probe. *)
Definition try_direct (url directory : pystr) (name resource_id : option pystr)
  : M (option (option pystr)) :=
  if truthy_opt resource_id && Str.contains (lit "resource/view.php") url
  then
    let direct_url :=
      base_url cfg ++ lit "/mod/resource/view.php?id="
        ++ default [] resource_id ++ lit "&redirect=1" in
    log (TryingDirect direct_url) ;;;
    response <- request (GET direct_url false false) ;;
    match location (resp_headers response) with
    | Some loc =>
        if existsb (Z.eqb (status_code response)) redirect_codes then
          let file_url := absolute loc in
          log (RedirectedTo file_url) ;;;
          r <- download_file file_url directory name ;;
          ret (Some r)
        else ret None
    | None => ret None
    end
  else ret None.

(** Lines 549-552: the candidates of Method 1, in the order tried. *)
Definition download_links (soup : Soup) : list Tag :=
  soup_download soup
  ++ List.filter (fun a => Str.contains (lit "download")
                          (tag_get_str a (lit "href"))) (soup_links soup)
  ++ List.filter (fun a => Str.contains (lit "pluginfile.php")
                          (tag_get_str a (lit "href"))) (soup_links soup).

(** Lines 554-562. *)
Definition method1 (soup : Soup) (directory : pystr) (name : option pystr)
  : M (option (option pystr)) :=
  for_return (download_links soup)
    (fun link =>
       let href := tag_get_str link (lit "href") in
       if truthy href then
         let href := absolute href in
         log (FoundDownloadLink href) ;;;
         r <- download_file href directory name ;;
         ret (Some r)
       else ret None).

(** Lines 565-572: [tag.get('src') or tag.get('data')] for frames, kept
    when not empty; [tag.get('src')] for media elements. *)
Definition embedded_sources (soup : Soup) : list (option pystr) :=
  flat_map
    (fun tag =>
       let src := if truthy_opt (tag_get tag (lit "src"))
                  then tag_get tag (lit "src")
                  else tag_get tag (lit "data") in
       if truthy_opt src then [src] else [])
    (soup_frames soup)
  ++ map (fun tag => tag_get tag (lit "src")) (soup_media soup).

(** Lines 574-579. *)
Definition method2 (soup : Soup) (directory : pystr) (name : option pystr)
  : M (option (option pystr)) :=
  for_return (embedded_sources soup)
    (fun src =>
       match src with
       | Some s =>
           if truthy s
              && (Str.contains (lit "pluginfile.php") s
                  || Str.contains (lit "file.php") s)
           then
             let s := absolute s in
             log (FoundEmbedded s) ;;;
             r <- download_file s directory name ;;
             ret (Some r)
           else ret None
       | None => ret None
       end).

(** Lines 582-597: every URL found in a script is downloaded in turn;
    the function returns at the first download whose result is not
    empty. *)
Definition method3 (soup : Soup) (directory : pystr) (name : option pystr)
  : M (option (option pystr)) :=
  for_return (soup_scripts soup)
    (fun script =>
       match tag_string script with
       | Some body =>
           if truthy body then
             let matches :=
               findall_abs_file_url body ++ findall_rel_file_url body in
             for_return matches
               (fun m =>
                  let url_to_try := absolute m in
                  log (FoundInScript url_to_try) ;;;
                  result <- download_file url_to_try directory name ;;
                  if truthy_opt result then ret (Some result)
                  else ret None)
           else ret None
       | None => ret None
       end).

(** Lines 600-603: the content endpoint. *)
Definition method4 (directory : pystr) (name resource_id : option pystr)
  : M (option (option pystr)) :=
  if truthy_opt resource_id then
    let content_url :=
      base_url cfg ++ lit "/mod/resource/content.php?id="
        ++ default [] resource_id in
    log (TryingContentEndpoint content_url) ;;;
    r <- download_file content_url directory name ;;
    ret (Some r)
  else ret None.

Definition file_extensions : list pystr :=
  map lit [".pdf"; ".doc"; ".docx"; ".ppt"; ".pptx"; ".xls"; ".xlsx";
           ".zip"; ".rar"; ".7z"; ".mp3"; ".mp4"; ".avi"; ".mov"; ".jpg";
           ".jpeg"; ".png"; ".gif"]%string.

(** Lines 606-614. *)
Definition method5 (soup : Soup) (directory : pystr) (name : option pystr)
  : M (option (option pystr)) :=
  for_return (soup_links soup)
    (fun link =>
       let href := tag_get_str link (lit "href") in
       if existsb (fun ext => Str.endswith (str_lower href) ext)
            file_extensions
       then
         let href := absolute href in
         log (FoundByExtension href) ;;;
         r <- download_file href directory name ;;
         ret (Some r)
       else ret None).

(** Lines 617-624. *)
Definition method6 (soup : Soup) (directory : pystr) (name : option pystr)
  : M (option (option pystr)) :=
  for_return (soup_alt soup)
    (fun link =>
       let href := tag_get_str link (lit "href") in
       if truthy href then
         let href := absolute href in
         log (FoundAlternative href) ;;;
         r <- download_file href directory name ;;
         ret (Some r)
       else ret None).

(** Lines 630-638: the [content] of the last [course-id] meta element,
    else the digits after the first [cmid=] of the page text. *)
Definition find_cmid (soup : Soup) (text : pystr) : option pystr :=
  let cmid := match last (soup_metas soup) with
              | Some meta => tag_get meta (lit "content")
              | None => None
              end in
  if truthy_opt cmid then cmid
  else
    match Re.search_digits (lit "cmid=") text with
    | Some d => Some d
    | None => cmid
    end.

Definition url_patterns (cmid resource_id : pystr) : list pystr :=
  [ base_url cfg ++ lit "/pluginfile.php/" ++ cmid
      ++ lit "/mod_resource/content/1/resource_" ++ resource_id;
    base_url cfg ++ lit "/pluginfile.php/mod_resource/content/"
      ++ resource_id;
    base_url cfg ++ lit "/mod/resource/view.php?id=" ++ resource_id
      ++ lit "&forcedownload=1";
    base_url cfg ++ lit "/mod/resource/view.php?id=" ++ resource_id
      ++ lit "&redirect=1" ].

(** Lines 630-653. *)
Definition method7 (soup : Soup) (text directory : pystr)
    (name resource_id : option pystr) : M (option (option pystr)) :=
  let cmid := find_cmid soup text in
  if truthy_opt cmid && truthy_opt resource_id then
    for_return (url_patterns (default [] cmid) (default [] resource_id))
      (fun pattern =>
         log (TryingPattern pattern) ;;;
         result <- download_file pattern directory name ;;
         if truthy_opt result then ret (Some result) else ret None)
  else ret None.

(** [name or 'resource'] *)
Definition name_or_resource (name : option pystr) : pystr :=
  if truthy_opt name then default [] name else lit "resource".

(** Lines 655-664: the page is saved for inspection. *)
Definition save_debug (url directory : pystr) (name : option pystr)
    (text : pystr) : M (option pystr) :=
  log (CouldNotExtract url) ;;;
  let debug_file :=
    OsPath.join directory
      (sanitize_filename (name_or_resource name) ++ lit "_debug.html") in
  open_write debug_file ;;;
  write debug_file (encode_utf8 text) ;;;
  log (SavedDebug debug_file) ;;;
  ret None.

(** Lines 541-664: the page is fetched and the methods are tried in
    order. *)
Definition analyse_page (url directory : pystr)
    (name resource_id : option pystr) : M (option pystr) :=
  response <- request (GET url true false) ;;
  let soup := resp_soup response in
  log PageTitle ;;;
  or_else (method1 soup directory name)
  (or_else (method2 soup directory name)
  (or_else (method3 soup directory name)
  (or_else (method4 directory name resource_id)
  (or_else (method5 soup directory name)
  (or_else (method6 soup directory name)
  (or_else (method7 soup (resp_text response) directory name resource_id)
  (save_debug url directory name (resp_text response)))))))).

Definition _process_resource_page (url directory : pystr)
    (name : option pystr) : M (option pystr) :=
  let url := absolute url in
  try_except
    (log (FetchingResourcePage url) ;;;
     resource_id <- resource_id_of url ;;
     or_else (try_direct url directory name resource_id)
       (analyse_page url directory name resource_id))
    (fun e => log (ErrorResourcePage url e) ;;; log Traceback ;;; ret None).

(** ** Sections and their links (source lines 444-505, 672-742) *)

(** A course section: the dictionary with keys [name] and [content]. *)
Record Section_ := {
  section_name : pystr;
  section_content : Element
}.

(** Lines 444-462; the default name counts the sections found so far. *)
Definition _get_course_sections (soup : Soup) : list Section_ :=
  fold_left
    (fun sections section =>
       let name := match el_sectionname section with
                   | Some t => t
                   | None => lit "Section "
                               ++ str_of_nat (length sections + 1)
                   end in
       sections ++ [{| section_name := name; section_content := section |}])
    (soup_sections soup) [].

Definition _is_resource_link (link : Tag) : bool :=
  let href := tag_get_str link (lit "href") in
  Str.any_in [lit "pluginfile.php"; lit "resource/view.php"] href
  && negb (Str.any_in [lit "forum"; lit "page/view"; lit "edit";
                       lit "delete"; lit "index"] href).

(** [link["href"]] *)
Definition tag_index (link : Tag) (key : pystr) : M pystr :=
  match tag_get link key with
  | Some v => ret v
  | None => raise KeyError
  end.

(** Lines 483-503: the body of the [try] statement for one resource
    link. *)
Definition resource_link_body (link : Tag) (directory : pystr) : M unit :=
  url <- tag_index link (lit "href") ;;
  let name := tag_text link in
  if negb (truthy name)
     || existsb (Str.eqb (str_lower name))
          [lit "edit"; lit "delete"; lit "move"]
  then ret tt
  else
    log (FoundResource name) ;;;
    if Str.contains (lit "pluginfile.php") url then
      downloaded_file <- download_file url directory (Some name) ;;
      if truthy_opt downloaded_file
      then log (Downloaded (default [] downloaded_file))
      else ret tt
    else if Str.contains (lit "resource/view.php") url then
      downloaded_file <-
        _process_resource_page url directory (Some name) ;;
      if truthy_opt downloaded_file
      then log (Downloaded (default [] downloaded_file))
      else log (WarnNoFile name)
    else ret tt.

Definition _process_resources (soup : Element) (directory : pystr) : M unit :=
  let resource_links := List.filter _is_resource_link (el_links soup) in
  for_each resource_links
    (fun link =>
       try_except (resource_link_body link directory)
         (fun e => log (ErrorResourceLink e))).

(** The attachments of a folder or assignment page (lines 696-700 and
    736-740). *)
Definition download_attachments (page : Soup) (directory : pystr) : M unit :=
  for_each (soup_links page)
    (fun file_link =>
       let href := tag_get_str file_link (lit "href") in
       if Str.contains (lit "pluginfile.php") href then
         download_file href directory (Some (tag_text file_link)) ;;; ret tt
       else ret tt).

Definition is_folder_link (link : Tag) : bool :=
  Str.contains (lit "folder/view.php") (tag_get_str link (lit "href")).

(** Lines 679-700: the body of the [try] statement for one folder link. *)
Definition folder_link_body (link : Tag) (directory : pystr) : M unit :=
  url <- tag_index link (lit "href") ;;
  folder_name <-
    (if truthy (tag_text link) then ret (tag_text link)
     else n <- listdir_len directory ;;
          ret (lit "Folder_" ++ str_of_nat (n + 1))) ;;
  log (ProcessingFolder folder_name) ;;;
  let folder_dir :=
    OsPath.join directory (sanitize_filename folder_name) in
  makedirs folder_dir ;;;
  response <- request (GET url true false) ;;
  download_attachments (resp_soup response) folder_dir.

Definition _process_folders (soup : Element) (directory : pystr) : M unit :=
  let folder_links := List.filter is_folder_link (el_links soup) in
  for_each folder_links
    (fun link =>
       try_except (folder_link_body link directory)
         (fun e => log (ErrorFolder (tag_get_str link (lit "href")) e))).

Definition is_assignment_link (link : Tag) : bool :=
  Str.contains (lit "assign/view.php") (tag_get_str link (lit "href")).

(** Lines 711-740: the body of the [try] statement for one assignment
    link. *)
Definition assignment_link_body (link : Tag) (directory : pystr) : M unit :=
  url <- tag_index link (lit "href") ;;
  let name := tag_text link in
  if negb (truthy name) then ret tt
  else
    log (ProcessingAssignment name) ;;;
    let assign_dir :=
      OsPath.join directory (sanitize_filename name) in
    makedirs assign_dir ;;;
    response <- request (GET url true false) ;;
    let assign_soup := resp_soup response in
    (match soup_description assign_soup with
     | Some desc_text =>
         if truthy desc_text then
           let f := OsPath.join assign_dir (lit "description.txt") in
           open_write f ;;; write f (encode_utf8 desc_text)
         else ret tt
     | None => ret tt
     end) ;;;
    download_attachments assign_soup assign_dir.

Definition _process_assignments (soup : Element) (directory : pystr)
  : M unit :=
  let assignment_links := List.filter is_assignment_link (el_links soup) in
  for_each assignment_links
    (fun link =>
       try_except (assignment_link_body link directory)
         (fun e => log (ErrorAssignment (tag_get_str link (lit "href")) e))).

(** ** [process_course] and [run] (source lines 395-442, 744-783) *)

(** The truth value of a BeautifulSoup element: [Tag.__bool__] answers
    [True] for every tag, so the test of line 430 never skips. *)
Definition element_truthy (_ : Element) : bool := true.

Definition process_course (course : Course) : M unit :=
  log (ProcessingCourse (course_name course)) ;;;
  let course_dir :=
    OsPath.join (download_dir cfg) (sanitize_filename (course_name course)) in
  makedirs course_dir ;;;
  response <- request (GET (course_url course) true false) ;;
  let soup := resp_soup response in
  let sections := _get_course_sections soup in
  let sections :=
    match sections with
    | [] => [{| section_name := lit "Main Content";
                section_content := soup_element soup |}]
    | _ => sections
    end in
  for_each sections
    (fun section =>
       let section_soup := section_content section in
       if negb (element_truthy section_soup) then ret tt
       else
         let section_dir :=
           OsPath.join course_dir
             (sanitize_filename (section_name section)) in
         makedirs section_dir ;;;
         _process_resources section_soup section_dir ;;;
         _process_folders section_soup section_dir ;;;
         _process_assignments section_soup section_dir) ;;;
  log (CompletedCourse (course_name course)).

(** [[int(idx.strip()) - 1 for idx in selection.split(',')]]; [None]
    stands for [ValueError]. *)
Fixpoint parse_indices (parts : list pystr) : option (list Z) :=
  match parts with
  | [] => Some []
  | idx :: parts' =>
      match py_int (str_strip_ws idx) with
      | Some n =>
          match parse_indices parts' with
          | Some ns => Some ((n - 1)%Z :: ns)
          | None => None
          end
      | None => None
      end
  end.

(** [[courses[idx] for idx in indices if 0 <= idx < len(courses)]] *)
Definition pick_courses (courses : list Course) (indices : list Z)
  : list Course :=
  flat_map
    (fun idx =>
       if (0 <=? idx)%Z && (idx <? Z.of_nat (length courses))%Z then
         match courses !! Z.to_nat idx with
         | Some c => [c]
         | None => []
         end
       else [])
    indices.

(** Lines 769-777. *)
Definition select_courses (courses : list Course) (selection : pystr)
  : M (list Course) :=
  if Str.eqb (str_lower selection) (lit "all") then ret courses
  else
    match parse_indices (Str.split 44%N selection) with
    | Some indices => ret (pick_courses courses indices)
    | None => log InvalidSelection ;;; ret courses
    end.

Fixpoint log_course_lines (i : nat) (courses : list Course) : M unit :=
  match courses with
  | [] => ret tt
  | course :: courses' =>
      log (CourseLine i (course_name course)) ;;;
      log_course_lines (S i) courses'
  end.

Definition run : M unit :=
  log Banner ;;;
  makedirs (download_dir cfg) ;;;
  login ;;;
  courses <- get_courses ;;
  match courses with
  | [] => log NoCoursesFound
  | _ =>
      log (FoundNCourses (length courses)) ;;;
      log_course_lines 1 courses ;;;
      selection <- input ;;
      selected_courses <- select_courses courses selection ;;
      for_each selected_courses process_course ;;;
      log (DownloadComplete (download_dir cfg))
  end.

End Program.

(** ** A reference instance of the library interface

    Each function follows the documented behaviour of its Python
    counterpart on ASCII input; what lies outside is stated in place. *)

Module RefLib.

Definition in_range (lo hi c : N) : bool := (lo <=? c)%N && (c <=? hi)%N.

Definition is_digit (c : char) : bool := in_range 48 57 c.
Definition is_alpha (c : char) : bool := in_range 65 90 c || in_range 97 122 c.

(** White space: blank, tab, line feed, vertical tab, form feed, carriage
    return. *)
Definition is_space (c : char) : bool := Str.mem c [32; 9; 10; 11; 12; 13]%N.

(** Letters A to Z are lowered; a letter outside ASCII stays. *)
Definition lower_char (c : char) : char :=
  if in_range 65 90 c then (c + 32)%N else c.
Definition lower (s : pystr) : pystr := map lower_char s.

Definition strip_ws (s : pystr) : pystr :=
  rev (Str.dropwhile is_space (rev (Str.dropwhile is_space s))).

(** Decimal digits to a number. *)
Definition digits_value (ds : pystr) : Z :=
  fold_left (fun acc d => (10 * acc + Z.of_N (d - 48))%Z) ds 0%Z.

(** [int(s)]: white space around, an optional sign, then decimal digits
    (digit separators are not modelled). *)
Definition int_of_str (s : pystr) : option Z :=
  let body := strip_ws s in
  let '(neg, ds) :=
    match body with
    | 45%N :: ds => (true, ds)
    | 43%N :: ds => (false, ds)
    | _ => (false, body)
    end in
  match ds with
  | [] => None
  | _ =>
      if forallb is_digit ds
      then Some (if neg then (- digits_value ds)%Z else digits_value ds)
      else None
  end.

(** UTF-8, one code point at a time. *)
Definition utf8_char (c : char) : list N :=
  if (c <? 128)%N then [c]
  else if (c <? 2048)%N then
    [192 + c / 64; 128 + c mod 64]%N
  else if (c <? 65536)%N then
    [224 + c / 4096; 128 + (c / 64) mod 64; 128 + c mod 64]%N
  else
    [240 + c / 262144; 128 + (c / 4096) mod 64; 128 + (c / 64) mod 64;
     128 + c mod 64]%N.
Definition utf8 (s : pystr) : list N := flat_map utf8_char s.

(** *** [urllib.parse] *)

Definition is_scheme_char (c : char) : bool :=
  is_alpha c || is_digit c || Str.mem c [43; 45; 46]%N.

(** The scheme and what follows its colon. *)
Definition split_scheme (url : pystr) : pystr * pystr :=
  let s := Str.before 58%N url in
  match s, Str.after 58%N url with
  | c :: _, Some rest =>
      if is_alpha c && forallb is_scheme_char s then (lower s, rest)
      else ([], url)
  | _, _ => ([], url)
  end.

(** The network location, when the rest starts with two slashes, and
    what follows it. *)
Definition split_netloc (rest : pystr) : option pystr * pystr :=
  if Str.startswith rest (lit "//") then
    let r := drop 2 rest in
    let stop := fun c => Str.mem c [47; 63; 35]%N in
    (Some (Re.takewhile (fun c => negb (stop c)) r),
     Str.dropwhile (fun c => negb (stop c)) r)
  else (None, rest).

Definition uses_params : list pystr :=
  [] :: map lit ["ftp"; "hdl"; "prospero"; "http"; "imap"; "https";
                 "shttp"; "rtsp"; "rtspu"; "sip"; "sips"; "mms"; "sftp";
                 "tel"]%string.

(** The path without the parameters of its last segment. *)
Definition strip_params (path : pystr) : pystr :=
  Str.upto_last ch_slash path
  ++ Str.before 59%N (Str.after_last ch_slash path).

Definition path_of (url : pystr) : pystr :=
  let '(scheme, rest) := split_scheme url in
  let rest := snd (split_netloc rest) in
  let path := Str.before 63%N (Str.before 35%N rest) in
  if existsb (Str.eqb scheme) uses_params then strip_params path
  else path.

Definition query_of (url : pystr) : pystr :=
  let '(_, rest) := split_scheme url in
  let rest := snd (split_netloc rest) in
  default [] (Str.after 63%N (Str.before 35%N rest)).

Definition hex_value (c : char) : option N :=
  if is_digit c then Some (c - 48)%N
  else if in_range 65 70 c then Some (c - 55)%N
  else if in_range 97 102 c then Some (c - 87)%N
  else None.

(** Percent escapes are decoded; an escape of a byte above 127 yields the
    code point of that value (UTF-8 sequences are not joined). *)
Fixpoint percent_decode (s : pystr) : pystr :=
  match s with
  | 37%N :: ((h :: l :: s'') as s') =>
      match hex_value h, hex_value l with
      | Some a, Some b => (16 * a + b)%N :: percent_decode s''
      | _, _ => 37%N :: percent_decode s'
      end
  | c :: s' => c :: percent_decode s'
  | [] => []
  end.

Definition plus_to_space (s : pystr) : pystr :=
  map (fun c => if N.eqb c 43 then 32%N else c) s.

(** The name and value of one field of a query string; fields without an
    equals sign or with an empty value are dropped. *)
Definition parse_field (field : pystr) : option (pystr * pystr) :=
  match Str.after 61%N field with
  | Some ((_ :: _) as v) =>
      Some (percent_decode (plus_to_space (Str.before 61%N field)),
            percent_decode (plus_to_space v))
  | _ => None
  end.

Fixpoint add_value (name value : pystr) (d : list (pystr * list pystr))
  : list (pystr * list pystr) :=
  match d with
  | [] => [(name, [value])]
  | (n, vs) :: d' =>
      if Str.eqb n name then (n, vs ++ [value]) :: d'
      else (n, vs) :: add_value name value d'
  end.

Definition qs (query : pystr) : list (pystr * list pystr) :=
  fold_left
    (fun d field => match parse_field field with
                    | Some (n, v) => add_value n v d
                    | None => d
                    end)
    (Str.split 38%N query) [].

(** The scheme and network location of a URL, as a prefix. *)
Definition origin (url : pystr) : pystr :=
  let '(scheme, rest) := split_scheme url in
  match fst (split_netloc rest) with
  | Some netloc => scheme ++ lit "://" ++ netloc
  | None => scheme ++ lit ":"
  end.

(** [urljoin] for a reference that is a full URL, starts at the root, or
    is relative to the directory of the base; dot segments are left as
    they are. *)
Definition join_url (base url : pystr) : pystr :=
  match url, base with
  | [], _ => base
  | _, [] => url
  | _, _ =>
      if truthy (fst (split_scheme url)) then url
      else if Str.startswith url (lit "//")
      then fst (split_scheme base) ++ lit ":" ++ url
      else if Str.startswith url [ch_slash] then origin base ++ url
      else origin base ++ Str.upto_last ch_slash (path_of base) ++ url
  end.

(** A few rows of the MIME table. *)
Definition mime_table : list (pystr * pystr) :=
  [ fmt "application/pdf" ".pdf"; fmt "application/zip" ".zip";
    fmt "application/msword" ".doc"; fmt "text/plain" ".txt";
    fmt "text/html" ".html"; fmt "image/png" ".png";
    fmt "image/jpeg" ".jpg" ].

Definition guess (content_type : pystr) : option pystr :=
  option_map snd
    (List.find (fun r => Str.eqb (fst r) (lower content_type)) mime_table).

(** *** The script patterns *)

Definition not_quote (c : char) : bool := negb (Str.mem c [34; 39]%N).
Definition url_tail_char (c : char) : bool := not_quote c && negb (is_space c).

(** The end of the last occurrence of [file.php] in [s]; an occurrence of
    [pluginfile.php] ends there too. *)
Fixpoint last_file_php (s : pystr) : option nat :=
  match s with
  | [] => None
  | _ :: s' =>
      match last_file_php s' with
      | Some n => Some (S n)
      | None => if Str.startswith s (lit "file.php") then Some 8 else None
      end
  end.

(** The greedy match of the pattern anchored at the start of [s], for
    one of the [heads] the pattern may start with. *)
Definition match_file_url (heads : list pystr) (s : pystr) : option pystr :=
  match List.find (Str.startswith s) heads with
  | Some head =>
      let r := drop (length head) s in
      match last_file_php (Re.takewhile not_quote r) with
      | Some e =>
          Some (head ++ take e r ++ Re.takewhile url_tail_char (drop e r))
      | None => None
      end
  | None => None
  end.

Fixpoint findall_from (fuel : nat) (heads : list pystr) (s : pystr)
  : list pystr :=
  match fuel, s with
  | S fuel', _ :: s' =>
      match match_file_url heads s with
      | Some m => m :: findall_from fuel' heads (drop (length m) s)
      | None => findall_from fuel' heads s'
      end
  | _, _ => []
  end.

Definition findall (heads : list pystr) (s : pystr) : list pystr :=
  findall_from (length s) heads s.

End RefLib.

#[global] Instance ref_lib : PyLib := {|
  str_lower := RefLib.lower;
  str_strip_ws := RefLib.strip_ws;
  is_decimal := RefLib.is_digit;
  py_int := RefLib.int_of_str;
  encode_utf8 := RefLib.utf8;
  urljoin := RefLib.join_url;
  urlparse_path := RefLib.path_of;
  urlparse_query := RefLib.query_of;
  parse_qs := RefLib.qs;
  unquote := RefLib.percent_decode;
  guess_extension := RefLib.guess;
  findall_abs_file_url :=
    RefLib.findall [lit "https://"; lit "http://"];
  findall_rel_file_url := RefLib.findall [lit "/"]
|}.

(** ** Vocabulary of the statements *)

(** The first course of a list with a given URL. *)
Definition first_with_url (u : pystr) (courses : list Course)
  : option Course :=
  List.find (fun c => Str.eqb (course_url c) u) courses.

(** The invariant of the loop: after the courses [done], the list holds
    one course per URL seen, each the first of [done] with its URL, and
    the set holds exactly these URLs. *)
Definition dedup_inv (done : list Course) (st : list Course * gset pystr)
  : Prop :=
  NoDup (map course_url st.1)
  /\ (forall u, u ∈ st.2 <-> u ∈ map course_url st.1)
  /\ (forall u, u ∈ map course_url st.1 <-> u ∈ map course_url done)
  /\ (forall c, c ∈ st.1 -> first_with_url (course_url c) done = Some c).

(** The requests of a trace, the latest first. *)
Definition requests_of (tr : list Event) : list Request :=
  flat_map (fun e => match e with EvRequest q => [q] | _ => [] end) tr.

(** How often the credentials were posted. *)
Definition logins (tr : list Event) : nat :=
  length (List.filter (fun q => match q with POST _ _ => true | _ => false end)
            (requests_of tr)).

(** How often an expired session was detected. *)
Definition expiries (tr : list Event) : nat :=
  length (List.filter (fun e => match e with
                                | EvLog _ SessionExpired => true
                                | _ => false
                                end) tr).

(** How often a streaming GET of [url] was issued. *)
Definition gets_of (url : pystr) (tr : list Event) : nat :=
  length (List.filter (fun q => match q with
                                | GET u _ true => Str.eqb u url
                                | _ => false
                                end) (requests_of tr)).

(** An event other than the announcement of a pattern guess (source line
    650, the first statement of the loop of Method 7). *)
Definition not_guess (e : Event) : Prop :=
  match e with
  | EvLog _ (TryingPattern _) => False
  | _ => True
  end.

(** The computation only adds events, none of them a pattern guess. *)
Definition guess_free {A} (c : M A) : Prop :=
  forall w, exists added,
    trace (c w).2 = added ++ trace w /\ Forall not_guess added.

(** The computation never ends with an exception of class [Exception]. *)
Definition no_raise {A} (c : M A) : Prop :=
  forall w e, (c w).1 <> Raise e.

(** The first non-empty [href] among a list of anchors. *)
Definition first_href (links : list Tag) : option pystr :=
  head (List.filter truthy (map (fun a => tag_get_str a (lit "href")) links)).

(** The handler of [download_file]. *)
Definition on_error (cfg : Config) (url : pystr) (e : Exn)
  : M (option pystr) :=
  bind (log cfg (ErrorDownloading url e)) (fun _ => ret None).

(** The size the server announces: [Some 0] without the header, [None]
    when the header is not a number. *)
Definition expected_size_of `{PyLib} (hs : Headers) : option Z :=
  match content_length hs with
  | None => Some 0%Z
  | Some s => py_int s
  end.

(** The world after a message is logged. *)
Definition logged (cfg : Config) (m : LogMsg) (w : World) : World :=
  (log cfg m w).2.

(** The two file systems hold the same files with the same contents. *)
Definition same_files (m m' : gmap pystr Node) : Prop :=
  forall p d, m' !! p = Some (File d) <-> m !! p = Some (File d).


(** ** Scenarios

    A small portal and a few of its behaviours, used to run the model. *)

Module Scenario.

Definition base : pystr := lit "https://moodle.example.org".
Definition login_url : pystr := base ++ lit "/login/index.php".
Definition file_url : pystr := base ++ lit "/pluginfile.php/12/notes.pdf".
Definition target : pystr := lit "/dl/notes.pdf".
Definition notes : option pystr := Some (lit "notes.pdf").

Definition cfg : Config :=
  {| base_url := base; download_dir := lit "/dl"; verbose := true;
     force_download := false; recursion_limit := 50 |}.

(** The same configuration with room for three nested calls only. *)
Definition cfg3 : Config :=
  {| base_url := base; download_dir := lit "/dl"; verbose := true;
     force_download := false; recursion_limit := 3 |}.

Definition answer (u : pystr) (hs : Headers) (text : pystr) (soup : Soup)
    (chunks : list (list N)) : Response :=
  {| status_code := 200; resp_url := u; resp_headers := hs;
     resp_text := text; resp_soup := soup; resp_chunks := chunks;
     resp_broken := false |}.

Definition plain (u : pystr) : Response :=
  answer u no_headers [] empty_soup [].

Definition length_header (n : string) : Headers :=
  {| content_disposition := None; content_type := None;
     content_length := Some (lit n); location := None |}.

(** A portal given by its answers to probes and to GET requests; it
    accepts every login, the system accepts every write, and the user
    types [all]. *)
Definition portal (head get : nat -> pystr -> option Response) : Env :=
  {| transport := fun t q =>
       match q with
       | HEAD u => head t u
       | GET u _ _ => get t u
       | POST u _ => Some (answer u no_headers (lit "Dashboard") empty_soup [])
       end;
     os_refuses := fun _ => false;
     stdin := fun _ => lit "all";
     dir_size := 4096 |}.

(** A state with the given entries on disk and the credentials known. *)
Definition start (entries : list (pystr * Node)) : World :=
  {| clock := 0; fs := list_to_map entries; trace := [];
     username := Some (lit "student"); password := Some (lit "secret") |}.

(** The portal serves one file with the given headers and body; the
    session is live. *)
Definition serving (hs : Headers) (chunks : list (list N)) : Env :=
  portal (fun _ u => Some (plain u))
         (fun _ u => Some (answer u hs [] empty_soup chunks)).

(** The session expires twice: the probes made before the seventh
    interaction end on the login page. *)
Definition expiring_twice : Env :=
  portal (fun t u => Some (plain (if t <? 6 then login_url else u)))
         (fun _ u =>
            if Str.eqb u file_url
            then Some (answer u (length_header "5") [] empty_soup
                         [[1; 2; 3; 4; 5]%N])
            else Some (plain u)).

(** Every probe ends on the login page. *)
Definition always_expired : Env :=
  portal (fun _ _ => Some (plain login_url)) (fun _ u => Some (plain u)).

(** *** A resource page *)

Definition page_url : pystr := base ++ lit "/mod/resource/view.php?id=42".
Definition direct_url : pystr :=
  base ++ lit "/mod/resource/view.php?id=42&redirect=1".
Definition content_url : pystr :=
  base ++ lit "/mod/resource/content.php?id=42".
Definition slides_url : pystr := base ++ lit "/pluginfile.php/9/slides.pdf".
Definition slides : option pystr := Some (lit "Slides").

Definition anchor (href text : string) : Tag :=
  {| attrs := [(lit "href", lit href)]; tag_text := lit text;
     tag_string := Some (lit text) |}.

Definition script (body : string) : Tag :=
  {| attrs := []; tag_text := lit body; tag_string := Some (lit body) |}.

Definition script_page : Soup :=
  {| soup_inputs := []; soup_cards := []; soup_links := [];
     soup_sections := []; soup_download := []; soup_frames := [];
     soup_media := [];
     soup_scripts :=
       [script "var f = 'https://moodle.example.org/pluginfile.php/9/slides.pdf';"];
     soup_alt := []; soup_metas := []; soup_description := None |}.

Definition button_page : Soup :=
  {| soup_inputs := []; soup_cards := []; soup_links := [];
     soup_sections := [];
     soup_download := [anchor "/pluginfile.php/9/slides.pdf" "Download"];
     soup_frames := []; soup_media := [];
     soup_scripts := soup_scripts script_page;
     soup_alt := []; soup_metas := []; soup_description := None |}.

(** The resource page is [soup]; the file-serving URL does not answer
    (the transport raises); the content endpoint serves three bytes. *)
Definition resource_portal (soup : Soup) : Env :=
  portal (fun _ u => if Str.eqb u slides_url then None else Some (plain u))
         (fun _ u =>
            if Str.eqb u page_url then Some (answer u no_headers [] soup [])
            else if Str.eqb u content_url
            then Some (answer u (length_header "3") [] empty_soup
                         [[1; 2; 3]%N])
            else Some (plain u)).

(** *** Two courses *)

Definition algebra_url : pystr := base ++ lit "/course/view.php?id=7".
Definition biology_url : pystr := base ++ lit "/course/view.php?id=8".

Definition links_page (links : list Tag) : Soup :=
  {| soup_inputs := []; soup_cards := []; soup_links := links;
     soup_sections := []; soup_download := []; soup_frames := [];
     soup_media := []; soup_scripts := []; soup_alt := [];
     soup_metas := []; soup_description := None |}.

(** The course list names two courses; the page of the first one cannot
    be fetched (the transport raises), that of the second one can. *)
Definition two_courses : Env :=
  portal (fun _ u => Some (plain u))
         (fun _ u =>
            if Str.eqb u (base ++ lit "/my/courses.php") then
              Some (answer u no_headers []
                      (links_page
                         [anchor "https://moodle.example.org/course/view.php?id=7"
                            "Algebra";
                          anchor "https://moodle.example.org/course/view.php?id=8"
                            "Biology"]) [])
            else if Str.eqb u algebra_url then None
            else Some (plain u)).

(** Two discovery pages list the same course, one by its full URL and
    one by a link from the root, under different texts. *)
Definition listed_twice : Env :=
  portal (fun _ u => Some (plain u))
         (fun _ u =>
            if Str.eqb u (base ++ lit "/my/courses.php") then
              Some (answer u no_headers []
                      (links_page
                         [anchor "https://moodle.example.org/course/view.php?id=7"
                            "Algebra I"]) [])
            else if Str.eqb u (base ++ lit "/my/index.php") then
              Some (answer u no_headers []
                      (links_page
                         [anchor "/course/view.php?id=7" "ALG-1 (2024)"]) [])
            else Some (plain u)).

(** Whether a request for [url] was made. *)
Definition requested (url : pystr) (tr : list Event) : bool :=
  existsb (fun q => match q with
                    | HEAD u | GET u _ _ | POST u _ => Str.eqb u url
                    end) (requests_of tr).

End Scenario.


(** The messages by which the methods of the resolution chain announce
    a candidate they are about to download, the latest first. *)
Definition strategy_logs (tr : list Event) : list LogMsg :=
  flat_map
    (fun e => match e with
              | EvLog _ (RedirectedTo u) => [RedirectedTo u]
              | EvLog _ (FoundDownloadLink u) => [FoundDownloadLink u]
              | EvLog _ (FoundEmbedded u) => [FoundEmbedded u]
              | EvLog _ (FoundInScript u) => [FoundInScript u]
              | EvLog _ (TryingContentEndpoint u) => [TryingContentEndpoint u]
              | EvLog _ (FoundByExtension u) => [FoundByExtension u]
              | EvLog _ (FoundAlternative u) => [FoundAlternative u]
              | EvLog _ (TryingPattern u) => [TryingPattern u]
              | _ => []
              end)
    tr.

(** ** Footprints

    What a computation may add to the trace. *)

(** The computation only adds events, each of them in the class [P]. *)
Definition adds (P : Event -> Prop) {A} (c : M A) : Prop :=
  forall w, exists added,
    trace (c w).2 = added ++ trace w /\ Forall P added.

(** A path segment free of the characters [sanitize_filename] replaces
    that does not start with a dot: it is neither the directory itself
    nor its parent and holds no separator. *)
Definition safe_segment (name : pystr) : Prop :=
  Forall (fun c => is_illegal c = false) name /\ head name <> Some ch_dot.

(** The paths reached from [root] by joining safe segments. *)
Inductive within (root : pystr) : pystr -> Prop :=
| within_root : within root root
| within_child d name :
    within root d -> safe_segment name ->
    within root (OsPath.join d name).

(** The events of [login]. *)
Definition login_event (e : Event) : Prop :=
  match e with
  | EvRequest (GET _ true false) | EvRequest (POST _ _) => True
  | EvInput | EvExit 1%Z => True
  | EvLog _ LoginFailed | EvLog _ LoginSuccessful => True
  | _ => False
  end.

(** The events of lines 308-383 of [download_file] for the directory
    [path]: four kinds of messages, and file-system changes at a safe
    name directly in [path] (or at the directory of such a name). *)
Definition store_event (path : pystr) (e : Event) : Prop :=
  match e with
  | EvLog _ (AddedExtension _) | EvLog _ (SkippingExisting _ _)
  | EvLog _ (SizeDiffers _) | EvLog _ (SkippingEmpty _) => True
  | EvOpen p | EvWrite p _ =>
      exists name, safe_segment name /\ p = OsPath.join path name
  | EvMakedirs p =>
      exists name, safe_segment name
                   /\ p = OsPath.dirname (OsPath.join path name)
  | _ => False
  end.

(** The events of [download_file] for the directory [path]. *)
Definition download_event (path : pystr) (e : Event) : Prop :=
  login_event e \/ store_event path e
  \/ match e with
     | EvRequest (HEAD _) | EvRequest (GET _ true true) => True
     | EvLog _ SessionExpired | EvLog _ (ErrorDownloading _ _) => True
     | _ => False
     end.

(** An event that changes nothing outside [root]: a file is opened or
    written at a path within [root] only, a directory is made within
    [root] or as the directory of a safe name joined to such a path. *)
Definition fs_within (root : pystr) (e : Event) : Prop :=
  match e with
  | EvOpen p | EvWrite p _ => within root p
  | EvMakedirs p =>
      within root p
      \/ exists d name, within root d /\ safe_segment name
                        /\ p = OsPath.dirname (OsPath.join d name)
  | _ => True
  end.

(** An event other than posting the credentials and detecting an expired
    session. *)
Definition no_relogin (e : Event) : Prop :=
  match e with
  | EvRequest (POST _ _) | EvLog _ SessionExpired => False
  | _ => True
  end.


(** An event other than the messages of the extension match, of the
    alternative links, of the pattern guesses and of the debug dump
    (Methods 5 to 7 and lines 655-662 of the source). *)
Definition not_late (e : Event) : Prop :=
  match e with
  | EvLog _ (FoundByExtension _) | EvLog _ (FoundAlternative _)
  | EvLog _ (TryingPattern _) | EvLog _ (CouldNotExtract _)
  | EvLog _ (SavedDebug _) => False
  | _ => True
  end.


(** The request for a course page. *)
Definition page_request `{PyLib} (cfg : Config) (page : pystr) : Request :=
  GET (urljoin (base_url cfg) page) true false.

(** A course whose name is not empty. *)
Definition named (c : Course) : Prop := truthy (course_name c) = true.

(** The name line 454 gives the section at position [i] (from 0). *)
Definition section_name_at (i : nat) (section : Element) : pystr :=
  match el_sectionname section with
  | Some t => t
  | None => lit "Section " ++ str_of_nat (i + 1)
  end.

(** ** Further scenarios *)

Module Cases.
Import Scenario.

Definition five : list (list N) := [[1; 2; 3; 4; 5]%N].

(** The two courses shown at the prompt. *)
Definition algebra : Course :=
  {| course_url := algebra_url; course_name := lit "Algebra" |}.
Definition biology : Course :=
  {| course_url := biology_url; course_name := lit "Biology" |}.

(** The transfer of the file breaks after three bytes of five. *)
Definition broken (u : pystr) : Response :=
  {| status_code := 200; resp_url := u; resp_headers := length_header "5";
     resp_text := []; resp_soup := empty_soup; resp_chunks := [[1; 2; 3]%N];
     resp_broken := true |}.

Definition breaking : Env :=
  portal (fun _ u => Some (plain u)) (fun _ u => Some (broken u)).

(** No probe is answered. *)
Definition unreachable : Env :=
  portal (fun _ _ => None) (fun _ u => Some (plain u)).

(** The answer of a portal that shows the login form again. *)
Definition login_form (u : pystr) : Response :=
  answer u no_headers (lit "<form id='loginform'>") empty_soup [].

(** Every probe ends on the login page and every login is rejected. *)
Definition rejecting : Env :=
  {| transport := fun _ q =>
       match q with
       | HEAD _ => Some (plain login_url)
       | GET u _ _ => Some (plain u)
       | POST u _ => Some (login_form u)
       end;
     os_refuses := fun _ => false;
     stdin := fun _ => lit "all";
     dir_size := 4096 |}.

(** The answer to the redirect probe: a redirect to the slides. *)
Definition moved : Response :=
  {| status_code := 302; resp_url := direct_url;
     resp_headers := {| content_disposition := None; content_type := None;
                        content_length := None;
                        location := Some slides_url |};
     resp_text := []; resp_soup := empty_soup; resp_chunks := [];
     resp_broken := false |}.

Definition redirecting : Env :=
  portal (fun _ u => Some (plain u))
         (fun _ u => if Str.eqb u direct_url then Some moved
                     else Some (plain u)).

(** A resource page without an [id] in its URL. *)
Definition bare_url : pystr := base ++ lit "/mod/resource/view.php".

(** Every page is empty. *)
Definition empty_pages : Env :=
  portal (fun _ u => Some (plain u)) (fun _ u => Some (plain u)).

End Cases.

(** The second file system holds what the first one holds, and new
    directories. *)
Definition only_dirs_added (m m' : gmap pystr Node) : Prop :=
  (forall (k : pystr) n, m !! k = Some n -> m' !! k = Some n)
  /\ (forall k : pystr,
        m !! k = None -> m' !! k = None \/ m' !! k = Some Dir).

Module Cases2.
Import Scenario.

(** A Content-Disposition header whose file name is a blank, a dot and a
    blank, and no Content-Length. *)
Definition blank_name : Headers :=
  {| content_disposition :=
       Some (lit "attachment; filename=" ++ [ch_quote] ++ lit " . "
             ++ [ch_quote]);
     content_type := None; content_length := None; location := None |}.

End Cases2.

(** ** The resolution chain, as a decision list

    The strategies in the order of the specification: the redirect probe
    (1), the download anchors (2), the embedded media (3), the URLs found
    in scripts (4), the content endpoint (5), the extension match (6), the
    alternative links (7).  Each strategy has its candidates; a strategy
    with one candidate settles the resolution, the script scan goes
    through its candidates until a download gives a file. *)

Section Chain.
Context `{PyLib} (env : Env) (cfg : Config).

(** Strategy 1: the location the redirect probe is sent to, if any. *)
Definition redirect_probe (url : pystr) (resource_id : option pystr)
  : M (option pystr) :=
  if truthy_opt resource_id && Str.contains (lit "resource/view.php") url
  then
    let direct_url :=
      base_url cfg ++ lit "/mod/resource/view.php?id="
        ++ default [] resource_id ++ lit "&redirect=1" in
    log cfg (TryingDirect direct_url) ;;;
    response <- request env (GET direct_url false false) ;;
    ret (match location (resp_headers response) with
         | Some loc =>
             if existsb (Z.eqb (status_code response)) redirect_codes
             then Some loc else None
         | None => None
         end)
  else ret None.

(** Strategy 2: the first download anchor with a non-empty [href]. *)
Definition anchor_candidate (soup : Soup) : option pystr :=
  first_href (download_links soup).

Definition is_file_source (s : pystr) : bool :=
  truthy s
  && (Str.contains (lit "pluginfile.php") s
      || Str.contains (lit "file.php") s).

(** Strategy 3: the first embedded source that serves a file. *)
Definition embedded_candidate (soup : Soup) : option pystr :=
  head (List.filter is_file_source
          (flat_map (fun src => match src with
                                | Some s => [s]
                                | None => []
                                end) (embedded_sources soup))).

(** Strategy 4: the file URLs of all scripts, in the order found. *)
Definition script_candidates (soup : Soup) : list pystr :=
  flat_map
    (fun script =>
       match tag_string script with
       | Some body =>
           if truthy body
           then findall_abs_file_url body ++ findall_rel_file_url body
           else []
       | None => []
       end)
    (soup_scripts soup).

Definition has_file_extension (href : pystr) : bool :=
  existsb (fun ext => Str.endswith (str_lower href) ext) file_extensions.

(** Strategy 6: the first anchor whose [href] ends with an extension of
    the list. *)
Definition extension_candidate (soup : Soup) : option pystr :=
  head (List.filter has_file_extension
          (map (fun a => tag_get_str a (lit "href")) (soup_links soup))).

(** Strategy 7: the first alternative link with a non-empty [href]. *)
Definition alternative_candidate (soup : Soup) : option pystr :=
  first_href (soup_alt soup).

(** The candidate is announced and downloaded, and the result of the
    download, a path or [None], is the result. *)
Definition settle (announce : pystr -> LogMsg) (u : pystr)
    (directory : pystr) (name : option pystr) : M (option pystr) :=
  log cfg (announce u) ;;; download_file env cfg u directory name.

(** The candidates are announced and downloaded in turn until a download
    gives a file. *)
Fixpoint first_success (announce : pystr -> LogMsg) (urls : list pystr)
    (directory : pystr) (name : option pystr) : M (option pystr) :=
  match urls with
  | [] => ret None
  | u :: rest =>
      log cfg (announce (absolute cfg u)) ;;;
      result <- download_file env cfg (absolute cfg u) directory name ;;
      if truthy_opt result then ret result
      else first_success announce rest directory name
  end.

(** Strategies 2 to 7, on the page fetched. *)
Definition page_chain (url directory : pystr)
    (name resource_id : option pystr) : M (option pystr) :=
  response <- request env (GET url true false) ;;
  log cfg PageTitle ;;;
  let soup := resp_soup response in
  match anchor_candidate soup with
  | Some href => settle FoundDownloadLink (absolute cfg href) directory name
  | None =>
  match embedded_candidate soup with
  | Some src => settle FoundEmbedded (absolute cfg src) directory name
  | None =>
  found <- first_success FoundInScript (script_candidates soup)
             directory name ;;
  if truthy_opt found then ret found
  else if truthy_opt resource_id then
    settle TryingContentEndpoint
      (base_url cfg ++ lit "/mod/resource/content.php?id="
         ++ default [] resource_id) directory name
  else
  match extension_candidate soup with
  | Some href => settle FoundByExtension (absolute cfg href) directory name
  | None =>
  match alternative_candidate soup with
  | Some href => settle FoundAlternative (absolute cfg href) directory name
  | None => save_debug env cfg url directory name (resp_text response)
  end end end end.

Definition resolution_chain (url directory : pystr) (name : option pystr)
  : M (option pystr) :=
  let url := absolute cfg url in
  try_except
    (log cfg (FetchingResourcePage url) ;;;
     resource_id <- resource_id_of url ;;
     redirect <- redirect_probe url resource_id ;;
     match redirect with
     | Some loc => settle RedirectedTo (absolute cfg loc) directory name
     | None => page_chain url directory name resource_id
     end)
    (fun e =>
       log cfg (ErrorResourcePage url e) ;;; log cfg Traceback ;;; ret None).

End Chain.


(** [k] expiries in a row at the probes of [url], each followed by a
    login that returns: from the state before the first probe to the state
    after the last login. *)
Inductive retried `{PyLib} (env : Env) (cfg : Config) (url : pystr)
  : nat -> World -> World -> Prop :=
| retried_none w : retried env cfg url 0 w w
| retried_again k w hr b w1 w2 :
    transport env (clock w) (HEAD url) = Some hr ->
    session_expired hr url = true ->
    login env cfg (logged cfg SessionExpired
                     (interact (EvRequest (HEAD url)) w)) = (Ret b, w1) ->
    retried env cfg url k w1 w2 ->
    retried env cfg url (S k) w w2.


(** The courses the discovery pages list, as the portal answers from the
    time [t] on: those of each page in turn, none for a page whose request
    fails. *)
Definition page_courses `{PyLib} (env : Env) (cfg : Config) (t : nat)
    (page : pystr) : list Course :=
  match transport env t (page_request cfg page) with
  | Some r => _extract_courses_from_page cfg (resp_soup r)
  | None => []
  end.

Fixpoint pages_courses `{PyLib} (env : Env) (cfg : Config) (t : nat)
    (pages : list pystr) : list Course :=
  match pages with
  | [] => []
  | page :: pages' =>
      page_courses env cfg t page ++ pages_courses env cfg (S t) pages'
  end.

Definition collected `{PyLib} (env : Env) (cfg : Config) (w : World)
  : list Course :=
  pages_courses env cfg (clock w) course_pages.


(** ** The propagation policy of a pass over the links of a section

    One link, as the policy has it: the link is processed; when that
    raises, the message of the pass is logged and the pass goes on with
    the links that follow, from the state the failed link left; when it
    returns, the pass goes on likewise; a process exit ends the pass. *)
Definition link_then_rest {A} (cfg : Config) (body : M A)
    (msg : Exn -> LogMsg) (rest : M unit) : M unit :=
  fun w =>
    match body w with
    | (Ret _, w') => rest w'
    | (Raise e, w') => rest (logged cfg (msg e) w')
    | (Exit n, w') => (Exit n, w')
    end.

(** A pass over the anchors of a section: the anchors the pass selects are
    processed in document order, each under [link_then_rest]; the others
    are passed over. *)
Fixpoint guarded_pass (cfg : Config) (select : Tag -> bool)
    (body : Tag -> M unit) (msg : Tag -> Exn -> LogMsg) (links : list Tag)
  : M unit :=
  match links with
  | [] => ret tt
  | link :: rest =>
      if select link
      then link_then_rest cfg (body link) (msg link)
             (guarded_pass cfg select body msg rest)
      else guarded_pass cfg select body msg rest
  end.



(** ** The course prompt

    The course at the 1-based position [n] of the list shown, if any. *)
Definition course_number (courses : list Course) (n : Z) : option Course :=
  if (1 <=? n)%Z then courses !! Z.to_nat (n - 1) else None.

(** The entries typed at the prompt, between the commas, each read as a
    number after its white space is stripped; [None] where that fails. *)
Definition typed_numbers `{PyLib} (selection : pystr) : list (option Z) :=
  map (fun idx => py_int (str_strip_ws idx)) (Str.split 44%N selection).



(** ** What a run changes in the file system

    The directories at and above [p]: [p] itself, its directory, the
    directory of that, and so on. *)
Inductive above (p : pystr) : pystr -> Prop :=
| above_self : above p p
| above_dir q : above p q -> above p (OsPath.dirname q).

(** The event opens or writes the file at [k]. *)
Definition touches (k : pystr) (e : Event) : Prop :=
  match e with
  | EvOpen p | EvWrite p _ => p = k
  | _ => False
  end.

(** The event is a call of [os.makedirs] on a path at or below [k], where
    [k] is written without a trailing separator. *)
Definition makes (k : pystr) (e : Event) : Prop :=
  match e with
  | EvMakedirs p => exists x, above p x /\ k = Str.rstrip x [ch_slash]
  | _ => False
  end.

(** The events [added] explain how the file system [m] became [m']:
    every entry is as before, or one of the events opens or writes it, or
    it is a new directory that one of the calls of [os.makedirs] made. *)
Definition explained (added : list Event) (m m' : gmap pystr Node) : Prop :=
  forall k : pystr,
    m' !! k = m !! k
    \/ Exists (touches k) added
    \/ (m !! k = None /\ m' !! k = Some Dir /\ Exists (makes k) added).

(** The computation changes the file system only by the events it adds. *)
Definition accounts {A} (c : M A) : Prop :=
  forall w, exists added,
    trace (c w).2 = added ++ trace w
    /\ explained added (fs w) (fs (c w).2).



(** * Properties *)

(** ** Strings *)

Lemma dropwhile_suffix (f : char -> bool) (s : pystr) :
  exists pre, s = pre ++ Str.dropwhile f s.
Proof.
  induction s as [|c s IH]; simpl.
  - exists []; reflexivity.
  - destruct (f c).
    + destruct IH as [pre E]. exists (c :: pre). simpl. congruence.
    + exists []; reflexivity.
Qed.

Lemma dropwhile_head (f : char -> bool) (s : pystr) (c : char) :
  head (Str.dropwhile f s) = Some c -> f c = false.
Proof.
  induction s as [|a s IH]; simpl; [discriminate|].
  destruct (f a) eqn:E; [assumption|].
  simpl. intros [= <-]. exact E.
Qed.

Lemma rstrip_prefix (s chars : pystr) :
  exists post, s = Str.rstrip s chars ++ post.
Proof.
  unfold Str.rstrip.
  destruct (dropwhile_suffix (fun c => Str.mem c chars) (rev s)) as [pre E].
  exists (rev pre).
  rewrite <- rev_app_distr, <- E, rev_involutive. reflexivity.
Qed.

Lemma strip_head (s chars : pystr) (c : char) :
  head (Str.strip s chars) = Some c -> Str.mem c chars = false.
Proof.
  unfold Str.strip, Str.lstrip. intros Hh.
  destruct (rstrip_prefix (Str.dropwhile (fun c => Str.mem c chars) s) chars)
    as [post E].
  apply (dropwhile_head (fun c => Str.mem c chars) s).
  rewrite E.
  destruct (Str.rstrip _ chars); [discriminate|]. exact Hh.
Qed.

Lemma Forall_dropwhile (P : char -> Prop) f (s : pystr) :
  Forall P s -> Forall P (Str.dropwhile f s).
Proof.
  induction 1 as [|c s Hc Hs IH]; simpl; [constructor|].
  destruct (f c); [exact IH | constructor; assumption].
Qed.

Lemma Forall_strip (P : char -> Prop) (s chars : pystr) :
  Forall P s -> Forall P (Str.strip s chars).
Proof.
  intros Hs. unfold Str.strip, Str.rstrip, Str.lstrip.
  apply Forall_rev, Forall_dropwhile, Forall_rev, Forall_dropwhile, Hs.
Qed.

Lemma startswith_app (s p : pystr) : Str.startswith (p ++ s) p = true.
Proof.
  induction p as [|a p IH]; simpl; [destruct s; reflexivity|].
  rewrite N.eqb_refl. exact IH.
Qed.

Lemma startswith_inv (s p : pystr) :
  Str.startswith s p = true -> s = p ++ drop (length p) s.
Proof.
  revert s. induction p as [|a p IH]; intros s; [reflexivity|].
  destruct s as [|b s]; simpl; [discriminate|].
  intros Hb. apply andb_true_iff in Hb as [Hab Hs].
  apply N.eqb_eq in Hab. subst b. simpl. f_equal. apply IH, Hs.
Qed.

Lemma strip_example :
  Str.strip (lit " .a.b. ") (lit ". ") = lit "a.b".
Proof. reflexivity. Qed.

(** ** [sanitize_filename] *)

Lemma re_sub_illegal_clean (s : pystr) :
  Forall (fun c => is_illegal c = false) (re_sub_illegal s).
Proof.
  unfold re_sub_illegal. apply Forall_map, Forall_forall.
  intros c _. simpl. destruct (is_illegal c) eqn:E; [reflexivity | exact E].
Qed.

(** No character of the class survives. *)
Lemma sanitize_filename_no_illegal (s : pystr) :
  Forall (fun c => is_illegal c = false) (sanitize_filename s).
Proof.
  unfold sanitize_filename, Str.slice_to.
  apply Forall_take, Forall_strip, re_sub_illegal_clean.
Qed.

(** At most 100 characters are returned. *)
Lemma sanitize_filename_length (s : pystr) :
  length (sanitize_filename s) <= 100.
Proof.
  unfold sanitize_filename, Str.slice_to. rewrite length_take. lia.
Qed.

(** The result does not start with a dot or a space. *)
Lemma sanitize_filename_head (s : pystr) (c : char) :
  head (sanitize_filename s) = Some c -> c <> ch_dot /\ c <> ch_space.
Proof.
  unfold sanitize_filename, Str.slice_to. intros Hh.
  assert (Hs : head (Str.strip (re_sub_illegal s) (lit ". ")) = Some c).
  { destruct (Str.strip (re_sub_illegal s) (lit ". ")); [discriminate|].
    exact Hh. }
  apply strip_head in Hs.
  split; intros ->; vm_compute in Hs; discriminate.
Qed.

(** C5, at the failing input: a name of 101 characters, ninety-nine
    letters a, a space and a letter b.  No character is replaced, nothing
    is stripped, and the cut at 100 characters leaves the space last: the
    result ends with a space, against the sentence that a sanitized name
    never ends with a dot or a space. *)
Theorem sanitize_filename_trailing_space :
  let name := repeat 97%N 99 ++ lit " b" in
  sanitize_filename name = repeat 97%N 99 ++ lit " "
  /\ last (sanitize_filename name) = Some ch_space.
Proof. split; vm_compute; reflexivity. Qed.

(** ** Course deduplication *)

Lemma first_with_url_app_l u cs ds c :
  first_with_url u cs = Some c -> first_with_url u (cs ++ ds) = Some c.
Proof.
  unfold first_with_url. induction cs as [|a cs IH]; simpl; [discriminate|].
  destruct (Str.eqb (course_url a) u); [trivial | exact IH].
Qed.

Lemma first_with_url_app_r u cs ds :
  u ∉ map course_url cs ->
  first_with_url u (cs ++ ds) = first_with_url u ds.
Proof.
  unfold first_with_url. induction cs as [|a cs IH]; simpl; [reflexivity|].
  intros Hn. unfold Str.eqb. case_bool_decide as E.
  - exfalso. apply Hn. rewrite E. left.
  - apply IH. intros Hin. apply Hn. right. exact Hin.
Qed.

Lemma dedup_inv_init : dedup_inv [] ([], ∅).
Proof.
  repeat split; simpl; try set_solver. constructor.
Qed.

Lemma dedup_inv_step done st course :
  dedup_inv done st -> dedup_inv (done ++ [course]) (dedup_step st course).
Proof.
  destruct st as [unique seen]. intros (Hnd & Hseen & Hurls & Hfirst).
  simpl in *. unfold dedup_step.
  case_bool_decide as Hin; unfold dedup_inv; simpl.
  - split; [exact Hnd|]. split; [exact Hseen|]. split.
    + intros u. rewrite map_app, elem_of_app, Hurls. simpl.
      rewrite list_elem_of_singleton. split; [tauto|].
      intros [Hu | ->]; [exact Hu|]. apply Hurls, Hseen, Hin.
    + intros c Hc. apply first_with_url_app_l, Hfirst, Hc.
  - assert (Hfresh : course_url course ∉ map course_url unique).
    { intros Hc. apply Hin, Hseen, Hc. }
    split; [|split; [|split]].
    + rewrite map_app. apply NoDup_app. split; [exact Hnd|]. split.
      * intros u Hu Hu'. simpl in Hu'. apply list_elem_of_singleton in Hu'.
        subst u. exact (Hfresh Hu).
      * simpl. apply NoDup_singleton.
    + intros u. rewrite map_app, elem_of_app, elem_of_union, elem_of_singleton.
      simpl. rewrite list_elem_of_singleton, <- Hseen. tauto.
    + intros u. rewrite !map_app, !elem_of_app, Hurls. tauto.
    + intros c Hc. apply elem_of_app in Hc as [Hc | Hc].
      * apply first_with_url_app_l, Hfirst, Hc.
      * apply list_elem_of_singleton in Hc. subst c.
        rewrite first_with_url_app_r.
        -- unfold first_with_url. simpl. unfold Str.eqb.
           rewrite bool_decide_true; reflexivity.
        -- intros Hc. apply Hfresh, Hurls, Hc.
Qed.

Lemma dedup_inv_fold courses done st :
  dedup_inv done st ->
  dedup_inv (done ++ courses) (fold_left dedup_step courses st).
Proof.
  revert done st. induction courses as [|c cs IH]; intros done st Hinv.
  - rewrite app_nil_r. exact Hinv.
  - simpl. replace (done ++ c :: cs) with ((done ++ [c]) ++ cs)
      by (rewrite <- app_assoc; reflexivity).
    apply IH, dedup_inv_step, Hinv.
Qed.

(** The loop that removes the duplicates: the result has no two entries
    with the same URL, holds an entry for a URL exactly when some course
    of the input has that URL, and each entry is the first course of the
    input with its URL. *)
Lemma remove_duplicates_first (courses : list Course) :
  NoDup (map course_url (remove_duplicates courses))
  /\ (forall u, u ∈ map course_url (remove_duplicates courses)
                <-> u ∈ map course_url courses)
  /\ (forall c, c ∈ remove_duplicates courses ->
                first_with_url (course_url c) courses = Some c).
Proof.
  unfold remove_duplicates.
  destruct (dedup_inv_fold courses [] ([], ∅) dedup_inv_init)
    as (Hnd & _ & Hurls & Hfirst).
  simpl in *. auto.
Qed.

(** The list [get_courses] returns holds no URL twice. *)
Lemma get_courses_no_duplicates `{PyLib} env cfg w courses w' :
  get_courses env cfg w = (Ret courses, w') ->
  NoDup (map course_url courses).
Proof.
  unfold get_courses, bind.
  destruct (collect_courses env cfg course_pages [] w) as [[raw|e|n] w1];
    try discriminate.
  intros [= <- _]. unfold remove_duplicates.
  destruct (dedup_inv_fold raw [] ([], ∅) dedup_inv_init) as (Hnd & _).
  exact Hnd.
Qed.

(** ** The extension resolver *)

Section ExtensionFacts.
Context `{PyLib}.

Lemma digits_at_here key d b :
  is_decimal d = true -> is_Some (Re.digits_at key (key ++ d :: b)).
Proof.
  intros Hd. unfold Re.digits_at.
  rewrite startswith_app, drop_app_length. simpl. rewrite Hd. eauto.
Qed.

(** [re.search] finds the pattern wherever the key and a digit occur. *)
Lemma search_digits_found key a d b :
  is_decimal d = true -> is_Some (Re.search_digits key (a ++ key ++ d :: b)).
Proof.
  intros Hd. induction a as [|c a IH].
  - simpl. destruct (digits_at_here key d b Hd) as [ds E].
    destruct (key ++ d :: b); simpl in *; rewrite E; eauto.
  - simpl. destruct (Re.digits_at key (c :: a ++ key ++ d :: b)); eauto.
Qed.

(** C8, as amended: let no original file name supply an extension and
    let the path of the URL carry no extension of at most 10 characters.
    Then (1) a URL that contains [doc=] followed by a digit and no [pdf=]
    followed by a digit resolves to [.doc] when the headers give no
    extension; (2) a content type that the MIME table maps to [.pdf]
    resolves to [.pdf]. *)
Theorem get_file_extension_doc_and_pdf (url : pystr)
    (original_filename : option pystr) :
  ext_of_original original_filename = None ->
  ext_of_url_path url = None ->
  (forall a d b hs,
      url = a ++ lit "doc=" ++ d :: b -> is_decimal d = true ->
      Re.search_digits (lit "pdf=") url = None ->
      ext_of_content_type hs = None ->
      get_file_extension url hs original_filename = lit ".doc")
  /\ (forall hs ct,
        content_type hs = Some ct ->
        guess_extension (str_strip_ws (Str.before 59%N ct))
          = Some (lit ".pdf") ->
        get_file_extension url (Some hs) original_filename = lit ".pdf").
Proof.
  intros Horig Hpath. split.
  - intros a d b hs Hurl Hd Hpdf Hct.
    unfold get_file_extension. rewrite Horig, Hpath, Hct.
    unfold ext_of_pattern. rewrite Hpdf.
    destruct (search_digits_found (lit "doc=") a d b Hd) as [ds E].
    rewrite Hurl, E. reflexivity.
  - intros hs ct Hct Hguess.
    unfold get_file_extension. rewrite Horig, Hpath.
    unfold ext_of_content_type. rewrite Hct, Hguess. reflexivity.
Qed.

End ExtensionFacts.

(** The amended statement at a URL whose path has no extension, without
    and with a PDF content type. *)
Lemma get_file_extension_doc_and_pdf_witness :
  let url := lit "https://moodle.example.org/mod/resource/view?doc=123" in
  let pdf := {| content_disposition := None;
                content_type := Some (lit "application/pdf; charset=binary");
                content_length := None; location := None |} in
  get_file_extension url None None = lit ".doc"
  /\ get_file_extension url (Some pdf) None = lit ".pdf".
Proof.
  intros url pdf.
  destruct (get_file_extension_doc_and_pdf url None) as [Hdoc Hpdf];
    [reflexivity | reflexivity |].
  split.
  - apply (Hdoc (lit "https://moodle.example.org/mod/resource/view?")
             49%N (lit "23") None); reflexivity.
  - apply (Hpdf pdf (lit "application/pdf; charset=binary")); reflexivity.
Defined.

(** C8 fails as stated: the URL below contains [doc=123], no original
    file name and no headers are given, and the resolver answers [.php],
    the extension found in the path of the URL (priority 2), not [.doc]. *)
Lemma get_file_extension_doc_query_php :
  let url := lit "https://moodle.example.org/mod/resource/view.php?doc=123" in
  Str.contains (lit "doc=123") url = true
  /\ get_file_extension url None None = lit ".php"
  /\ get_file_extension url None None <> lit ".doc".
Proof. repeat split; vm_compute; congruence. Qed.

(** ** Reasoning about computations *)

Section Monad.

Lemma guess_free_ret {A} (a : A) : guess_free (ret a).
Proof. intros w. exists []. split; [reflexivity | constructor]. Qed.

Lemma guess_free_raise {A} (e : Exn) : guess_free (@raise A e).
Proof. intros w. exists []. split; [reflexivity | constructor]. Qed.

Lemma guess_free_emit (e : Event) : not_guess e -> guess_free (emit e).
Proof.
  intros He w. exists [e]. split; [reflexivity | repeat constructor; exact He].
Qed.

Lemma guess_free_bind {A B} (c : M A) (k : A -> M B) :
  guess_free c -> (forall a, guess_free (k a)) -> guess_free (bind c k).
Proof.
  intros Hc Hk w. unfold bind.
  destruct (Hc w) as (ad & E & F).
  destruct (c w) as [[a|e|n] w1]; simpl in *; try solve [exists ad; auto].
  destruct (Hk a w1) as (ad2 & E2 & F2).
  exists (ad2 ++ ad). rewrite E2, E, app_assoc. split; [reflexivity|].
  apply Forall_app; auto.
Qed.

Lemma guess_free_try {A} (c : M A) (h : Exn -> M A) :
  guess_free c -> (forall e, guess_free (h e)) -> guess_free (try_except c h).
Proof.
  intros Hc Hh w. unfold try_except.
  destruct (Hc w) as (ad & E & F).
  destruct (c w) as [[a|e|n] w1]; simpl in *; try solve [exists ad; auto].
  destruct (Hh e w1) as (ad2 & E2 & F2).
  exists (ad2 ++ ad). rewrite E2, E, app_assoc. split; [reflexivity|].
  apply Forall_app; auto.
Qed.

Lemma guess_free_for_each {X} (xs : list X) (body : X -> M unit) :
  (forall x, guess_free (body x)) -> guess_free (for_each xs body).
Proof.
  intros Hb. induction xs as [|x xs IH]; simpl.
  - apply guess_free_ret.
  - apply guess_free_bind; [apply Hb | intros _; exact IH].
Qed.

Lemma guess_free_for_return {X R} (xs : list X) (body : X -> M (option R)) :
  (forall x, guess_free (body x)) -> guess_free (for_return xs body).
Proof.
  intros Hb. induction xs as [|x xs IH]; simpl.
  - apply guess_free_ret.
  - apply guess_free_bind; [apply Hb|].
    intros [v|]; [apply guess_free_ret | exact IH].
Qed.

Lemma guess_free_or_else {R} (c : M (option R)) (k : M R) :
  guess_free c -> guess_free k -> guess_free (or_else c k).
Proof.
  intros Hc Hk. unfold or_else. apply guess_free_bind; [exact Hc|].
  intros [v|]; [apply guess_free_ret | exact Hk].
Qed.

(** When the step always returns from the function, what follows it is
    never run and need not be examined. *)
Lemma guess_free_or_else_returns {R} (c : M (option R)) (k : M R) :
  guess_free c -> (forall w, (c w).1 <> Ret None) ->
  guess_free (or_else c k).
Proof.
  intros Hc Hsome w. unfold or_else, bind.
  destruct (Hc w) as (ad & E & F). specialize (Hsome w).
  destruct (c w) as [[[v|]|e|n] w1]; simpl in *;
    try solve [exists ad; auto]; contradiction.
Qed.

Lemma no_raise_ret {A} (a : A) : no_raise (ret a).
Proof. intros w e. discriminate. Qed.

Lemma no_raise_emit (ev : Event) : no_raise (emit ev).
Proof. intros w e. discriminate. Qed.

Lemma no_raise_bind {A B} (c : M A) (k : A -> M B) :
  no_raise c -> (forall a, no_raise (k a)) -> no_raise (bind c k).
Proof.
  intros Hc Hk w e. unfold bind. specialize (Hc w).
  destruct (c w) as [[a|e'|n] w1]; simpl in *.
  - apply Hk.
  - exfalso. exact (Hc e' eq_refl).
  - discriminate.
Qed.

(** A handler that does not raise makes the whole [try] statement safe,
    whatever its body does. *)
Lemma no_raise_try {A} (c : M A) (h : Exn -> M A) :
  (forall e, no_raise (h e)) -> no_raise (try_except c h).
Proof.
  intros Hh w e. unfold try_except.
  destruct (c w) as [[a|e'|n] w1]; simpl; try discriminate.
  apply Hh.
Qed.

Lemma no_raise_for_each {X} (xs : list X) (body : X -> M unit) :
  (forall x, no_raise (body x)) -> no_raise (for_each xs body).
Proof.
  intros Hb. induction xs as [|x xs IH]; simpl.
  - apply no_raise_ret.
  - apply no_raise_bind; [apply Hb | intros _; exact IH].
Qed.

(** A [try] statement whose body does not raise is its body. *)
Lemma try_except_no_raise {A} (c : M A) (h : Exn -> M A) (w : World) :
  (forall e, (c w).1 <> Raise e) -> try_except c h w = c w.
Proof.
  intros Hc. unfold try_except.
  destruct (c w) as [[a|e|n] w1]; simpl in *; try reflexivity.
  exfalso. exact (Hc e eq_refl).
Qed.

End Monad.

Ltac guess_free_prim :=
  let w := fresh "w" in
  intros w; cbv beta delta [request input sys_exit makedirs path_exists
    getsize listdir_len open_write write set_username set_password
    get_username get_password];
  repeat match goal with
         | |- context [match ?x with _ => _ end] => destruct x
         end;
  simpl;
  first [ exists []; split; [reflexivity | constructor]
        | eexists [_]; split; [reflexivity | repeat constructor] ].

Section PrimitiveFacts.
Context `{PyLib} (env : Env) (cfg : Config).

Lemma guess_free_log (m : LogMsg) :
  not_guess (EvLog (verbose cfg) m) -> guess_free (log cfg m).
Proof. apply guess_free_emit. Qed.

Lemma guess_free_request q : guess_free (request env q).
Proof. guess_free_prim. Qed.
Lemma guess_free_input : guess_free (input env).
Proof. guess_free_prim. Qed.
Lemma guess_free_sys_exit {A} n : guess_free (@sys_exit A n).
Proof. guess_free_prim. Qed.
Lemma guess_free_makedirs p : guess_free (makedirs env p).
Proof. guess_free_prim. Qed.
Lemma guess_free_path_exists p : guess_free (path_exists p).
Proof. guess_free_prim. Qed.
Lemma guess_free_getsize p : guess_free (getsize env p).
Proof. guess_free_prim. Qed.
Lemma guess_free_listdir_len p : guess_free (listdir_len p).
Proof. guess_free_prim. Qed.
Lemma guess_free_open_write p : guess_free (open_write env p).
Proof. guess_free_prim. Qed.
Lemma guess_free_write p d : guess_free (write env p d).
Proof. guess_free_prim. Qed.
Lemma guess_free_set_username u : guess_free (set_username u).
Proof. guess_free_prim. Qed.
Lemma guess_free_set_password u : guess_free (set_password u).
Proof. guess_free_prim. Qed.
Lemma guess_free_get_username : guess_free get_username.
Proof. guess_free_prim. Qed.
Lemma guess_free_get_password : guess_free get_password.
Proof. guess_free_prim. Qed.

End PrimitiveFacts.

Create HintDb gf discriminated.

#[export] Hint Resolve guess_free_ret guess_free_raise guess_free_request
  guess_free_input guess_free_sys_exit guess_free_makedirs
  guess_free_path_exists guess_free_getsize guess_free_listdir_len
  guess_free_open_write guess_free_write guess_free_set_username
  guess_free_set_password guess_free_get_username guess_free_get_password
  : gf.

(** One syntax-directed step on a goal [guess_free c]. *)
Ltac gf_step :=
  lazymatch goal with
  | |- guess_free (bind _ _) => apply guess_free_bind; [| intros ?]
  | |- guess_free (try_except _ _) => apply guess_free_try; [| intros ?]
  | |- guess_free (for_each _ _) => apply guess_free_for_each; intros ?
  | |- guess_free (for_return _ _) => apply guess_free_for_return; intros ?
  | |- guess_free (or_else _ _) => apply guess_free_or_else
  | |- guess_free (log _ _) => apply guess_free_log; exact I
  | |- guess_free (if ?b then _ else _) => destruct b
  | |- guess_free (match ?x with _ => _ end) => destruct x
  | |- guess_free _ => solve [auto with gf]
  end.

Ltac gf := repeat gf_step.

Section ProgramFacts.
Context `{PyLib} (env : Env) (cfg : Config).

Lemma guess_free_login : guess_free (login env cfg).
Proof. unfold login. gf. Qed.

Lemma guess_free_int_content_length hs : guess_free (int_content_length hs).
Proof. unfold int_content_length. gf. Qed.

Lemma guess_free_skip_existing hs filename full_path :
  guess_free (skip_existing env cfg hs filename full_path).
Proof.
  pose proof guess_free_int_content_length.
  unfold skip_existing. gf.
Qed.

Lemma guess_free_write_chunks full_path response :
  guess_free (write_chunks env full_path response).
Proof. unfold write_chunks, write_chunk. gf. Qed.

Lemma guess_free_store_response url path filename response :
  guess_free (store_response env cfg url path filename response).
Proof.
  pose proof guess_free_int_content_length.
  pose proof guess_free_skip_existing.
  pose proof guess_free_write_chunks.
  unfold store_response. gf.
Qed.

Lemma guess_free_download_file_rec fuel url path filename :
  guess_free (download_file_rec env cfg fuel url path filename).
Proof.
  pose proof guess_free_login.
  pose proof guess_free_store_response.
  revert url. induction fuel as [|fuel IH]; intros url; simpl; gf.
Qed.

Lemma guess_free_download_file url path filename :
  guess_free (download_file env cfg url path filename).
Proof. apply guess_free_download_file_rec. Qed.

Lemma guess_free_resource_id_of url : guess_free (resource_id_of url).
Proof. unfold resource_id_of. gf. Qed.

Lemma guess_free_try_direct url directory name resource_id :
  guess_free (try_direct env cfg url directory name resource_id).
Proof. pose proof guess_free_download_file. unfold try_direct. gf. Qed.

Lemma guess_free_method1 soup directory name :
  guess_free (method1 env cfg soup directory name).
Proof. pose proof guess_free_download_file. unfold method1. gf. Qed.

Lemma guess_free_method2 soup directory name :
  guess_free (method2 env cfg soup directory name).
Proof. pose proof guess_free_download_file. unfold method2. gf. Qed.

Lemma guess_free_method3 soup directory name :
  guess_free (method3 env cfg soup directory name).
Proof. pose proof guess_free_download_file. unfold method3. gf. Qed.

Lemma guess_free_method4 directory name resource_id :
  guess_free (method4 env cfg directory name resource_id).
Proof. pose proof guess_free_download_file. unfold method4. gf. Qed.

Lemma guess_free_method5 soup directory name :
  guess_free (method5 env cfg soup directory name).
Proof. pose proof guess_free_download_file. unfold method5. gf. Qed.

Lemma guess_free_method6 soup directory name :
  guess_free (method6 env cfg soup directory name).
Proof. pose proof guess_free_download_file. unfold method6. gf. Qed.

Lemma guess_free_save_debug url directory name text :
  guess_free (save_debug env cfg url directory name text).
Proof. unfold save_debug. gf. Qed.

(** Method 7 without a resource id does nothing. *)
Lemma method7_without_id soup text directory name resource_id :
  truthy_opt resource_id = false ->
  method7 env cfg soup text directory name resource_id = ret None.
Proof.
  intros Hid. unfold method7. rewrite Hid, andb_false_r. reflexivity.
Qed.

(** Method 4 with a resource id never falls through: it returns what the
    download returned, be it [None]. *)
Lemma method4_returns directory name resource_id w :
  truthy_opt resource_id = true ->
  (method4 env cfg directory name resource_id w).1 <> Ret None.
Proof.
  intros Hid. unfold method4. rewrite Hid. unfold bind, log, emit.
  destruct (download_file _ _ _ _ _ _) as [[r|e|n] w1]; simpl; discriminate.
Qed.

Lemma guess_free_analyse_page url directory name resource_id :
  guess_free (analyse_page env cfg url directory name resource_id).
Proof.
  unfold analyse_page.
  apply guess_free_bind; [apply guess_free_request | intros response].
  apply guess_free_bind; [apply guess_free_log; exact I | intros _].
  apply guess_free_or_else; [apply guess_free_method1|].
  apply guess_free_or_else; [apply guess_free_method2|].
  apply guess_free_or_else; [apply guess_free_method3|].
  destruct (truthy_opt resource_id) eqn:Hid.
  - apply guess_free_or_else_returns; [apply guess_free_method4|].
    intros w. apply method4_returns, Hid.
  - apply guess_free_or_else; [apply guess_free_method4|].
    apply guess_free_or_else; [apply guess_free_method5|].
    apply guess_free_or_else; [apply guess_free_method6|].
    rewrite method7_without_id by exact Hid.
    apply guess_free_or_else; [apply guess_free_ret|].
    apply guess_free_save_debug.
Qed.

(** C10: whatever the portal answers and whatever the state, processing
    a resource page only adds events to the trace and none of them is the
    announcement of a pattern guess, the first statement of the loop of
    Method 7: that loop is never entered. *)
Theorem pattern_guess_unreachable url directory name w :
  exists added,
    trace (_process_resource_page env cfg url directory name w).2
      = added ++ trace w
    /\ Forall not_guess added.
Proof.
  revert w. change (guess_free (_process_resource_page env cfg url directory name)).
  pose proof guess_free_resource_id_of.
  pose proof guess_free_try_direct.
  pose proof guess_free_analyse_page.
  unfold _process_resource_page. gf.
Qed.

End ProgramFacts.

(** ** Errors at the boundary of a link *)

Section Boundaries.
Context `{PyLib} (env : Env) (cfg : Config).

Lemma no_raise_log m : no_raise (log cfg m).
Proof. apply no_raise_emit. Qed.

Lemma no_raise_download_file_rec fuel url path filename :
  no_raise (download_file_rec env cfg fuel url path filename).
Proof.
  destruct fuel; simpl; apply no_raise_try; intros e;
    (apply no_raise_bind; [apply no_raise_log | intros _; apply no_raise_ret]).
Qed.

Lemma no_raise_download_file url path filename :
  no_raise (download_file env cfg url path filename).
Proof. apply no_raise_download_file_rec. Qed.

Lemma no_raise_process_resource_page url directory name :
  no_raise (_process_resource_page env cfg url directory name).
Proof.
  unfold _process_resource_page. apply no_raise_try. intros e.
  apply no_raise_bind; [apply no_raise_log | intros _].
  apply no_raise_bind; [apply no_raise_log | intros _; apply no_raise_ret].
Qed.

Lemma guarded_pass_eq select body msg links w :
  for_each (List.filter select links)
    (fun link => try_except (body link) (fun e => log cfg (msg link e))) w
  = guarded_pass cfg select body msg links w.
Proof.
  revert w. induction links as [|link rest IH]; intros w; [reflexivity|].
  cbn [List.filter guarded_pass]. destruct (select link); [|apply IH].
  cbn [for_each]. unfold bind, try_except, link_then_rest.
  destruct (body link w) as [[[]|e|n] w'].
  - apply IH.
  - change (log cfg (msg link e) w')
      with (Ret tt, logged cfg (msg link e) w').
    apply IH.
  - reflexivity.
Qed.

Lemma no_raise_guarded_pass select body msg links :
  no_raise (guarded_pass cfg select body msg links).
Proof.
  induction links as [|link rest IH]; intros w e; [discriminate|].
  cbn [guarded_pass]. destruct (select link); [|apply IH].
  unfold link_then_rest.
  destruct (body link w) as [[[]|e'|n] w'].
  - apply IH.
  - apply IH.
  - discriminate.
Qed.


End Boundaries.

(** ** The file system *)

Lemma entry_raw (m : gmap pystr Node) p n :
  m !! p = Some n -> entry m p = Some n.
Proof. intros E. unfold entry. rewrite E. reflexivity. Qed.

Lemma entry_none_raw (m : gmap pystr Node) p :
  entry m p = None -> m !! p = None.
Proof.
  unfold entry. destruct (m !! p); [discriminate | reflexivity].
Qed.

Lemma startswith_one (a c : char) (s : pystr) :
  Str.startswith (c :: s) [a] = N.eqb a c.
Proof. simpl. destruct s; apply andb_true_r. Qed.

Lemma endswith_snoc (s : pystr) (x c : char) :
  Str.endswith (s ++ [x]) [c] = N.eqb c x.
Proof.
  unfold Str.endswith. rewrite rev_app_distr. simpl rev.
  apply startswith_one.
Qed.

Lemma length_dropwhile (f : char -> bool) (s : pystr) :
  length (Str.dropwhile f s) <= length s.
Proof.
  induction s as [|c s IH]; simpl; [lia|]. destruct (f c); simpl; lia.
Qed.

Lemma length_rstrip (s chars : pystr) :
  length (Str.rstrip s chars) <= length s.
Proof.
  unfold Str.rstrip. rewrite length_rev.
  etransitivity; [apply length_dropwhile|]. rewrite length_rev. lia.
Qed.

Lemma upto_after_last (sep : char) (s : pystr) :
  Str.upto_last sep s ++ Str.after_last sep s = s.
Proof.
  induction s as [|c s IH]; [reflexivity|]. simpl.
  destruct (Str.mem sep s).
  - simpl. rewrite IH. reflexivity.
  - destruct (N.eqb c sep); reflexivity.
Qed.

Lemma length_dirname (p : pystr) :
  length (OsPath.dirname p) + length (OsPath.basename p) <= length p.
Proof.
  unfold OsPath.dirname, OsPath.basename.
  pose proof (upto_after_last ch_slash p) as E.
  apply (f_equal (@length _)) in E. rewrite length_app in E.
  destruct (forallb _ _); [lia|].
  pose proof (length_rstrip (Str.upto_last ch_slash p) [ch_slash]). lia.
Qed.

Lemma dirname_shorter (p : pystr) :
  truthy (OsPath.basename p) = true ->
  length (OsPath.dirname p) < length p.
Proof.
  intros Ht. pose proof (length_dirname p).
  destruct (OsPath.basename p); [discriminate | simpl in *; lia].
Qed.

Lemma is_root_endswith (p : pystr) :
  is_root p = true -> Str.endswith p [ch_slash] = true.
Proof.
  unfold is_root. intros Hr. apply andb_true_iff in Hr as [Ht Hall].
  destruct p as [|c p] using rev_ind; [discriminate|].
  rewrite endswith_snoc. rewrite forallb_app in Hall.
  apply andb_true_iff in Hall as [_ Hx]. simpl in Hx.
  rewrite andb_true_r in Hx. exact Hx.
Qed.

(** [entry] on a path that is a plain name: the lookup. *)
Lemma entry_plain (m : gmap pystr Node) (p : pystr) :
  Str.endswith p [ch_slash] = false -> entry m p = m !! p.
Proof.
  intros He. unfold entry. destruct (m !! p); [reflexivity|].
  destruct (is_root p) eqn:Er.
  - apply is_root_endswith in Er. congruence.
  - rewrite He. reflexivity.
Qed.

Lemma only_dirs_added_refl m : only_dirs_added m m.
Proof. split; auto. Qed.

Lemma only_dirs_added_trans m1 m2 m3 :
  only_dirs_added m1 m2 -> only_dirs_added m2 m3 -> only_dirs_added m1 m3.
Proof.
  intros [A1 B1] [A2 B2]. split.
  - auto.
  - intros k Hk. destruct (B1 k Hk) as [E|E]; [auto|].
    right. apply A2, E.
Qed.

Lemma only_dirs_added_insert (m : gmap pystr Node) k :
  m !! k = None -> only_dirs_added m (<[k := Dir]> m).
Proof.
  intros Hk. split.
  - intros k' n E. destruct (decide (k = k')) as [<-|Hne]; [congruence|].
    rewrite lookup_insert_ne by exact Hne. exact E.
  - intros k' E. destruct (decide (k = k')) as [<-|Hne].
    + right. apply lookup_insert_eq.
    + left. rewrite lookup_insert_ne by exact Hne. exact E.
Qed.

Lemma mkdir_made (m m' : gmap pystr Node) p :
  mkdir m p = Some m' ->
  m !! Str.rstrip p [ch_slash] = None
  /\ m' = <[Str.rstrip p [ch_slash] := Dir]> m.
Proof.
  unfold mkdir. destruct (entry m p); [discriminate|].
  destruct (m !! Str.rstrip p [ch_slash]) eqn:E; [discriminate|].
  destruct (Str.rstrip p [ch_slash]) eqn:Ek; [discriminate|].
  destruct (parent_ok m _); [|discriminate].
  intros [= <-]. split; [reflexivity | reflexivity].
Qed.

Lemma makedirs_in_S fuel refused m name :
  makedirs_in (S fuel) refused m name =
  let leaf := if truthy (OsPath.basename name) then name
              else OsPath.dirname name in
  let make := fun m' : gmap pystr Node =>
    match (if refused then None else mkdir m' name) with
    | Some m'' => (true, m'')
    | None => (isdir m' name, m')
    end in
  if truthy (OsPath.dirname leaf) && truthy (OsPath.basename leaf)
     && negb (exists_at m (OsPath.dirname leaf))
  then
    let '(ok, m') := makedirs_in fuel refused m (OsPath.dirname leaf) in
    if negb ok then (false, m')
    else if Str.eqb (OsPath.basename leaf) [ch_dot] then (true, m')
    else make m'
  else make m.
Proof. reflexivity. Qed.

Lemma leaf_length (name : pystr) :
  length (if truthy (OsPath.basename name) then name
          else OsPath.dirname name) <= length name.
Proof.
  destruct (truthy _); [lia|]. pose proof (length_dirname name). lia.
Qed.

(** What [os.makedirs] leaves: the old entries, and new directories at
    paths no longer than the one asked for. *)
Lemma makedirs_in_grows fuel refused m name ok m' :
  makedirs_in fuel refused m name = (ok, m') ->
  only_dirs_added m m'
  /\ (forall k : pystr, m !! k = None -> m' !! k <> None ->
                length k <= length name).
Proof.
  revert m name ok m'. induction fuel as [|fuel IH]; intros m name ok m'.
  { intros [= <- <-]. split; [apply only_dirs_added_refl | congruence]. }
  assert (Hmake : forall m0 ok0 m1,
    match (if refused then None else mkdir m0 name) with
    | Some m'' => (true, m'')
    | None => (isdir m0 name, m0)
    end = (ok0, m1) ->
    only_dirs_added m0 m1
    /\ (forall k : pystr, m0 !! k = None -> m1 !! k <> None ->
                  length k <= length name)).
  { intros m0 ok0 m1.
    destruct (if refused then None else mkdir m0 name) as [m2|] eqn:E.
    - intros [= <- <-]. destruct refused; [discriminate|].
      apply mkdir_made in E as [Hfree ->]. split.
      + apply only_dirs_added_insert, Hfree.
      + intros k Hk Hk'. destruct (decide (Str.rstrip name [ch_slash] = k))
          as [<-|Hne]; [apply length_rstrip|].
        rewrite lookup_insert_ne in Hk' by exact Hne. congruence.
    - intros [= <- <-]. split; [apply only_dirs_added_refl | congruence]. }
  rewrite makedirs_in_S. cbv zeta.
  set (leaf := if truthy (OsPath.basename name) then name
               else OsPath.dirname name).
  assert (Hleaf : length leaf <= length name) by apply leaf_length.
  destruct (truthy (OsPath.dirname leaf) && truthy (OsPath.basename leaf)
            && negb (exists_at m (OsPath.dirname leaf))) eqn:Eg;
    [|apply Hmake].
  destruct (makedirs_in fuel refused m (OsPath.dirname leaf)) as [ok1 m1]
    eqn:Erec.
  apply IH in Erec as [Hg Hlen].
  assert (Hhead : length (OsPath.dirname leaf) <= length name).
  { pose proof (length_dirname leaf). lia. }
  assert (Hlen' : forall k : pystr, m !! k = None -> m1 !! k <> None ->
                            length k <= length name).
  { intros k Hk Hk'. specialize (Hlen k Hk Hk'). lia. }
  destruct ok1; cbn [negb].
  - destruct (Str.eqb _ _).
    + intros [= <- <-]. split; assumption.
    + intros Hm. apply Hmake in Hm as [Hg2 Hlen2]. split.
      * eapply only_dirs_added_trans; eassumption.
      * intros k Hk Hk'. destruct (m1 !! k) eqn:E1.
        -- apply Hlen'; [exact Hk | congruence].
        -- apply Hlen2; assumption.
  - intros [= <- <-]. split; assumption.
Qed.

Lemma above_trans p q x : above p q -> above q x -> above p x.
Proof.
  intros Hpq Hqx. induction Hqx as [|y _ IH]; [exact Hpq|].
  apply above_dir, IH.
Qed.

(** The new entries that [os.makedirs] leaves are at the path asked for
    or at a directory above it, written without a trailing separator. *)
Lemma makedirs_in_above fuel refused m name ok m' :
  makedirs_in fuel refused m name = (ok, m') ->
  forall k : pystr, m !! k = None -> m' !! k <> None ->
    exists x, above name x /\ k = Str.rstrip x [ch_slash].
Proof.
  revert m name ok m'. induction fuel as [|fuel IH]; intros m name ok m'.
  { intros [= <- <-]. congruence. }
  assert (Hmake : forall m0 ok0 m1,
    match (if refused then None else mkdir m0 name) with
    | Some m'' => (true, m'')
    | None => (isdir m0 name, m0)
    end = (ok0, m1) ->
    forall k : pystr, m0 !! k = None -> m1 !! k <> None ->
      exists x, above name x /\ k = Str.rstrip x [ch_slash]).
  { intros m0 ok0 m1.
    destruct (if refused then None else mkdir m0 name) as [m2|] eqn:E.
    - intros [= <- <-]. destruct refused; [discriminate|].
      apply mkdir_made in E as [Hfree ->].
      intros k Hk Hk'. destruct (decide (Str.rstrip name [ch_slash] = k))
        as [<-|Hne]; [exists name; split; [apply above_self | reflexivity]|].
      rewrite lookup_insert_ne in Hk' by exact Hne. congruence.
    - intros [= <- <-]. congruence. }
  rewrite makedirs_in_S. cbv zeta.
  set (leaf := if truthy (OsPath.basename name) then name
               else OsPath.dirname name).
  assert (Hleaf : above name leaf).
  { unfold leaf. destruct (truthy (OsPath.basename name));
      [apply above_self | apply above_dir, above_self]. }
  destruct (truthy (OsPath.dirname leaf) && truthy (OsPath.basename leaf)
            && negb (exists_at m (OsPath.dirname leaf))) eqn:Eg;
    [|apply Hmake].
  destruct (makedirs_in fuel refused m (OsPath.dirname leaf)) as [ok1 m1]
    eqn:Erec.
  pose proof (IH _ _ _ _ Erec) as Hrec.
  assert (Hrec' : forall k : pystr, m !! k = None -> m1 !! k <> None ->
                    exists x, above name x /\ k = Str.rstrip x [ch_slash]).
  { intros k Hk Hk'. destruct (Hrec k Hk Hk') as (x & Hx & ->).
    exists x. split; [|reflexivity].
    eapply above_trans; [apply above_dir, Hleaf | exact Hx]. }
  destruct ok1; cbn [negb].
  - destruct (Str.eqb _ _).
    + intros [= <- <-]. exact Hrec'.
    + intros Hm k Hk Hk'. destruct (m1 !! k) eqn:E1.
      * apply Hrec'; [exact Hk | congruence].
      * eapply Hmake; eassumption.
  - intros [= <- <-]. exact Hrec'.
Qed.

(** The nesting of [os.makedirs] never exceeds the length of the path:
    more fuel changes nothing. *)
Lemma makedirs_in_fuel refused (name : pystr) fuel fuel' m :
  length name < fuel -> length name < fuel' ->
  makedirs_in fuel refused m name = makedirs_in fuel' refused m name.
Proof.
  remember (length name) as n eqn:En.
  assert (Hn : length name <= n) by lia. clear En.
  intros Hf Hf'. revert name fuel fuel' m Hn Hf Hf'.
  induction n as [|n IH]; intros name [|fuel] [|fuel'] m Hn Hf Hf'; try lia;
    rewrite !makedirs_in_S; cbv zeta;
    set (leaf := if truthy (OsPath.basename name) then name
                 else OsPath.dirname name);
    assert (Hleaf : length leaf <= length name) by apply leaf_length;
    (destruct (truthy (OsPath.dirname leaf) && truthy (OsPath.basename leaf)
               && negb (exists_at m (OsPath.dirname leaf))) eqn:Eg;
     [|reflexivity]);
    apply andb_true_iff in Eg as [Eg _];
    apply andb_true_iff in Eg as [_ Et];
    pose proof (dirname_shorter leaf Et) as Hs.
  - lia.
  - rewrite (IH (OsPath.dirname leaf) fuel fuel' m) by lia. reflexivity.
Qed.

Lemma upto_last_snoc (sep : char) (q : pystr) :
  Str.upto_last sep (q ++ [sep]) = q ++ [sep].
Proof.
  induction q as [|c q IH]; simpl.
  - rewrite N.eqb_refl. reflexivity.
  - assert (Hm : Str.mem sep (q ++ [sep]) = true).
    { unfold Str.mem. rewrite existsb_app. simpl. rewrite N.eqb_refl.
      apply orb_true_iff. right. reflexivity. }
    rewrite Hm, IH. reflexivity.
Qed.

Lemma endswith_inv (s : pystr) (c : char) :
  Str.endswith s [c] = true -> exists q, s = q ++ [c].
Proof.
  destruct s as [|x s _] using rev_ind; [discriminate|].
  rewrite endswith_snoc. intros E. apply N.eqb_eq in E as ->. eauto.
Qed.

Lemma rstrip_no_trailing (s : pystr) (c : char) :
  Str.endswith (Str.rstrip s [c]) [c] = false.
Proof.
  unfold Str.rstrip, Str.endswith. rewrite rev_involutive.
  change (rev [c]) with [c].
  destruct (Str.dropwhile _ (rev s)) as [|x t] eqn:E; [reflexivity|].
  rewrite startswith_one.
  assert (Hx : Str.mem x [c] = false).
  { apply (dropwhile_head (fun c0 => Str.mem c0 [c]) (rev s)).
    rewrite E. reflexivity. }
  simpl in Hx. rewrite orb_false_r in Hx. rewrite N.eqb_sym. exact Hx.
Qed.

(** Nothing at the path and a directory to hold it: the path is a plain
    name. *)
Lemma free_path_plain (m : gmap pystr Node) (p : pystr) :
  entry m p = None -> isdir m (OsPath.dirname p) = true ->
  truthy p = true /\ Str.endswith p [ch_slash] = false.
Proof.
  intros Hnone Hdir.
  assert (Hraw : m !! p = None) by apply entry_none_raw, Hnone.
  assert (Hroot : is_root p = false).
  { destruct (is_root p) eqn:E; [|reflexivity].
    unfold entry in Hnone. rewrite Hraw, E in Hnone. discriminate. }
  assert (Hp : truthy p = true).
  { destruct p; [|reflexivity]. unfold isdir in Hdir.
    change (OsPath.dirname []) with (@nil char) in Hdir.
    rewrite Hnone in Hdir. discriminate. }
  split; [exact Hp|].
  destruct (Str.endswith p [ch_slash]) eqn:E; [|reflexivity]. exfalso.
  destruct (endswith_inv _ _ E) as [q ->].
  assert (Hall : forallb (N.eqb ch_slash) (q ++ [ch_slash]) = false).
  { unfold is_root in Hroot. rewrite Hp in Hroot. exact Hroot. }
  unfold OsPath.dirname in Hdir. rewrite upto_last_snoc, Hall in Hdir.
  unfold isdir in Hdir.
  rewrite (entry_plain m _ (rstrip_no_trailing _ _)) in Hdir.
  unfold entry in Hnone. rewrite Hraw, Hroot, E in Hnone.
  destruct (m !! Str.rstrip (q ++ [ch_slash]) [ch_slash]) as [[d|]|];
    discriminate.
Qed.

Lemma entry_file_raw (m : gmap pystr Node) p d :
  entry m p = Some (File d) -> m !! p = Some (File d).
Proof.
  unfold entry. destruct (m !! p) as [n|]; [intros [= ->]; reflexivity|].
  destruct (is_root p); [discriminate|].
  destruct (Str.endswith p [ch_slash]); [|discriminate].
  destruct (m !! Str.rstrip p [ch_slash]) as [[d'|]|]; discriminate.
Qed.

Lemma free_path_can_open (m : gmap pystr Node) (p : pystr) :
  entry m p = None -> isdir m (OsPath.dirname p) = true ->
  can_open m p = true.
Proof.
  intros Hnone Hdir.
  destruct (free_path_plain m p Hnone Hdir) as [Hp Hend].
  unfold can_open. rewrite (entry_none_raw _ _ Hnone), Hp, Hend.
  cbn [negb andb].
  unfold parent_ok. destruct (OsPath.dirname p); [reflexivity | exact Hdir].
Qed.

(** A directory to hold the file and no directory in its place: the file
    can be opened. *)
Lemma can_open_if (m : gmap pystr Node) (p : pystr) :
  isdir m (OsPath.dirname p) = true -> isdir m p = false ->
  can_open m p = true.
Proof.
  intros Hdir Hnd. destruct (entry m p) as [[d|]|] eqn:E.
  - unfold can_open. rewrite (entry_file_raw _ _ _ E). reflexivity.
  - unfold isdir in Hnd. rewrite E in Hnd. discriminate.
  - apply free_path_can_open; assumption.
Qed.

Lemma upto_last_shape (sep : char) (s : pystr) :
  (Str.mem sep s = true -> exists q, Str.upto_last sep s = q ++ [sep])
  /\ (Str.mem sep s = false -> Str.upto_last sep s = []).
Proof.
  induction s as [|c s [IHt IHf]]; [split; [discriminate | reflexivity]|].
  change (Str.mem sep (c :: s)) with ((sep =? c)%N || Str.mem sep s).
  cbn [Str.upto_last].
  destruct (Str.mem sep s).
  - destruct (IHt eq_refl) as [q ->]. split.
    + intros _. exists (c :: q). reflexivity.
    + rewrite orb_true_r. discriminate.
  - rewrite orb_false_r, (N.eqb_sym sep c).
    destruct (N.eqb_spec c sep) as [->|]; split; try discriminate.
    + intros _. exists []. reflexivity.
    + reflexivity.
Qed.

(** A plain name is longer than its directory. *)
Lemma plain_path_shorter (p : pystr) :
  truthy p = true -> Str.endswith p [ch_slash] = false ->
  length (OsPath.dirname p) < length p.
Proof.
  intros Hp Hend. apply dirname_shorter. unfold OsPath.basename.
  destruct (Str.after_last ch_slash p) eqn:Ea; [|reflexivity]. exfalso.
  pose proof (upto_after_last ch_slash p) as E.
  rewrite Ea, app_nil_r in E.
  destruct (upto_last_shape ch_slash p) as [Ht Hf].
  destruct (Str.mem ch_slash p).
  - destruct (Ht eq_refl) as [q Eq]. rewrite Eq in E. subst p.
    rewrite endswith_snoc, N.eqb_refl in Hend. discriminate.
  - rewrite (Hf eq_refl) in E. subst p. discriminate.
Qed.

(** A file stored at a longer path leaves a directory where it is. *)
Lemma isdir_insert_file (m : gmap pystr Node) (d p : pystr) body :
  isdir m d = true -> length d < length p ->
  isdir (<[p := File body]> m) d = true.
Proof.
  unfold isdir, entry. intros Hd Hlen.
  assert (Hne : p <> d) by (intros ->; lia).
  assert (Hne' : p <> Str.rstrip d [ch_slash]).
  { intros ->. pose proof (length_rstrip d [ch_slash]). lia. }
  rewrite !lookup_insert_ne by assumption. exact Hd.
Qed.

(** A safe segment holds no slash. *)
Lemma safe_segment_no_slash name :
  safe_segment name -> Str.mem ch_slash name = false.
Proof.
  intros [Hclean _]. induction Hclean as [|c name Hc _ IH]; [reflexivity|].
  change (Str.mem ch_slash (c :: name))
    with ((ch_slash =? c)%N || Str.mem ch_slash name).
  rewrite IH, orb_false_r.
  destruct (N.eqb_spec ch_slash c) as [<-|]; [|reflexivity].
  vm_compute in Hc. discriminate.
Qed.

Lemma mem_app (c : char) (a b : pystr) :
  Str.mem c (a ++ b) = Str.mem c a || Str.mem c b.
Proof. unfold Str.mem. apply existsb_app. Qed.

Lemma safe_segment_start name :
  safe_segment name -> Str.startswith name [ch_slash] = false.
Proof.
  intros Hs. pose proof (safe_segment_no_slash name Hs) as Hm.
  destruct name as [|c name]; [reflexivity|].
  change (Str.mem ch_slash (c :: name))
    with ((ch_slash =? c)%N || Str.mem ch_slash name) in Hm.
  apply orb_false_iff in Hm as [Hc _].
  rewrite startswith_one. exact Hc.
Qed.

(** Joining a safe segment appends it, after a slash when one is
    needed. *)
Lemma join_safe_suffix d name :
  safe_segment name -> exists pre, OsPath.join d name = pre ++ name
    /\ (pre = [] \/ Str.endswith pre [ch_slash] = true).
Proof.
  intros Hs. unfold OsPath.join. rewrite (safe_segment_start _ Hs).
  destruct d as [|a d]; [exists []; auto|].
  destruct (Str.endswith (a :: d) [ch_slash]) eqn:E.
  - exists (a :: d). auto.
  - exists ((a :: d) ++ [ch_slash]). split.
    + rewrite <- app_assoc. reflexivity.
    + right. rewrite endswith_snoc. apply N.eqb_refl.
Qed.

Lemma after_last_absent (sep : char) (s : pystr) :
  Str.mem sep s = false -> Str.after_last sep s = s.
Proof.
  destruct s as [|c s]; [reflexivity|]. intros Hm.
  change (Str.mem sep (c :: s)) with ((sep =? c)%N || Str.mem sep s) in Hm.
  apply orb_false_iff in Hm as [Hc Hs].
  simpl. rewrite Hs. rewrite N.eqb_sym, Hc. reflexivity.
Qed.

Lemma after_last_app (sep : char) (a b : pystr) :
  Str.mem sep b = false -> Str.after_last sep (a ++ sep :: b) = b.
Proof.
  intros Hb. induction a as [|c a IH].
  - simpl. rewrite Hb, N.eqb_refl. reflexivity.
  - change ((c :: a) ++ sep :: b) with (c :: (a ++ sep :: b)).
    cbn [Str.after_last].
    assert (Hm : Str.mem sep (a ++ sep :: b) = true).
    { rewrite mem_app.
      change (Str.mem sep (sep :: b)) with ((sep =? sep)%N || Str.mem sep b).
      rewrite N.eqb_refl. apply orb_true_r. }
    rewrite Hm. exact IH.
Qed.

Lemma basename_join (path name : pystr) :
  safe_segment name -> OsPath.basename (OsPath.join path name) = name.
Proof.
  intros Hs. pose proof (safe_segment_no_slash name Hs) as Hno.
  destruct (join_safe_suffix path name Hs) as (pre & -> & [-> | He]).
  - apply after_last_absent, Hno.
  - destruct (endswith_inv _ _ He) as [q ->].
    rewrite <- app_assoc. apply after_last_app, Hno.
Qed.

(** The path of a safe name that is not empty: a plain name, longer than
    its directory. *)
Lemma joined_path_plain (path name : pystr) :
  safe_segment name -> name <> [] ->
  let fp := OsPath.join path name in
  Str.endswith fp [ch_slash] = false
  /\ length (OsPath.dirname fp) < length fp.
Proof.
  intros Hs Hne fp. split.
  - destruct (join_safe_suffix path name Hs) as (pre & E & _).
    subst fp. rewrite E.
    pose proof (safe_segment_no_slash name Hs) as Hno.
    destruct name as [|c name _] using rev_ind; [contradiction|].
    rewrite app_assoc, endswith_snoc.
    rewrite mem_app in Hno. apply orb_false_iff in Hno as [_ Hc].
    simpl in Hc. rewrite orb_false_r in Hc. exact Hc.
  - apply dirname_shorter. subst fp. rewrite (basename_join _ _ Hs).
    destruct name; [contradiction | reflexivity].
Qed.

Lemma sanitize_filename_safe (f : pystr) : safe_segment (sanitize_filename f).
Proof.
  split; [apply sanitize_filename_no_illegal|].
  intros Hh. apply sanitize_filename_head in Hh. tauto.
Qed.

(** ** One run of [download_file] *)

Section DownloadFacts.
Context `{PyLib} (env : Env) (cfg : Config).

Lemma request_ok q r w :
  transport env (clock w) q = Some r ->
  request env q w = (Ret r, interact (EvRequest q) w).
Proof. intros E. unfold request. rewrite E. reflexivity. Qed.

Lemma download_file_rec_unfold fuel url path filename :
  download_file_rec env cfg (S fuel) url path filename =
  let url := absolute cfg url in
  try_except
    (bind (request env (HEAD url)) (fun head_response =>
       if session_expired head_response url then
         bind (log cfg SessionExpired) (fun _ =>
         bind (login env cfg) (fun _ =>
         download_file_rec env cfg fuel url path filename))
       else
         bind (request env (GET url true true)) (fun response =>
         store_response env cfg url path filename response)))
    (fun e => bind (log cfg (ErrorDownloading url e)) (fun _ => ret None)).
Proof. reflexivity. Qed.

(** With a live session the function probes, asks for the stream and
    stores the response. *)
Lemma download_file_rec_live fuel url path filename w hr resp :
  let url' := absolute cfg url in
  transport env (clock w) (HEAD url') = Some hr ->
  session_expired hr url' = false ->
  transport env (S (clock w)) (GET url' true true) = Some resp ->
  download_file_rec env cfg (S fuel) url path filename w =
  try_except (store_response env cfg url' path filename resp) (on_error cfg url')
    (interact (EvRequest (GET url' true true))
       (interact (EvRequest (HEAD url')) w)).
Proof.
  intros url' Hhead Hexp Hget.
  rewrite download_file_rec_unfold. fold url'. cbv zeta.
  unfold try_except at 1, bind at 1.
  rewrite (request_ok _ _ _ Hhead), Hexp.
  unfold bind at 1. rewrite (request_ok _ resp); [|exact Hget].
  reflexivity.
Qed.

Lemma int_content_length_eq hs w :
  int_content_length hs w =
  match expected_size_of hs with
  | Some n => (Ret n, w)
  | None => (Raise ValueError, w)
  end.
Proof.
  unfold int_content_length, expected_size_of.
  destruct (content_length hs) as [s|]; [|reflexivity].
  destruct (py_int s); reflexivity.
Qed.

Lemma log_eq m w : log cfg m w = (Ret tt, logged cfg m w).
Proof. reflexivity. Qed.

Lemma can_open_file (m : gmap pystr Node) p d :
  m !! p = Some (File d) -> can_open m p = true.
Proof. intros E. unfold can_open. rewrite E. reflexivity. Qed.

Lemma open_write_ok p w :
  can_open (fs w) p = true -> os_refuses env (clock w) = false ->
  open_write env p w
  = (Ret tt, set_fs (<[p := File []]> (fs w)) (interact (EvOpen p) w)).
Proof. intros Hc Hos. unfold open_write. rewrite Hc, Hos. reflexivity. Qed.

Lemma isdir_raw (m : gmap pystr Node) p :
  m !! p = Some Dir -> isdir m p = true.
Proof. intros E. unfold isdir. rewrite (entry_raw _ _ _ E). reflexivity. Qed.

Lemma makedirs_existing p w :
  isdir (fs w) p = true -> makedirs env p w = (Ret tt, w).
Proof.
  unfold makedirs, isdir. intros E.
  destruct (entry (fs w) p) as [[d|]|]; try discriminate. reflexivity.
Qed.

(** Lines 344-358 on an existing, non-empty file whose size is within
    the tolerance of the announced size, or whose announced size is 0. *)
Lemma skip_existing_keeps hs filename full_path w d n :
  force_download cfg = false ->
  fs w !! full_path = Some (File d) -> d <> [] ->
  expected_size_of hs = Some n ->
  (n = 0 \/ Z.abs (Z.of_nat (length d) - n) < 100)%Z ->
  skip_existing env cfg hs filename full_path w =
  (Ret (Some (Some full_path)),
   logged cfg (SkippingExisting filename (Z.of_nat (length d))) w).
Proof.
  intros Hforce Hfile Hd Hn Htol.
  assert (Hpos : (0 <? Z.of_nat (length d))%Z = true).
  { apply Z.ltb_lt. destruct d; [contradiction | simpl; lia]. }
  apply entry_raw in Hfile.
  unfold skip_existing. rewrite Hforce.
  cbv beta iota delta [bind path_exists getsize exists_at].
  repeat (first [ rewrite Hfile | rewrite Hpos
                | rewrite int_content_length_eq, Hn ]; cbn [negb]).
  assert (Hc : ((n =? 0)%Z
                || (Z.abs (Z.of_nat (length d) - n) <? 100)%Z) = true).
  { apply orb_true_iff. destruct Htol as [-> | Hlt];
      [left; reflexivity | right; apply Z.ltb_lt, Hlt]. }
  rewrite Hc. reflexivity.
Qed.

(** The same lines when the sizes differ by 100 or more. *)
Lemma skip_existing_differs hs filename full_path w d n :
  force_download cfg = false ->
  fs w !! full_path = Some (File d) -> d <> [] ->
  expected_size_of hs = Some n ->
  (n <> 0 /\ 100 <= Z.abs (Z.of_nat (length d) - n))%Z ->
  skip_existing env cfg hs filename full_path w =
  (Ret None, logged cfg (SizeDiffers filename) w).
Proof.
  intros Hforce Hfile Hd Hn [Hn0 Hdiff].
  assert (Hpos : (0 <? Z.of_nat (length d))%Z = true).
  { apply Z.ltb_lt. destruct d; [contradiction | simpl; lia]. }
  apply entry_raw in Hfile.
  unfold skip_existing. rewrite Hforce.
  cbv beta iota delta [bind path_exists getsize exists_at].
  repeat (first [ rewrite Hfile | rewrite Hpos
                | rewrite int_content_length_eq, Hn ]; cbn [negb]).
  assert (Hc : ((n =? 0)%Z
                || (Z.abs (Z.of_nat (length d) - n) <? 100)%Z) = false).
  { apply orb_false_iff. split; [apply Z.eqb_neq, Hn0 | apply Z.ltb_ge, Hdiff]. }
  rewrite Hc. reflexivity.
Qed.

(** The same lines when nothing exists at the path. *)
Lemma skip_existing_absent hs filename full_path w :
  entry (fs w) full_path = None ->
  skip_existing env cfg hs filename full_path w = (Ret None, w).
Proof.
  intros Hnone. unfold skip_existing.
  destruct (force_download cfg); [reflexivity|].
  unfold bind at 1, path_exists, exists_at. rewrite Hnone. reflexivity.
Qed.

End DownloadFacts.

Section StoreFacts.
Context `{PyLib} (env : Env) (cfg : Config).

Lemma same_files_refl m : same_files m m.
Proof. intros p d. reflexivity. Qed.

Lemma same_files_grown (m m' : gmap pystr Node) :
  only_dirs_added m m' -> same_files m m'.
Proof.
  intros [Hold Hnew] p d. split.
  - intros E. destruct (m !! p) as [n|] eqn:Em.
    + rewrite (Hold _ _ Em) in E. exact E.
    + destruct (Hnew p Em) as [E'|E']; congruence.
  - apply Hold.
Qed.

(** [makedirs] keeps what is there and adds directories only, at paths
    no longer than its argument; it issues no request, and does nothing
    when the directory exists. *)
Lemma makedirs_cases p w :
  exists r w',
    makedirs env p w = (r, w')
    /\ (r = Ret tt \/ exists e, r = Raise e)
    /\ requests_of (trace w') = requests_of (trace w)
    /\ only_dirs_added (fs w) (fs w')
    /\ (forall k : pystr, fs w !! k = None -> fs w' !! k <> None ->
                  length k <= length p)
    /\ (isdir (fs w) p = true -> r = Ret tt /\ w' = w).
Proof.
  unfold makedirs, isdir.
  assert (Hdone : exists r w',
    (Ret tt, w) = (r, w')
    /\ (r = Ret tt \/ exists e, r = Raise e)
    /\ requests_of (trace w') = requests_of (trace w)
    /\ only_dirs_added (fs w) (fs w')
    /\ (forall k : pystr, fs w !! k = None -> fs w' !! k <> None ->
                  length k <= length p)
    /\ (true = true -> r = Ret tt /\ w' = w)).
  { eexists _, _. split; [reflexivity|].
    repeat split; auto using only_dirs_added_refl. congruence. }
  assert (Hmake : exists r w',
    (let '(ok, m) :=
       makedirs_in (S (length p)) (os_refuses env (clock w)) (fs w) p in
     ((if ok then Ret tt else Raise OSError),
      set_fs m (interact (EvMakedirs p) w))) = (r, w')
    /\ (r = Ret tt \/ exists e, r = Raise e)
    /\ requests_of (trace w') = requests_of (trace w)
    /\ only_dirs_added (fs w) (fs w')
    /\ (forall k : pystr, fs w !! k = None -> fs w' !! k <> None ->
                  length k <= length p)
    /\ (false = true -> r = Ret tt /\ w' = w)).
  { destruct (makedirs_in _ _ _ _) as [ok m] eqn:E.
    apply makedirs_in_grows in E as [Hg Hlen].
    eexists _, _. split; [reflexivity|]. simpl.
    split; [destruct ok; eauto|]. split; [reflexivity|].
    split; [exact Hg|]. split; [exact Hlen | discriminate]. }
  destruct (entry (fs w) p) as [[d|]|]; assumption.
Qed.

(** The statements of [download_file] that come before line 341: the
    name is fixed and an added extension is logged. *)
Lemma store_response_eq url path filename response w :
  let hs := resp_headers response in
  let name := final_filename url filename hs in
  let fp := full_path_of url path filename hs in
  exists w1,
    fs w1 = fs w
    /\ requests_of (trace w1) = requests_of (trace w)
    /\ store_response env cfg url path filename response w =
       bind (makedirs env (OsPath.dirname fp)) (fun _ =>
         or_else (skip_existing env cfg hs name fp)
           (bind (int_content_length hs) (fun total_size =>
              if (total_size =? 0)%Z then
                bind (log cfg (SkippingEmpty name)) (fun _ => ret None)
              else
                bind (write_chunks env fp response) (fun _ =>
                  ret (Some fp))))) w1.
Proof.
  intros hs name fp. subst name fp hs.
  unfold store_response, full_path_of, final_filename.
  destruct (pick_filename url filename (resp_headers response)) as [f0 orig].
  destruct (add_extension url (resp_headers response) f0 orig)
    as [f added].
  cbn [fst]. destruct added.
  - exists (logged cfg (AddedExtension f) w). repeat split; reflexivity.
  - exists w. repeat split; reflexivity.
Qed.

End StoreFacts.

Section DownloadCases.
Context `{PyLib} (env : Env) (cfg : Config).

(** The loop of lines 378-381 appends the chunks to the open file. *)
Lemma write_loop fp chunks :
  (forall t, os_refuses env t = false) ->
  forall w old,
    fs w !! fp = Some (File old) ->
    exists w',
      for_each chunks (write_chunk env fp) w = (Ret tt, w')
      /\ fs w' = <[fp := File (old ++ concat chunks)]> (fs w).
Proof.
  intros Hos. induction chunks as [|chunk chunks IH]; intros w old Hfile.
  - exists w. split; [reflexivity|]. simpl. rewrite app_nil_r.
    symmetry. apply insert_id, Hfile.
  - simpl for_each. destruct chunk as [|b chunk].
    + destruct (IH w old Hfile) as (w' & E & Hfs).
      exists w'. split; [|exact Hfs]. unfold bind. simpl. exact E.
    + unfold bind at 1, write_chunk at 1, write.
      rewrite Hos, Hfile.
      set (w1 := set_fs _ _).
      assert (Hfile1 : fs w1 !! fp = Some (File (old ++ b :: chunk))).
      { subst w1. simpl. apply lookup_insert_eq. }
      destruct (IH w1 _ Hfile1) as (w' & E & Hfs).
      exists w'. split; [exact E|]. rewrite Hfs. subst w1. simpl.
      rewrite insert_insert_eq, <- app_assoc. reflexivity.
Qed.

Lemma write_chunks_ok fp response w d :
  (forall t, os_refuses env t = false) ->
  resp_broken response = false ->
  fs w !! fp = Some (File d) ->
  exists w',
    write_chunks env fp response w = (Ret tt, w')
    /\ fs w' = <[fp := File (concat (resp_chunks response))]> (fs w).
Proof.
  intros Hos Hbroken Hfile. unfold write_chunks.
  unfold bind at 1.
  rewrite (open_write_ok env) by (eauto using can_open_file).
  set (w1 := set_fs _ _).
  assert (Hfile1 : fs w1 !! fp = Some (File [])).
  { subst w1. simpl. apply lookup_insert_eq. }
  destruct (write_loop fp (resp_chunks response) Hos w1 [] Hfile1)
    as (w' & E & Hfs).
  exists w'. split.
  - unfold bind. rewrite E, Hbroken. reflexivity.
  - rewrite Hfs. subst w1. simpl. apply insert_insert_eq.
Qed.

(** An existing file within the tolerance is kept; the response body is
    not touched. *)
Lemma store_response_keeps url path filename response w d n :
  let hs := resp_headers response in
  let fp := full_path_of url path filename hs in
  force_download cfg = false ->
  fs w !! fp = Some (File d) -> d <> [] ->
  isdir (fs w) (OsPath.dirname fp) = true ->
  expected_size_of hs = Some n ->
  (n = 0 \/ Z.abs (Z.of_nat (length d) - n) < 100)%Z ->
  exists w',
    store_response env cfg url path filename response w
      = (Ret (Some fp), w')
    /\ fs w' = fs w
    /\ requests_of (trace w') = requests_of (trace w).
Proof.
  intros hs fp Hforce Hfile Hd Hdir Hn Htol.
  destruct (store_response_eq env cfg url path filename response w)
    as (w1 & Hfs1 & Hreq1 & ->).
  fold hs fp. rewrite <- Hfs1 in Hfile, Hdir.
  unfold bind at 1. rewrite (makedirs_existing env _ _ Hdir).
  unfold or_else, bind at 1.
  rewrite (skip_existing_keeps env cfg hs _ fp w1 d n Hforce Hfile Hd Hn Htol).
  eexists. split; [reflexivity|]. split; [exact Hfs1 | exact Hreq1].
Qed.

(** An existing file outside the tolerance is replaced by the body. *)
Lemma store_response_replaces url path filename response w d n :
  let hs := resp_headers response in
  let fp := full_path_of url path filename hs in
  force_download cfg = false ->
  fs w !! fp = Some (File d) -> d <> [] ->
  isdir (fs w) (OsPath.dirname fp) = true ->
  expected_size_of hs = Some n ->
  (n <> 0 /\ 100 <= Z.abs (Z.of_nat (length d) - n))%Z ->
  (forall t, os_refuses env t = false) ->
  resp_broken response = false ->
  exists w',
    store_response env cfg url path filename response w
      = (Ret (Some fp), w')
    /\ fs w' = <[fp := File (concat (resp_chunks response))]> (fs w).
Proof.
  intros hs fp Hforce Hfile Hd Hdir Hn Hdiff Hos Hbroken.
  destruct (store_response_eq env cfg url path filename response w)
    as (w1 & Hfs1 & Hreq1 & ->).
  fold hs fp. rewrite <- Hfs1 in Hfile, Hdir.
  unfold bind at 1. rewrite (makedirs_existing env _ _ Hdir).
  unfold or_else, bind at 1.
  rewrite (skip_existing_differs env cfg hs _ fp w1 d n
             Hforce Hfile Hd Hn Hdiff).
  unfold bind at 1. rewrite int_content_length_eq, Hn.
  destruct Hdiff as [Hn0 _]. apply Z.eqb_neq in Hn0. rewrite Hn0.
  destruct (write_chunks_ok fp response
              (logged cfg (SizeDiffers (final_filename url filename hs)) w1)
              d Hos Hbroken Hfile) as (w' & E & Hfs).
  exists w'. split.
  - unfold bind. rewrite E. reflexivity.
  - rewrite Hfs. simpl. rewrite Hfs1. reflexivity.
Qed.

(** Without a content length, with nothing at the target path and a
    name that is not empty, the response is dropped: the function ends at
    [return None] of line 366, the branch of the empty file, or earlier
    with an exception when the directory cannot be made.  Directories may
    have been made by then. *)
Lemma store_response_no_length url path filename response w :
  let hs := resp_headers response in
  let fp := full_path_of url path filename hs in
  content_length hs = None ->
  entry (fs w) fp = None ->
  sanitize_filename (final_filename url filename hs) <> [] ->
  exists r w',
    store_response env cfg url path filename response w = (r, w')
    /\ (r = Ret None \/ exists e, r = Raise e)
    /\ only_dirs_added (fs w) (fs w')
    /\ requests_of (trace w') = requests_of (trace w)
    /\ (isdir (fs w) (OsPath.dirname fp) = true ->
        r = Ret None /\ fs w' = fs w
        /\ head (trace w')
           = Some (EvLog (verbose cfg)
                     (SkippingEmpty (final_filename url filename hs)))).
Proof.
  intros hs fp Hlen Hnone Hname.
  destruct (joined_path_plain path _ (sanitize_filename_safe _) Hname)
    as [Hend Hshort].
  fold (full_path_of url path filename hs) in Hend, Hshort. fold fp in Hend, Hshort.
  destruct (store_response_eq env cfg url path filename response w)
    as (w1 & Hfs1 & Hreq1 & ->).
  fold hs fp. rewrite <- Hfs1 in Hnone. rewrite <- Hfs1, <- Hreq1.
  destruct (makedirs_cases env (OsPath.dirname fp) w1)
    as (r & w2 & Emk & Hr & Hreq2 & Hgrow & Hnew & Hex).
  unfold bind at 1. rewrite Emk.
  destruct Hr as [-> | [e ->]].
  - assert (Hnone2 : entry (fs w2) fp = None).
    { rewrite (entry_plain (fs w1) _ Hend) in Hnone.
      rewrite (entry_plain (fs w2) _ Hend).
      destruct (fs w2 !! fp) eqn:E; [|reflexivity].
      pose proof (Hnew fp Hnone) as Hl. rewrite E in Hl.
      specialize (Hl ltac:(discriminate)). lia. }
    unfold or_else, bind at 1.
    rewrite (skip_existing_absent env cfg hs _ fp w2 Hnone2).
    unfold bind at 1. rewrite int_content_length_eq.
    unfold expected_size_of. rewrite Hlen. cbn [Z.eqb].
    eexists _, _. split; [reflexivity|]. split; [left; reflexivity|].
    simpl. split; [exact Hgrow|]. split; [exact Hreq2|].
    intros Hdir. destruct (Hex Hdir) as [_ ->]. auto.
  - eexists _, _. split; [reflexivity|]. split; [right; eauto|].
    split; [exact Hgrow|]. split; [exact Hreq2|].
    intros Hdir. destruct (Hex Hdir) as [E _]. discriminate.
Qed.

End DownloadCases.

Section DownloadClaims.
Context `{PyLib} (env : Env) (cfg : Config).

Lemma download_file_live url path filename w hr resp :
  let url' := absolute cfg url in
  recursion_limit cfg <> 0 ->
  transport env (clock w) (HEAD url') = Some hr ->
  session_expired hr url' = false ->
  transport env (S (clock w)) (GET url' true true) = Some resp ->
  download_file env cfg url path filename w =
  try_except (store_response env cfg url' path filename resp)
    (on_error cfg url')
    (interact (EvRequest (GET url' true true))
       (interact (EvRequest (HEAD url')) w)).
Proof.
  intros url' Hrl Hhead Hexp Hget. unfold download_file.
  destruct (recursion_limit cfg) as [|fuel]; [contradiction|].
  apply (download_file_rec_live env cfg fuel url path filename w hr resp);
    assumption.
Qed.

(** A download that finds its file within the tolerance. *)
Lemma download_file_keeps url path filename w hr resp d n :
  let url' := absolute cfg url in
  let hs := resp_headers resp in
  let fp := full_path_of url' path filename hs in
  recursion_limit cfg <> 0 ->
  force_download cfg = false ->
  transport env (clock w) (HEAD url') = Some hr ->
  session_expired hr url' = false ->
  transport env (S (clock w)) (GET url' true true) = Some resp ->
  fs w !! fp = Some (File d) -> d <> [] ->
  isdir (fs w) (OsPath.dirname fp) = true ->
  expected_size_of hs = Some n ->
  (n = 0 \/ Z.abs (Z.of_nat (length d) - n) < 100)%Z ->
  let out := download_file env cfg url path filename w in
  out.1 = Ret (Some fp)
  /\ fs out.2 = fs w
  /\ requests_of (trace out.2)
     = GET url' true true :: HEAD url' :: requests_of (trace w).
Proof.
  intros url' hs fp Hrl Hforce Hhead Hexp Hget Hfile Hd Hdir Hn Htol out.
  subst out.
  rewrite (download_file_live url path filename w hr resp Hrl Hhead Hexp Hget).
  fold url'. set (w2 := interact _ (interact _ w)).
  destruct (store_response_keeps env cfg url' path filename resp w2 d n
              Hforce Hfile Hd Hdir Hn Htol) as (w' & E & Hfs & Hreq).
  unfold try_except. rewrite E. simpl.
  split; [reflexivity|]. split; [exact Hfs|]. rewrite Hreq. reflexivity.
Qed.

(** C3, as amended: when the file is already at the target path, not
    empty, of the size the server announces, and the force flag is unset,
    a further call of [download_file] returns the path of the existing
    file and leaves the file system as it is; it does issue its requests
    again, the probe and the streaming GET (one GET per call, two for two
    calls), and reads no body. *)
Theorem second_download_keeps_file url path filename w hr resp d s :
  let url' := absolute cfg url in
  let hs := resp_headers resp in
  let fp := full_path_of url' path filename hs in
  recursion_limit cfg <> 0 ->
  force_download cfg = false ->
  transport env (clock w) (HEAD url') = Some hr ->
  session_expired hr url' = false ->
  transport env (S (clock w)) (GET url' true true) = Some resp ->
  fs w !! fp = Some (File d) -> d <> [] ->
  fs w !! OsPath.dirname fp = Some Dir ->
  content_length hs = Some s ->
  py_int s = Some (Z.of_nat (length d)) ->
  let out := download_file env cfg url path filename w in
  out.1 = Ret (Some fp)
  /\ fs out.2 = fs w
  /\ requests_of (trace out.2)
     = GET url' true true :: HEAD url' :: requests_of (trace w).
Proof.
  intros url' hs fp Hrl Hforce Hhead Hexp Hget Hfile Hd Hdir Hlen Hint.
  apply isdir_raw in Hdir.
  apply (download_file_keeps url path filename w hr resp d
           (Z.of_nat (length d))); try assumption.
  - unfold expected_size_of. fold hs. rewrite Hlen. exact Hint.
  - right. rewrite Z.sub_diag. simpl. lia.
Qed.

(** C4, as amended: a non-empty file exists at the target path (in an
    existing directory) and the force flag is unset.  (1) If the server
    announces a length that is zero or differs from the size of the file
    by 99 bytes or less, the file is kept and its path returned.  (2) If
    it announces a length other than zero that differs by 100 bytes or
    more, the file is replaced by the body received and its path returned,
    provided the transfer is not broken and the system accepts the
    writes.  (3) If it announces no length, the file is kept and its path
    returned. *)
Theorem existing_file_tolerance url path filename w hr resp d :
  let url' := absolute cfg url in
  let hs := resp_headers resp in
  let fp := full_path_of url' path filename hs in
  recursion_limit cfg <> 0 ->
  force_download cfg = false ->
  transport env (clock w) (HEAD url') = Some hr ->
  session_expired hr url' = false ->
  transport env (S (clock w)) (GET url' true true) = Some resp ->
  fs w !! fp = Some (File d) -> d <> [] ->
  fs w !! OsPath.dirname fp = Some Dir ->
  let out := download_file env cfg url path filename w in
  (forall s n,
      content_length hs = Some s -> py_int s = Some n ->
      (n = 0 \/ Z.abs (Z.of_nat (length d) - n) <= 99)%Z ->
      out.1 = Ret (Some fp) /\ fs out.2 = fs w)
  /\ (forall s n,
        content_length hs = Some s -> py_int s = Some n ->
        (n <> 0)%Z -> (100 <= Z.abs (Z.of_nat (length d) - n))%Z ->
        (forall t, os_refuses env t = false) ->
        resp_broken resp = false ->
        out.1 = Ret (Some fp)
        /\ fs out.2 = <[fp := File (concat (resp_chunks resp))]> (fs w))
  /\ (content_length hs = None ->
      out.1 = Ret (Some fp) /\ fs out.2 = fs w).
Proof.
  intros url' hs fp Hrl Hforce Hhead Hexp Hget Hfile Hd Hdir out.
  apply isdir_raw in Hdir.
  split; [|split].
  - intros s n Hlen Hint Htol.
    destruct (download_file_keeps url path filename w hr resp d n)
      as (Hr & Hfs & _); try assumption.
    + unfold expected_size_of. fold hs. rewrite Hlen. exact Hint.
    + destruct Htol; [left; assumption | right; lia].
    + split; assumption.
  - intros s n Hlen Hint Hn0 Hdiff Hos Hbroken. subst out.
    rewrite (download_file_live url path filename w hr resp
               Hrl Hhead Hexp Hget).
    fold url'. set (w2 := interact _ (interact _ w)).
    assert (Hn : expected_size_of hs = Some n).
    { unfold expected_size_of. rewrite Hlen. exact Hint. }
    destruct (store_response_replaces env cfg url' path filename resp w2 d n
                Hforce Hfile Hd Hdir Hn (conj Hn0 Hdiff) Hos Hbroken)
      as (w' & E & Hfs).
    unfold try_except. rewrite E. simpl. split; [reflexivity | exact Hfs].
  - intros Hlen.
    destruct (download_file_keeps url path filename w hr resp d 0%Z)
      as (Hr & Hfs & _); try assumption.
    + unfold expected_size_of. fold hs. rewrite Hlen. reflexivity.
    + left; reflexivity.
    + split; assumption.
Qed.

(** C9, as amended: the session is live, the response carries no
    Content-Length header, nothing exists at the target path and the name
    under which the file would be stored is not empty.  Then
    [download_file] returns [None], creates or changes no file, and issues
    the probe and the streaming GET and no other request.  It may leave
    new directories: the directory of the target is made before the length
    is looked at (line 341 precedes line 361).  When that directory
    exists, the file system as a whole is left as it was and the function
    ends in the branch of the empty file: its last action is the message
    of line 365. *)
Theorem download_without_content_length url path filename w hr resp :
  let url' := absolute cfg url in
  let hs := resp_headers resp in
  let fp := full_path_of url' path filename hs in
  recursion_limit cfg <> 0 ->
  transport env (clock w) (HEAD url') = Some hr ->
  session_expired hr url' = false ->
  transport env (S (clock w)) (GET url' true true) = Some resp ->
  content_length hs = None ->
  entry (fs w) fp = None ->
  sanitize_filename (final_filename url' filename hs) <> [] ->
  let out := download_file env cfg url path filename w in
  out.1 = Ret None
  /\ same_files (fs w) (fs out.2)
  /\ only_dirs_added (fs w) (fs out.2)
  /\ requests_of (trace out.2)
     = GET url' true true :: HEAD url' :: requests_of (trace w)
  /\ (isdir (fs w) (OsPath.dirname fp) = true ->
      fs out.2 = fs w
      /\ head (trace out.2)
         = Some (EvLog (verbose cfg)
                   (SkippingEmpty (final_filename url' filename hs)))).
Proof.
  intros url' hs fp Hrl Hhead Hexp Hget Hlen Hnone Hname out. subst out.
  rewrite (download_file_live url path filename w hr resp Hrl Hhead Hexp Hget).
  fold url'. set (w2 := interact _ (interact _ w)).
  destruct (store_response_no_length env cfg url' path filename resp w2
              Hlen Hnone Hname) as (r & w' & E & Hr & Hgrow & Hreq & Hdir).
  unfold try_except. rewrite E.
  destruct Hr as [-> | [e ->]]; simpl.
  - split; [reflexivity|]. split; [apply same_files_grown, Hgrow|].
    split; [exact Hgrow|]. split; [rewrite Hreq; reflexivity|].
    intros Hd. destruct (Hdir Hd) as (_ & Hfs & Hlog). split; assumption.
  - split; [reflexivity|]. split; [apply same_files_grown, Hgrow|].
    split; [exact Hgrow|]. split; [rewrite Hreq; reflexivity|].
    intros Hd. destruct (Hdir Hd) as (E' & _). discriminate.
Qed.

End DownloadClaims.

(** ** Session expiry *)

Section Expiry.
Context `{PyLib} (env : Env) (cfg : Config).

Lemma logins_log v m tr : logins (EvLog v m :: tr) = logins tr.
Proof. reflexivity. Qed.

(** A login that the portal accepts posts the credentials once. *)
Lemma login_succeeds w :
  let login_url := urljoin (base_url cfg) (lit "/login/index.php") in
  (forall t, is_Some (transport env t (GET login_url true false))) ->
  (forall t data, exists r,
      transport env t (POST login_url data) = Some r
      /\ Str.any_in login_markers (resp_text r) = false) ->
  exists w',
    login env cfg w = (Ret true, w')
    /\ logins (trace w') = S (logins (trace w))
    /\ expiries (trace w') = expiries (trace w).
Proof.
  intros login_url Hget Hpost. unfold login. fold login_url.
  destruct (Hget (clock w)) as [r0 E0].
  unfold bind at 1. rewrite (request_ok env _ _ _ E0).
  destruct (login_token (resp_soup r0)) as [token_name token].
  cbv beta iota delta [bind get_username get_password set_username
                       set_password input ret].
  cbn [username password interact].
  repeat (match goal with
          | |- context [if truthy_opt ?x then _ else _] =>
              destruct (truthy_opt x)
          end; cbn [username password interact clock]);
    (match goal with
     | |- context [request env (POST ?u ?d) ?w0] =>
         destruct (Hpost (clock w0) d) as (r1 & E1 & Hm);
         rewrite (request_ok env _ _ _ E1), Hm
     end);
    eexists; (split; [reflexivity|]); split; reflexivity.
Qed.

(** One expiry: after the login the function is called again, with one
    nested call less to go, and its answer is the answer. *)
Lemma download_file_rec_retry fuel url path filename w hr b w2 :
  let url' := absolute cfg url in
  transport env (clock w) (HEAD url') = Some hr ->
  session_expired hr url' = true ->
  login env cfg (logged cfg SessionExpired
                   (interact (EvRequest (HEAD url')) w)) = (Ret b, w2) ->
  download_file_rec env cfg (S fuel) url path filename w
  = download_file_rec env cfg fuel url' path filename w2.
Proof.
  intros url' Hhead Hexp Hlogin.
  rewrite download_file_rec_unfold. fold url'. cbv zeta.
  unfold try_except, bind at 1.
  rewrite (request_ok env _ _ _ Hhead), Hexp.
  unfold bind at 1. rewrite log_eq.
  unfold bind at 1. rewrite Hlogin.
  pose proof (no_raise_download_file_rec env cfg fuel url' path filename w2)
    as Hnr.
  destruct (download_file_rec env cfg fuel url' path filename w2)
    as [[r|e|n] w3]; try reflexivity.
  exfalso. exact (Hnr e eq_refl).
Qed.

(** A login that returns has posted the credentials once and has left
    the files alone. *)
Lemma login_returns w b w' :
  login env cfg w = (Ret b, w') ->
  logins (trace w') = S (logins (trace w))
  /\ expiries (trace w') = expiries (trace w)
  /\ fs w' = fs w.
Proof.
  unfold login.
  unfold bind at 1, request.
  destruct (transport env (clock w) _) as [r0|]; [|discriminate].
  destruct (login_token (resp_soup r0)) as [token_name token].
  cbv beta iota delta [bind get_username get_password set_username
                       set_password input ret request].
  cbn [username password interact clock].
  repeat (match goal with
          | |- context [if truthy_opt ?x then _ else _] =>
              destruct (truthy_opt x)
          end; cbn [username password interact clock]);
    (match goal with
     | |- context [transport env ?t (POST ?u ?d)] =>
         destruct (transport env t (POST u d)) as [r1|]; [|discriminate]
     end);
    (destruct (Str.any_in login_markers (resp_text r1)); [discriminate|]);
    intros [= <- <-]; repeat split; reflexivity.
Qed.

Lemma absolute_http url :
  is_http (absolute cfg url) = true ->
  absolute cfg (absolute cfg url) = absolute cfg url.
Proof. intros Hh. unfold absolute at 1. rewrite Hh. reflexivity. Qed.

(** The function makes its URL absolute first: on an absolute URL that
    starts with the scheme, calling it with the URL as given or with the
    absolute URL is the same. *)
Lemma download_file_rec_absolute fuel url path filename w :
  is_http (absolute cfg url) = true ->
  download_file_rec env cfg fuel url path filename w
  = download_file_rec env cfg fuel (absolute cfg url) path filename w.
Proof.
  intros Hh. pose proof (absolute_http url Hh) as Ha. destruct fuel.
  - change (download_file_rec env cfg 0 url path filename)
      with (try_except (@raise (option pystr) RecursionError)
              (on_error cfg (absolute cfg url))).
    change (download_file_rec env cfg 0 (absolute cfg url) path filename)
      with (try_except (@raise (option pystr) RecursionError)
              (on_error cfg (absolute cfg (absolute cfg url)))).
    rewrite Ha. reflexivity.
  - rewrite !download_file_rec_unfold. cbv zeta. rewrite Ha. reflexivity.
Qed.

(** After [k] expiries in a row the download is where it started, with
    [k] nested calls less to go and [k] logins made. *)
Lemma retried_rec url path filename k w wk :
  is_http url = true ->
  retried env cfg url k w wk ->
  forall fuel,
    download_file_rec env cfg (k + fuel) url path filename w
    = download_file_rec env cfg fuel url path filename wk.
Proof.
  intros Hh Hr. assert (Ha : absolute cfg url = url).
  { unfold absolute. rewrite Hh. reflexivity. }
  induction Hr as [w|k w hr b w1 w2 Hhead Hexp Hlogin _ IH]; intros fuel;
    [reflexivity|].
  cbn [Nat.add].
  pose proof (download_file_rec_retry (k + fuel) url path filename w hr b w1)
    as Hstep.
  cbv zeta in Hstep. rewrite Ha in Hstep.
  rewrite (Hstep Hhead Hexp Hlogin). apply IH.
Qed.

Lemma retried_counts url k w wk :
  retried env cfg url k w wk ->
  logins (trace wk) = k + logins (trace w)
  /\ expiries (trace wk) = k + expiries (trace w)
  /\ fs wk = fs w.
Proof.
  induction 1 as [w|k w hr b w1 w2 Hhead Hexp Hlogin _ IH]; [auto|].
  destruct (login_returns _ _ _ Hlogin) as (Hl & He & Hf).
  destruct IH as (Hl2 & He2 & Hf2).
  rewrite Hl2, He2, Hf2, Hl, He, Hf.
  change (expiries (trace (logged cfg SessionExpired
                             (interact (EvRequest (HEAD url)) w))))
    with (S (expiries (trace w))).
  change (logins (trace (logged cfg SessionExpired
                           (interact (EvRequest (HEAD url)) w))))
    with (logins (trace w)).
  repeat split; lia.
Qed.

(** C1, as amended: a download whose probe reveals an expired session
    logs in again and calls the download again, with the same arguments;
    the new call probes again and treats a further expiry the same way, so
    that nothing limits the retries to one.  After [k] expiries in a row,
    each followed by a login that returns, and as long as the interpreter
    allows another nested call, [k] logins have been made, no file has
    been touched, and the download is the call that comes next: when its
    probe finds the session live, the result of the download is the result
    of storing the response, as in a download without expiry. *)
Theorem expired_session_retried_per_call url path filename w k wk :
  let url' := absolute cfg url in
  is_http url' = true ->
  retried env cfg url' k w wk ->
  k < recursion_limit cfg ->
  download_file env cfg url path filename w
  = download_file_rec env cfg (recursion_limit cfg - k) url' path filename wk
  /\ logins (trace wk) = k + logins (trace w)
  /\ expiries (trace wk) = k + expiries (trace w)
  /\ fs wk = fs w
  /\ (forall hr resp,
        transport env (clock wk) (HEAD url') = Some hr ->
        session_expired hr url' = false ->
        transport env (S (clock wk)) (GET url' true true) = Some resp ->
        download_file env cfg url path filename w
        = try_except (store_response env cfg url' path filename resp)
            (on_error cfg url')
            (interact (EvRequest (GET url' true true))
               (interact (EvRequest (HEAD url')) wk))).
Proof.
  intros url' Hh Hr Hk.
  assert (E : download_file env cfg url path filename w
              = download_file_rec env cfg (recursion_limit cfg - k) url'
                  path filename wk).
  { unfold download_file.
    rewrite (download_file_rec_absolute _ url) by exact Hh. fold url'.
    replace (recursion_limit cfg) with (k + (recursion_limit cfg - k))
      at 1 by lia.
    apply retried_rec; assumption. }
  destruct (retried_counts _ _ _ _ Hr) as (Hl & He & Hf).
  repeat (split; [assumption|]).
  intros hr resp Hhead Hexp Hget. rewrite E.
  destruct (recursion_limit cfg - k) as [|fuel] eqn:En; [lia|].
  pose proof (download_file_rec_live env cfg fuel url' path filename wk hr
                resp) as Hlive.
  assert (Ha : absolute cfg url' = url') by apply absolute_http, Hh.
  cbv zeta in Hlive. rewrite Ha in Hlive.
  apply Hlive; assumption.
Qed.

End Expiry.

(** ** The resolution chain *)

Section Resolution.
Context `{PyLib} (env : Env) (cfg : Config).

Lemma resource_id_of_world url w : (resource_id_of url w).2 = w.
Proof.
  unfold resource_id_of.
  destruct (List.find _ _) as [[k [|v vs]]|]; reflexivity.
Qed.

End Resolution.

(** ** The statements on the scenarios *)

Section OnScenarios.
Import Scenario.

(** C1 fails as stated: with a session that expires twice in a row, the
    download logs in twice and then succeeds; the second consecutive
    expiry is not a failure of the resource and the retry is not made
    exactly once. *)
Lemma expired_twice_logs_in_twice :
  let out := download_file expiring_twice cfg file_url (lit "/dl") notes
               (start [(lit "/dl", Dir)]) in
  out.1 = Ret (Some target)
  /\ expiries (trace out.2) = 2
  /\ logins (trace out.2) = 2.
Proof. vm_compute. repeat split; reflexivity. Qed.

(** The amended statement on a session that expires twice: two logins,
    and the download is the third call, which finds the session live. *)
Lemma expired_session_retried_per_call_witness :
  let w := start [(lit "/dl", Dir)] in
  exists wk,
    download_file expiring_twice cfg file_url (lit "/dl") notes w
    = download_file_rec expiring_twice cfg 48 file_url (lit "/dl") notes wk
    /\ logins (trace wk) = 2 + logins (trace w)
    /\ expiries (trace wk) = 2 + expiries (trace w)
    /\ fs wk = fs w
    /\ clock wk = 6.
Proof.
  intros w.
  assert (Hr : exists wk,
             retried expiring_twice cfg file_url 2 w wk /\ clock wk = 6).
  { eexists. split.
    - eapply retried_again;
        [reflexivity | reflexivity | vm_compute; reflexivity |].
      eapply retried_again;
        [reflexivity | reflexivity | vm_compute; reflexivity |].
      apply retried_none.
    - reflexivity. }
  destruct Hr as (wk & Hr & Hc). exists wk.
  destruct (expired_session_retried_per_call expiring_twice cfg file_url
              (lit "/dl") notes w 2 wk eq_refl Hr ltac:(vm_compute; lia))
    as (E & Hl & He & Hf & _).
  auto.
Defined.

(** C2 fails as stated: the page has no download anchor and no embedded
    media; the script scan (strategy 4) yields a candidate, twice, whose
    download fails, and the content endpoint (strategy 5) is tried next
    and delivers the file. *)
Lemma script_failure_falls_through :
  let out := _process_resource_page (resource_portal script_page) cfg
               page_url (lit "/dl") slides (start [(lit "/dl", Dir)]) in
  rev (strategy_logs (trace out.2))
    = [FoundInScript slides_url; FoundInScript slides_url;
       TryingContentEndpoint content_url]
  /\ out.1 = Ret (Some (lit "/dl/Slides.php")).
Proof. vm_compute. split; reflexivity. Qed.

(** C3 fails as stated: two calls for the same URL and path, the force
    flag unset, issue the streaming GET twice; the second call still
    returns the path and leaves the file as the first call wrote it. *)
Lemma two_downloads_two_gets :
  let env := serving (length_header "5") [[1; 2; 3; 4; 5]%N] in
  let first := download_file env cfg file_url (lit "/dl") notes
                 (start [(lit "/dl", Dir)]) in
  let second := download_file env cfg file_url (lit "/dl") notes first.2 in
  first.1 = Ret (Some target)
  /\ second.1 = Ret (Some target)
  /\ gets_of file_url (trace first.2) = 1
  /\ gets_of file_url (trace second.2) = 2
  /\ fs second.2 !! target = Some (File [1; 2; 3; 4; 5]%N)
  /\ fs first.2 !! target = Some (File [1; 2; 3; 4; 5]%N).
Proof. vm_compute. repeat split; reflexivity. Qed.

(** The amended statement for a file of five bytes that the server
    announces with length 5. *)
Lemma second_download_keeps_file_witness :
  let env := serving (length_header "5") [[1; 2; 3; 4; 5]%N] in
  let w := start [(lit "/dl", Dir); (target, File [1; 2; 3; 4; 5]%N)] in
  let out := download_file env cfg file_url (lit "/dl") notes w in
  out.1 = Ret (Some target)
  /\ fs out.2 = fs w
  /\ requests_of (trace out.2) = [GET file_url true true; HEAD file_url].
Proof.
  intros env w.
  apply (second_download_keeps_file env cfg file_url (lit "/dl") notes w
           (plain file_url)
           (answer file_url (length_header "5") [] empty_soup
              [[1; 2; 3; 4; 5]%N])
           [1; 2; 3; 4; 5]%N (lit "5"));
    try reflexivity; discriminate.
Defined.

(** C4 fails as stated: the file has 500 bytes and the server announces
    a content length of 0, so the sizes differ by 500 bytes, and yet the
    file is kept and no byte of the body is written. *)
Lemma announced_zero_keeps_file :
  let env := serving (length_header "0") [[9; 9; 9]%N] in
  let w := start [(lit "/dl", Dir); (target, File (repeat 7%N 500))] in
  let out := download_file env cfg file_url (lit "/dl") notes w in
  out.1 = Ret (Some target)
  /\ fs out.2 !! target = Some (File (repeat 7%N 500))
  /\ (100 <= Z.abs (500 - 0))%Z.
Proof. vm_compute. repeat split; try reflexivity. discriminate. Qed.

(** The amended statement on a file of 500 bytes: kept when 450 bytes
    are announced, replaced when 3 bytes are announced, kept when no
    length is announced. *)
Lemma existing_file_tolerance_witness :
  let w := start [(lit "/dl", Dir); (target, File (repeat 7%N 500))] in
  let run hs := download_file (serving hs [[9; 9; 9]%N]) cfg file_url
                  (lit "/dl") notes w in
  ((run (length_header "450")).1 = Ret (Some target)
   /\ fs (run (length_header "450")).2 = fs w)
  /\ ((run (length_header "3")).1 = Ret (Some target)
      /\ fs (run (length_header "3")).2
         = <[target := File [9; 9; 9]%N]> (fs w))
  /\ ((run no_headers).1 = Ret (Some target)
      /\ fs (run no_headers).2 = fs w).
Proof.
  intros w run.
  assert (Hd : repeat 7%N 500 <> []) by discriminate.
  split; [|split].
  - destruct (existing_file_tolerance
                (serving (length_header "450") [[9; 9; 9]%N]) cfg file_url
                (lit "/dl") notes w (plain file_url)
                (answer file_url (length_header "450") [] empty_soup
                   [[9; 9; 9]%N])
                (repeat 7%N 500)) as (Hkeep & _ & _);
      try reflexivity; try discriminate.
    apply (Hkeep (lit "450") 450%Z); try reflexivity.
    right. vm_compute. discriminate.
  - destruct (existing_file_tolerance
                (serving (length_header "3") [[9; 9; 9]%N]) cfg file_url
                (lit "/dl") notes w (plain file_url)
                (answer file_url (length_header "3") [] empty_soup
                   [[9; 9; 9]%N])
                (repeat 7%N 500)) as (_ & Hreplace & _);
      try reflexivity; try discriminate.
    apply (Hreplace (lit "3") 3%Z); try reflexivity.
    + discriminate.
    + vm_compute. discriminate.
  - destruct (existing_file_tolerance
                (serving no_headers [[9; 9; 9]%N]) cfg file_url
                (lit "/dl") notes w (plain file_url)
                (answer file_url no_headers [] empty_soup [[9; 9; 9]%N])
                (repeat 7%N 500)) as (_ & _ & Hnone);
      try reflexivity; try discriminate.
    apply Hnone. reflexivity.
Defined.


(** C7 on two discovery pages that list the same course under different
    texts: one course is returned, with the name of the first listing. *)
Example get_courses_listed_twice :
  (get_courses listed_twice cfg (start [])).1
  = Ret [{| course_url := algebra_url; course_name := lit "Algebra I" |}].
Proof. vm_compute. reflexivity. Qed.

(** C9, as amended, on a response without Content-Length, with the
    target directory in place: nothing is stored and the result is
    [None]. *)
Lemma download_without_content_length_witness :
  let env := serving no_headers [[1; 2; 3]%N] in
  let w := start [(lit "/dl", Dir)] in
  let out := download_file env cfg file_url (lit "/dl") notes w in
  out.1 = Ret None
  /\ same_files (fs w) (fs out.2)
  /\ only_dirs_added (fs w) (fs out.2)
  /\ requests_of (trace out.2) = [GET file_url true true; HEAD file_url]
  /\ (isdir (fs w) (lit "/dl") = true ->
      fs out.2 = fs w
      /\ head (trace out.2)
         = Some (EvLog true (SkippingEmpty (lit "notes.pdf")))).
Proof.
  intros env w.
  apply (download_without_content_length env cfg file_url (lit "/dl") notes w
           (plain file_url)
           (answer file_url no_headers [] empty_soup [[1; 2; 3]%N]));
    try reflexivity; discriminate.
Defined.

End OnScenarios.

(** ** Footprints of the operations *)

Section AddsRules.
Context (P : Event -> Prop).

Lemma adds_ret {A} (a : A) : adds P (ret a).
Proof. intros w. exists []. split; [reflexivity | constructor]. Qed.

Lemma adds_raise {A} (e : Exn) : adds P (@raise A e).
Proof. intros w. exists []. split; [reflexivity | constructor]. Qed.

Lemma adds_emit (e : Event) : P e -> adds P (emit e).
Proof.
  intros He w. exists [e]. split; [reflexivity | repeat constructor; exact He].
Qed.

Lemma adds_bind {A B} (c : M A) (k : A -> M B) :
  adds P c -> (forall a, adds P (k a)) -> adds P (bind c k).
Proof.
  intros Hc Hk w. unfold bind.
  destruct (Hc w) as (ad & E & F).
  destruct (c w) as [[a|e|n] w1]; simpl in *; try solve [exists ad; auto].
  destruct (Hk a w1) as (ad2 & E2 & F2).
  exists (ad2 ++ ad). rewrite E2, E, app_assoc. split; [reflexivity|].
  apply Forall_app; auto.
Qed.

Lemma adds_try {A} (c : M A) (h : Exn -> M A) :
  adds P c -> (forall e, adds P (h e)) -> adds P (try_except c h).
Proof.
  intros Hc Hh w. unfold try_except.
  destruct (Hc w) as (ad & E & F).
  destruct (c w) as [[a|e|n] w1]; simpl in *; try solve [exists ad; auto].
  destruct (Hh e w1) as (ad2 & E2 & F2).
  exists (ad2 ++ ad). rewrite E2, E, app_assoc. split; [reflexivity|].
  apply Forall_app; auto.
Qed.

Lemma adds_for_each {X} (xs : list X) (body : X -> M unit) :
  (forall x, adds P (body x)) -> adds P (for_each xs body).
Proof.
  intros Hb. induction xs as [|x xs IH]; simpl.
  - apply adds_ret.
  - apply adds_bind; [apply Hb | intros _; exact IH].
Qed.

Lemma adds_for_return {X R} (xs : list X) (body : X -> M (option R)) :
  (forall x, adds P (body x)) -> adds P (for_return xs body).
Proof.
  intros Hb. induction xs as [|x xs IH]; simpl.
  - apply adds_ret.
  - apply adds_bind; [apply Hb|].
    intros [v|]; [apply adds_ret | exact IH].
Qed.

Lemma adds_or_else {R} (c : M (option R)) (k : M R) :
  adds P c -> adds P k -> adds P (or_else c k).
Proof.
  intros Hc Hk. unfold or_else. apply adds_bind; [exact Hc|].
  intros [v|]; [apply adds_ret | exact Hk].
Qed.

Lemma adds_or_else_returns {R} (c : M (option R)) (k : M R) :
  adds P c -> (forall w, (c w).1 <> Ret None) -> adds P (or_else c k).
Proof.
  intros Hc Hsome w. unfold or_else, bind.
  destruct (Hc w) as (ad & E & F). specialize (Hsome w).
  destruct (c w) as [[[v|]|e|n] w1]; simpl in *;
    try solve [exists ad; auto]; contradiction.
Qed.

End AddsRules.

Lemma adds_weaken (P Q : Event -> Prop) {A} (c : M A) :
  (forall e, P e -> Q e) -> adds P c -> adds Q c.
Proof.
  intros HPQ Hc w. destruct (Hc w) as (ad & E & F).
  exists ad. split; [exact E|]. eapply Forall_impl; eauto.
Qed.

Section AddsPrimitives.
Context `{PyLib} (env : Env) (cfg : Config) (P : Event -> Prop).

Lemma adds_log m : P (EvLog (verbose cfg) m) -> adds P (log cfg m).
Proof. apply adds_emit. Qed.

Lemma adds_request q : P (EvRequest q) -> adds P (request env q).
Proof.
  intros Hq w. unfold request.
  destruct (transport env (clock w) q);
    (exists [EvRequest q]; split; [reflexivity | repeat constructor; exact Hq]).
Qed.

Lemma adds_input : P EvInput -> adds P (input env).
Proof.
  intros Hq w. exists [EvInput].
  split; [reflexivity | repeat constructor; exact Hq].
Qed.

Lemma adds_sys_exit {A} n : P (EvExit n) -> adds P (@sys_exit A n).
Proof.
  intros Hq w. exists [EvExit n].
  split; [reflexivity | repeat constructor; exact Hq].
Qed.

Lemma adds_makedirs p : P (EvMakedirs p) -> adds P (makedirs env p).
Proof.
  intros Hp w. unfold makedirs.
  destruct (makedirs_in _ _ _ _) as [ok m].
  destruct (entry (fs w) p) as [[d|]|];
    first [ exists []; split; [reflexivity | constructor]
          | eexists [_]; split;
            [reflexivity | repeat constructor; exact Hp] ].
Qed.

Lemma adds_open_write p : P (EvOpen p) -> adds P (open_write env p).
Proof.
  intros Hp w. unfold open_write.
  destruct (can_open (fs w) p);
    [|exists []; split; [reflexivity | constructor]].
  destruct (os_refuses env (clock w));
    (eexists [_]; split; [reflexivity | repeat constructor; exact Hp]).
Qed.

Lemma adds_write p d : P (EvWrite p d) -> adds P (write env p d).
Proof.
  intros Hp w. unfold write.
  destruct (os_refuses env (clock w));
    [eexists [_]; split; [reflexivity | repeat constructor; exact Hp]|].
  destruct (fs w !! p) as [[old|]|];
    (eexists [_]; split; [reflexivity | repeat constructor; exact Hp]).
Qed.

Lemma adds_silent {A} (c : M A) :
  (forall w, trace (c w).2 = trace w) -> adds P c.
Proof.
  intros Hc w. exists []. split; [apply Hc | constructor].
Qed.

Lemma adds_path_exists p : adds P (path_exists p).
Proof. apply adds_silent. reflexivity. Qed.

Lemma adds_getsize p : adds P (getsize env p).
Proof.
  apply adds_silent. intros w. unfold getsize.
  destruct (entry (fs w) p) as [[d|]|]; reflexivity.
Qed.

Lemma adds_listdir_len p : adds P (listdir_len p).
Proof.
  apply adds_silent. intros w. unfold listdir_len.
  destruct (entry (fs w) p) as [[d|]|]; reflexivity.
Qed.

Lemma adds_set_username u : adds P (set_username u).
Proof. apply adds_silent. reflexivity. Qed.
Lemma adds_set_password u : adds P (set_password u).
Proof. apply adds_silent. reflexivity. Qed.
Lemma adds_get_username : adds P get_username.
Proof. apply adds_silent. reflexivity. Qed.
Lemma adds_get_password : adds P get_password.
Proof. apply adds_silent. reflexivity. Qed.

Lemma adds_int_content_length hs : adds P (int_content_length hs).
Proof.
  apply adds_silent. intros w. rewrite int_content_length_eq.
  destruct (expected_size_of hs); reflexivity.
Qed.

Lemma adds_resource_id_of url : adds P (resource_id_of url).
Proof.
  apply adds_silent. intros w.
  rewrite resource_id_of_world. reflexivity.
Qed.

End AddsPrimitives.

(** ** Changes of the file system and the events that explain them *)

Section AccountsRules.

Lemma explained_refl (added : list Event) (m : gmap pystr Node) :
  explained added m m.
Proof. intros k. left. reflexivity. Qed.

Lemma explained_trans (ad1 ad2 : list Event) (m m1 m2 : gmap pystr Node) :
  explained ad1 m m1 -> explained ad2 m1 m2 -> explained (ad2 ++ ad1) m m2.
Proof.
  intros H1 H2 k.
  destruct (H2 k) as [E2 | [T2 | (N2 & D2 & M2)]].
  - destruct (H1 k) as [E1 | [T1 | (N1 & D1 & M1)]].
    + left. congruence.
    + right. left. apply Exists_app. right. exact T1.
    + right. right. split; [exact N1|]. split; [congruence|].
      apply Exists_app. right. exact M1.
  - right. left. apply Exists_app. left. exact T2.
  - destruct (H1 k) as [E1 | [T1 | (N1 & D1 & M1)]].
    + right. right. split; [congruence|]. split; [exact D2|].
      apply Exists_app. left. exact M2.
    + right. left. apply Exists_app. right. exact T1.
    + congruence.
Qed.

Lemma accounts_ret {A} (a : A) : accounts (ret a).
Proof. intros w. exists []. split; [reflexivity | apply explained_refl]. Qed.

Lemma accounts_raise {A} (e : Exn) : accounts (@raise A e).
Proof. intros w. exists []. split; [reflexivity | apply explained_refl]. Qed.

Lemma accounts_bind {A B} (c : M A) (k : A -> M B) :
  accounts c -> (forall a, accounts (k a)) -> accounts (bind c k).
Proof.
  intros Hc Hk w. unfold bind.
  destruct (Hc w) as (ad & E & F).
  destruct (c w) as [[a|e|n] w1]; simpl in *; try solve [exists ad; auto].
  destruct (Hk a w1) as (ad2 & E2 & F2).
  exists (ad2 ++ ad). rewrite E2, E, app_assoc. split; [reflexivity|].
  eapply explained_trans; eassumption.
Qed.

Lemma accounts_try {A} (c : M A) (h : Exn -> M A) :
  accounts c -> (forall e, accounts (h e)) -> accounts (try_except c h).
Proof.
  intros Hc Hh w. unfold try_except.
  destruct (Hc w) as (ad & E & F).
  destruct (c w) as [[a|e|n] w1]; simpl in *; try solve [exists ad; auto].
  destruct (Hh e w1) as (ad2 & E2 & F2).
  exists (ad2 ++ ad). rewrite E2, E, app_assoc. split; [reflexivity|].
  eapply explained_trans; eassumption.
Qed.

Lemma accounts_for_each {X} (xs : list X) (body : X -> M unit) :
  (forall x, accounts (body x)) -> accounts (for_each xs body).
Proof.
  intros Hb. induction xs as [|x xs IH]; simpl.
  - apply accounts_ret.
  - apply accounts_bind; [apply Hb | intros _; exact IH].
Qed.

Lemma accounts_for_return {X R} (xs : list X) (body : X -> M (option R)) :
  (forall x, accounts (body x)) -> accounts (for_return xs body).
Proof.
  intros Hb. induction xs as [|x xs IH]; simpl.
  - apply accounts_ret.
  - apply accounts_bind; [apply Hb|].
    intros [v|]; [apply accounts_ret | exact IH].
Qed.

Lemma accounts_or_else {R} (c : M (option R)) (k : M R) :
  accounts c -> accounts k -> accounts (or_else c k).
Proof.
  intros Hc Hk. unfold or_else. apply accounts_bind; [exact Hc|].
  intros [v|]; [apply accounts_ret | exact Hk].
Qed.

(** A computation that leaves the file system as it is. *)
Lemma accounts_quiet {A} (c : M A) :
  (forall w, fs (c w).2 = fs w) -> adds (fun _ => True) c -> accounts c.
Proof.
  intros Hfs Hc w. destruct (Hc w) as (ad & E & _).
  exists ad. split; [exact E|]. rewrite Hfs. apply explained_refl.
Qed.

End AccountsRules.

Section AccountsPrimitives.
Context `{PyLib} (env : Env) (cfg : Config).

Lemma accounts_log m : accounts (log cfg m).
Proof.
  apply accounts_quiet; [reflexivity | apply adds_log; exact I].
Qed.

Lemma accounts_request q : accounts (request env q).
Proof.
  apply accounts_quiet; [|apply adds_request; exact I].
  intros w. unfold request. destruct (transport env (clock w) q); reflexivity.
Qed.

Lemma accounts_input : accounts (input env).
Proof. apply accounts_quiet; [reflexivity | apply adds_input; exact I]. Qed.

Lemma accounts_sys_exit {A} n : accounts (@sys_exit A n).
Proof.
  apply accounts_quiet; [reflexivity | apply adds_sys_exit; exact I].
Qed.

Lemma accounts_makedirs p : accounts (makedirs env p).
Proof.
  intros w. unfold makedirs.
  destruct (makedirs_in _ _ _ _) as [ok m] eqn:Em.
  assert (Hnew : explained [EvMakedirs p] (fs w) m).
  { pose proof (makedirs_in_grows _ _ _ _ _ _ Em) as [[Hold Hdir] _].
    pose proof (makedirs_in_above _ _ _ _ _ _ Em) as Habove.
    intros k. destruct (fs w !! k) as [n|] eqn:Ek.
    - left. apply Hold, Ek.
    - destruct (Hdir k Ek) as [Hk|Hk]; [left; exact Hk|].
      right. right. split; [reflexivity|]. split; [exact Hk|].
      apply Exists_cons_hd. apply Habove; [exact Ek | congruence]. }
  destruct (entry (fs w) p) as [[d|]|];
    first [ exists []; split; [reflexivity | apply explained_refl]
          | exists [EvMakedirs p]; split; [reflexivity|];
            destruct ok; exact Hnew ].
Qed.

Lemma explained_insert (m : gmap pystr Node) (p : pystr) n e :
  touches p e -> explained [e] m (<[p := n]> m).
Proof.
  intros He k. destruct (decide (p = k)) as [<-|Hne].
  - right. left. apply Exists_cons_hd, He.
  - left. apply lookup_insert_ne, Hne.
Qed.

Lemma accounts_open_write p : accounts (open_write env p).
Proof.
  intros w. unfold open_write.
  destruct (can_open (fs w) p);
    [|exists []; split; [reflexivity | apply explained_refl]].
  destruct (os_refuses env (clock w));
    (exists [EvOpen p]; split;
       [reflexivity
       | first [apply explained_refl | apply explained_insert; reflexivity]]).
Qed.

Lemma accounts_write p d : accounts (write env p d).
Proof.
  intros w. unfold write.
  destruct (os_refuses env (clock w));
    [exists [EvWrite p d]; split; [reflexivity | apply explained_refl]|].
  destruct (fs w !! p) as [[old|]|];
    (exists [EvWrite p d]; split;
       [reflexivity
       | first [apply explained_refl | apply explained_insert; reflexivity]]).
Qed.

Lemma accounts_path_exists p : accounts (path_exists p).
Proof.
  apply accounts_quiet; [reflexivity | apply adds_path_exists].
Qed.

Lemma accounts_getsize p : accounts (getsize env p).
Proof.
  apply accounts_quiet; [|apply adds_getsize].
  intros w. unfold getsize. destruct (entry (fs w) p) as [[d|]|]; reflexivity.
Qed.

Lemma accounts_listdir_len p : accounts (listdir_len p).
Proof.
  apply accounts_quiet; [|apply adds_listdir_len].
  intros w. unfold listdir_len.
  destruct (entry (fs w) p) as [[d|]|]; reflexivity.
Qed.

Lemma accounts_set_username u : accounts (set_username u).
Proof. apply accounts_quiet; [reflexivity | apply adds_set_username]. Qed.
Lemma accounts_set_password u : accounts (set_password u).
Proof. apply accounts_quiet; [reflexivity | apply adds_set_password]. Qed.
Lemma accounts_get_username : accounts get_username.
Proof. apply accounts_quiet; [reflexivity | apply adds_get_username]. Qed.
Lemma accounts_get_password : accounts get_password.
Proof. apply accounts_quiet; [reflexivity | apply adds_get_password]. Qed.

Lemma accounts_int_content_length hs : accounts (int_content_length hs).
Proof.
  apply accounts_quiet; [|apply adds_int_content_length].
  intros w. rewrite int_content_length_eq.
  destruct (expected_size_of hs); reflexivity.
Qed.

Lemma accounts_resource_id_of url : accounts (resource_id_of url).
Proof.
  apply accounts_quiet; [|apply adds_resource_id_of].
  intros w. rewrite resource_id_of_world. reflexivity.
Qed.

End AccountsPrimitives.

(** One syntax-directed step on a goal [accounts c]. *)
Ltac accounts_step :=
  lazymatch goal with
  | |- accounts (bind _ _) => apply accounts_bind; [| intros ?]
  | |- accounts (try_except _ _) => apply accounts_try; [| intros ?]
  | |- accounts (for_each _ _) => apply accounts_for_each; intros ?
  | |- accounts (for_return _ _) => apply accounts_for_return; intros ?
  | |- accounts (or_else _ _) => apply accounts_or_else
  | |- accounts (ret _) => apply accounts_ret
  | |- accounts (raise _) => apply accounts_raise
  | |- accounts (log _ _) => apply accounts_log
  | |- accounts (request _ _) => apply accounts_request
  | |- accounts (input _) => apply accounts_input
  | |- accounts (sys_exit _) => apply accounts_sys_exit
  | |- accounts (makedirs _ _) => apply accounts_makedirs
  | |- accounts (open_write _ _) => apply accounts_open_write
  | |- accounts (write _ _ _) => apply accounts_write
  | |- accounts (path_exists _) => apply accounts_path_exists
  | |- accounts (getsize _ _) => apply accounts_getsize
  | |- accounts (listdir_len _) => apply accounts_listdir_len
  | |- accounts (set_username _) => apply accounts_set_username
  | |- accounts (set_password _) => apply accounts_set_password
  | |- accounts get_username => apply accounts_get_username
  | |- accounts get_password => apply accounts_get_password
  | |- accounts (int_content_length _) => apply accounts_int_content_length
  | |- accounts (resource_id_of _) => apply accounts_resource_id_of
  | |- accounts (if ?b then _ else _) => destruct b
  | |- accounts (match ?x with _ => _ end) => destruct x
  | |- accounts _ => solve [eauto]
  end.

Ltac accounts_all := repeat accounts_step.

(** One syntax-directed step on a goal [adds P c]; [side] proves that an
    event is in the class. *)
Ltac adds_step side :=
  lazymatch goal with
  | |- adds _ (bind _ _) => apply adds_bind; [| intros ?]
  | |- adds _ (try_except _ _) => apply adds_try; [| intros ?]
  | |- adds _ (for_each _ _) => apply adds_for_each; intros ?
  | |- adds _ (for_return _ _) => apply adds_for_return; intros ?
  | |- adds _ (or_else _ _) => apply adds_or_else
  | |- adds _ (ret _) => apply adds_ret
  | |- adds _ (raise _) => apply adds_raise
  | |- adds _ (log _ _) => apply adds_log; side
  | |- adds _ (request _ _) => apply adds_request; side
  | |- adds _ (input _) => apply adds_input; side
  | |- adds _ (sys_exit _) => apply adds_sys_exit; side
  | |- adds _ (makedirs _ _) => apply adds_makedirs; side
  | |- adds _ (open_write _ _) => apply adds_open_write; side
  | |- adds _ (write _ _ _) => apply adds_write; side
  | |- adds _ (path_exists _) => apply adds_path_exists
  | |- adds _ (getsize _ _) => apply adds_getsize
  | |- adds _ (listdir_len _) => apply adds_listdir_len
  | |- adds _ (set_username _) => apply adds_set_username
  | |- adds _ (set_password _) => apply adds_set_password
  | |- adds _ get_username => apply adds_get_username
  | |- adds _ get_password => apply adds_get_password
  | |- adds _ (int_content_length _) => apply adds_int_content_length
  | |- adds _ (resource_id_of _) => apply adds_resource_id_of
  | |- adds _ (if ?b then _ else _) => destruct b
  | |- adds _ (match ?x with _ => _ end) => destruct x
  | |- adds _ _ => solve [eauto]
  end.

Ltac adds_with side := repeat (adds_step side).

(** ** Safe path segments *)

Lemma debug_name_safe (f : pystr) :
  safe_segment (sanitize_filename f ++ lit "_debug.html").
Proof.
  destruct (sanitize_filename_safe f) as [Hclean Hhead]. split.
  - apply Forall_app. split; [exact Hclean|].
    vm_compute. repeat constructor.
  - destruct (sanitize_filename f); [vm_compute; discriminate | exact Hhead].
Qed.

Lemma description_name_safe : safe_segment (lit "description.txt").
Proof. split; vm_compute; [repeat constructor | discriminate]. Qed.

(** Joining a safe segment extends the directory: the path starts with
    the text of the directory. *)
Lemma join_safe_prefix d name :
  safe_segment name -> exists rest, OsPath.join d name = d ++ rest.
Proof.
  intros Hs. unfold OsPath.join.
  assert (Hstart : Str.startswith name [ch_slash] = false).
  { pose proof (safe_segment_no_slash name Hs) as Hm.
    destruct name as [|c name]; [reflexivity|].
    change (Str.mem ch_slash (c :: name))
      with ((ch_slash =? c)%N || Str.mem ch_slash name) in Hm.
    apply orb_false_iff in Hm as [Hc _].
    rewrite startswith_one. exact Hc. }
  rewrite Hstart. destruct d as [|a d]; [exists name; reflexivity|].
  destruct (Str.endswith (a :: d) [ch_slash]); eauto.
Qed.

(** X1: every path within [root] starts with the text of [root]. *)
Theorem within_prefix root p :
  within root p -> exists rest, p = root ++ rest.
Proof.
  induction 1 as [|d name _ [rest ->] Hs].
  - exists []. rewrite app_nil_r. reflexivity.
  - destruct (join_safe_prefix (root ++ rest) name Hs) as [rest' ->].
    exists (rest ++ rest'). rewrite app_assoc. reflexivity.
Qed.

Lemma within_prefix_witness :
  exists rest,
    OsPath.join (OsPath.join (lit "/dl") (sanitize_filename (lit "Algebra: I")))
      (sanitize_filename (lit "../notes.pdf"))
    = lit "/dl" ++ rest.
Proof.
  apply within_prefix.
  apply within_child; [|apply sanitize_filename_safe].
  apply within_child; [|apply sanitize_filename_safe].
  apply within_root.
Defined.

Section Footprints.
Context `{PyLib} (env : Env) (cfg : Config).

Lemma login_footprint : adds login_event (login env cfg).
Proof. unfold login. adds_with ltac:(exact I). Qed.

Lemma store_response_footprint url path filename response :
  adds (store_event path)
    (store_response env cfg url path filename response).
Proof.
  unfold store_response, skip_existing, write_chunks, write_chunk.
  adds_with ltac:(first [ exact I
                        | eexists; split;
                          [apply sanitize_filename_safe | reflexivity] ]).
Qed.

Lemma download_file_rec_footprint fuel url path filename :
  adds (download_event path)
    (download_file_rec env cfg fuel url path filename).
Proof.
  assert (Hlogin : adds (download_event path) (login env cfg)).
  { apply (adds_weaken login_event); [|apply login_footprint].
    intros e He. left. exact He. }
  assert (Hstore : forall u f r,
             adds (download_event path) (store_response env cfg u path f r)).
  { intros u f r.
    apply (adds_weaken (store_event path));
      [|apply store_response_footprint].
    intros e He. right. left. exact He. }
  revert url. induction fuel as [|fuel IH]; intros url; simpl;
    adds_with ltac:(right; right; exact I).
Qed.

End Footprints.

(** ** What a download touches *)

Section DownloadFootprint.
Context `{PyLib} (env : Env) (cfg : Config).

Lemma download_file_adds url path filename :
  adds (download_event path) (download_file env cfg url path filename).
Proof. apply download_file_rec_footprint. Qed.


Lemma download_event_within root path e :
  within root path -> download_event path e -> fs_within root e.
Proof.
  intros Hw [Hl | [Hs | Ho]]; destruct e as [q|v m|p|p|p d| |n];
    simpl in *; try exact I; try contradiction;
    destruct Hs as (name & Hn & ->);
    first [ apply within_child; assumption
          | right; exists path, name; auto ].
Qed.

Lemma download_file_within root url path filename :
  within root path ->
  adds (fs_within root) (download_file env cfg url path filename).
Proof.
  intros Hw. apply (adds_weaken (download_event path));
    [|apply download_file_adds].
  intros e. apply download_event_within, Hw.
Qed.

Lemma store_event_no_relogin path e : store_event path e -> no_relogin e.
Proof. destruct e as [q|v m|p|p|p d| |n]; simpl; try tauto. destruct m; tauto. Qed.

(** X3: a URL that itself contains the login marker is never taken for
    an expired session: whatever the probe answers, the download neither
    logs in again nor reports an expiry. *)
Theorem login_in_url_never_relogs url path filename :
  Str.contains (lit "login") (absolute cfg url) = true ->
  adds no_relogin (download_file env cfg url path filename).
Proof.
  intros Hurl. unfold download_file.
  destruct (recursion_limit cfg) as [|fuel].
  - simpl. adds_with ltac:(exact I).
  - rewrite download_file_rec_unfold. cbv zeta.
    apply adds_try; [|intros e; adds_with ltac:(exact I)].
    apply adds_bind; [apply adds_request; exact I | intros hr].
    unfold session_expired. rewrite Hurl, andb_false_r.
    apply adds_bind; [apply adds_request; exact I | intros resp].
    apply (adds_weaken (store_event path));
      [apply store_event_no_relogin | apply store_response_footprint].
Qed.

End DownloadFootprint.

Lemma login_in_url_never_relogs_witness :
  adds no_relogin
    (download_file Scenario.always_expired Scenario.cfg
       (lit "https://moodle.example.org/pluginfile.php/3/login-guide.pdf")
       (lit "/dl") None).
Proof.
  apply (login_in_url_never_relogs Scenario.always_expired Scenario.cfg).
  reflexivity.
Defined.

(** ** Every change of the file system shows in the events *)

Section Accounting.
Context `{PyLib} (env : Env) (cfg : Config).

Lemma login_accounts : accounts (login env cfg).
Proof. unfold login. accounts_all. Qed.

Lemma store_response_accounts url path filename response :
  accounts (store_response env cfg url path filename response).
Proof.
  unfold store_response, skip_existing, write_chunks, write_chunk.
  accounts_all.
Qed.

Lemma download_file_rec_accounts fuel url path filename :
  accounts (download_file_rec env cfg fuel url path filename).
Proof.
  pose proof login_accounts as Hlogin.
  pose proof store_response_accounts as Hstore.
  revert url. induction fuel as [|fuel IH]; intros url; simpl; accounts_all.
Qed.

Lemma download_file_accounts url path filename :
  accounts (download_file env cfg url path filename).
Proof. apply download_file_rec_accounts. Qed.

Lemma process_resource_page_accounts url directory name :
  accounts (_process_resource_page env cfg url directory name).
Proof.
  pose proof download_file_accounts as Hdl.
  unfold _process_resource_page, try_direct, analyse_page, method1, method2,
    method3, method4, method5, method6, method7, save_debug.
  accounts_all.
Qed.

Lemma process_resources_accounts soup directory :
  accounts (_process_resources env cfg soup directory).
Proof.
  pose proof download_file_accounts as Hdl.
  pose proof process_resource_page_accounts as Hpage.
  unfold _process_resources, resource_link_body, tag_index. accounts_all.
Qed.

Lemma download_attachments_accounts page directory :
  accounts (download_attachments env cfg page directory).
Proof.
  pose proof download_file_accounts as Hdl.
  unfold download_attachments. accounts_all.
Qed.

Lemma process_folders_accounts soup directory :
  accounts (_process_folders env cfg soup directory).
Proof.
  pose proof download_attachments_accounts as Hatt.
  unfold _process_folders, folder_link_body, tag_index. accounts_all.
Qed.

Lemma process_assignments_accounts soup directory :
  accounts (_process_assignments env cfg soup directory).
Proof.
  pose proof download_attachments_accounts as Hatt.
  unfold _process_assignments, assignment_link_body, tag_index.
  accounts_all.
Qed.

Lemma process_course_accounts course :
  accounts (process_course env cfg course).
Proof.
  pose proof process_resources_accounts as Hres.
  pose proof process_folders_accounts as Hfol.
  pose proof process_assignments_accounts as Hass.
  unfold process_course. cbv zeta. accounts_all.
Qed.

Lemma run_accounts : accounts (run env cfg).
Proof.
  pose proof process_course_accounts as Hcourse.
  pose proof login_accounts as Hlogin.
  assert (Hcollect : forall pages cs,
             accounts (collect_courses env cfg pages cs)).
  { induction pages as [|page pages IH]; intros cs; simpl; accounts_all. }
  assert (Hlines : forall cs i, accounts (log_course_lines cfg i cs)).
  { induction cs as [|c cs IH]; intros i; simpl; accounts_all. }
  unfold run, get_courses, select_courses. accounts_all.
Qed.

End Accounting.

(** ** The crawl stays inside the download directory *)

Section Confinement.
Context `{PyLib} (env : Env) (cfg : Config) (root : pystr).

#[local] Hint Resolve within_child within_root sanitize_filename_safe
  debug_name_safe description_name_safe : core.

Ltac inside :=
  first [ exact I
        | solve [simpl; eauto]
        | solve [left; simpl; eauto] ].

Lemma process_resource_page_within url directory name :
  within root directory ->
  adds (fs_within root) (_process_resource_page env cfg url directory name).
Proof.
  intros Hw.
  assert (Hdl : forall u n,
             adds (fs_within root) (download_file env cfg u directory n)).
  { intros u n. apply download_file_within, Hw. }
  unfold _process_resource_page, try_direct, analyse_page, method1, method2,
    method3, method4, method5, method6, method7, save_debug.
  adds_with inside.
Qed.

Lemma process_resources_within soup directory :
  within root directory ->
  adds (fs_within root) (_process_resources env cfg soup directory).
Proof.
  intros Hw.
  assert (Hdl : forall u n,
             adds (fs_within root) (download_file env cfg u directory n)).
  { intros u n. apply download_file_within, Hw. }
  assert (Hpage : forall u n,
             adds (fs_within root)
               (_process_resource_page env cfg u directory n)).
  { intros u n. apply process_resource_page_within, Hw. }
  unfold _process_resources, resource_link_body, tag_index. adds_with inside.
Qed.

Lemma download_attachments_within page directory :
  within root directory ->
  adds (fs_within root) (download_attachments env cfg page directory).
Proof.
  intros Hw.
  assert (Hdl : forall u n,
             adds (fs_within root) (download_file env cfg u directory n)).
  { intros u n. apply download_file_within, Hw. }
  unfold download_attachments. adds_with inside.
Qed.

Lemma process_folders_within soup directory :
  within root directory ->
  adds (fs_within root) (_process_folders env cfg soup directory).
Proof.
  intros Hw.
  assert (Hatt : forall page name,
             adds (fs_within root)
               (download_attachments env cfg page
                  (OsPath.join directory (sanitize_filename name)))).
  { intros page name. apply download_attachments_within. auto. }
  unfold _process_folders, folder_link_body, tag_index. adds_with inside.
Qed.

Lemma process_assignments_within soup directory :
  within root directory ->
  adds (fs_within root) (_process_assignments env cfg soup directory).
Proof.
  intros Hw.
  assert (Hatt : forall page name,
             adds (fs_within root)
               (download_attachments env cfg page
                  (OsPath.join directory (sanitize_filename name)))).
  { intros page name. apply download_attachments_within. auto. }
  unfold _process_assignments, assignment_link_body, tag_index. adds_with inside.
Qed.

End Confinement.

Section CrawlConfinement.
Context `{PyLib} (env : Env) (cfg : Config).

Lemma process_course_within course :
  adds (fs_within (download_dir cfg)) (process_course env cfg course).
Proof.
  assert (Hres : forall soup name,
    adds (fs_within (download_dir cfg))
      (_process_resources env cfg soup
         (OsPath.join
            (OsPath.join (download_dir cfg)
               (sanitize_filename (course_name course)))
            (sanitize_filename name)))).
  { intros. apply process_resources_within. auto using within_child, within_root, sanitize_filename_safe. }
  assert (Hfol : forall soup name,
    adds (fs_within (download_dir cfg))
      (_process_folders env cfg soup
         (OsPath.join
            (OsPath.join (download_dir cfg)
               (sanitize_filename (course_name course)))
            (sanitize_filename name)))).
  { intros. apply process_folders_within. auto using within_child, within_root, sanitize_filename_safe. }
  assert (Hass : forall soup name,
    adds (fs_within (download_dir cfg))
      (_process_assignments env cfg soup
         (OsPath.join
            (OsPath.join (download_dir cfg)
               (sanitize_filename (course_name course)))
            (sanitize_filename name)))).
  { intros. apply process_assignments_within. auto using within_child, within_root, sanitize_filename_safe. }
  unfold process_course. cbv zeta.
  adds_with ltac:(first [ exact I | left; simpl; auto using within_child, within_root, sanitize_filename_safe ]).
Qed.


Lemma run_within : adds (fs_within (download_dir cfg)) (run env cfg).
Proof.
  pose proof process_course_within as Hcourse.
  assert (Hlogin : adds (fs_within (download_dir cfg)) (login env cfg)).
  { apply (adds_weaken login_event); [|apply login_footprint].
    intros e He. destruct e as [q|v m|p|p|p d| |n]; simpl in *;
      try exact I; contradiction. }
  assert (Hcollect : forall pages cs,
             adds (fs_within (download_dir cfg))
               (collect_courses env cfg pages cs)).
  { induction pages as [|page pages IH]; intros cs; simpl;
      adds_with ltac:(exact I). }
  assert (Hlines : forall cs i,
             adds (fs_within (download_dir cfg)) (log_course_lines cfg i cs)).
  { induction cs as [|c cs IH]; intros i; simpl; adds_with ltac:(exact I). }
  unfold run, get_courses, select_courses.
  adds_with ltac:(first [ exact I | left; apply within_root ]).
Qed.

(** X4: whatever the portal serves and whatever is typed, a run opens and
    writes files only at paths within the download directory, reached from
    it by joining safe segments, and calls [os.makedirs] only on such a
    path or on the directory of one.  So every entry of the file system is
    after the run as it was before, unless its path is within the download
    directory, or it is a new directory at such a path or above one:
    [os.makedirs] also makes the missing directories above the one asked
    for, those above the download directory included. *)
Theorem run_stays_in_download_dir :
  adds (fs_within (download_dir cfg)) (run env cfg)
  /\ forall (w : World) (k : pystr),
       fs (run env cfg w).2 !! k = fs w !! k
       \/ within (download_dir cfg) k
       \/ (fs w !! k = None /\ fs (run env cfg w).2 !! k = Some Dir
           /\ exists p x, within (download_dir cfg) p /\ above p x
                          /\ k = Str.rstrip x [ch_slash]).
Proof.
  split; [apply run_within|]. intros w k.
  destruct (run_within w) as (ad & E & F).
  destruct (run_accounts env cfg w) as (ad' & E' & X).
  assert (ad' = ad) as ->.
  { rewrite E in E'. symmetry. eapply app_inv_tail, E'. }
  rewrite Forall_forall in F.
  destruct (X k) as [Hsame | [Ht | (Hnone & Hdir & Hm)]].
  - left. exact Hsame.
  - right. left. apply Exists_exists in Ht as (e & Hin & Ht).
    specialize (F e Hin).
    destruct e as [q|v m|p|p|p d| |n]; simpl in *; try contradiction;
      subst p; exact F.
  - right. right. split; [exact Hnone|]. split; [exact Hdir|].
    apply Exists_exists in Hm as (e & Hin & Hm).
    specialize (F e Hin).
    destruct e as [q|v m|p|p|p d| |n]; simpl in *; try contradiction.
    destruct Hm as (x & Hx & ->).
    destruct F as [Hp | (d & name & Hd & Hn & ->)].
    + exists p, x. auto.
    + exists (OsPath.join d name), x. split; [apply within_child; assumption|].
      split; [|reflexivity].
      eapply above_trans; [apply above_dir, above_self | exact Hx].
Qed.

End CrawlConfinement.

(** ** Resolution of a resource page, further cases *)

Section ResolutionCases.
Context `{PyLib} (env : Env) (cfg : Config).

Lemma adds_bind_result (P : Event -> Prop) {A B} (c : M A) (k : A -> M B) :
  adds P c ->
  (forall a, (exists w, (c w).1 = Ret a) -> adds P (k a)) ->
  adds P (bind c k).
Proof.
  intros Hc Hk w. unfold bind.
  destruct (Hc w) as (ad & E & F).
  destruct (c w) as [[a|e|n] w1] eqn:Ec; simpl in *;
    try solve [exists ad; auto].
  assert (Ha : exists w0, (c w0).1 = Ret a) by (exists w; rewrite Ec; reflexivity).
  destruct (Hk a Ha w1) as (ad2 & E2 & F2).
  exists (ad2 ++ ad). rewrite E2, E, app_assoc. split; [reflexivity|].
  apply Forall_app; auto.
Qed.

(** The resource id depends on the URL alone. *)
Lemma resource_id_of_result url w w' :
  (resource_id_of url w).1 = (resource_id_of url w').1.
Proof.
  unfold resource_id_of.
  destruct (List.find _ _) as [[k [|v vs]]|]; reflexivity.
Qed.

Lemma download_event_not_late path e : download_event path e -> not_late e.
Proof.
  intros [Hl | [Hs | Ho]]; destruct e as [q|v m|p|p|p d| |n];
    simpl in *; try exact I; destruct m; simpl in *; tauto.
Qed.

(** X5: for a resource URL with an [id] parameter the chain ends at the
    content endpoint at the latest: the extension match, the alternative
    links, the pattern guesses and the debug dump are never reached. *)
Theorem id_ends_chain_at_content_endpoint url directory name w rid :
  (resource_id_of (absolute cfg url) w).1 = Ret rid ->
  truthy_opt rid = true ->
  adds not_late (_process_resource_page env cfg url directory name).
Proof.
  intros Hrid Hid.
  assert (Hdl : forall u n,
             adds not_late (download_file env cfg u directory n)).
  { intros u n. apply (adds_weaken (download_event directory));
      [apply download_event_not_late | apply download_file_adds]. }
  unfold _process_resource_page.
  apply adds_try; [|intros e; adds_with ltac:(exact I)].
  apply adds_bind; [apply adds_log; exact I | intros _].
  apply adds_bind_result; [apply adds_resource_id_of|].
  intros rid' [w' Hw'].
  rewrite (resource_id_of_result _ w' w), Hrid in Hw'.
  injection Hw' as <-.
  apply adds_or_else; [unfold try_direct; adds_with ltac:(exact I)|].
  unfold analyse_page.
  apply adds_bind; [apply adds_request; exact I | intros response].
  apply adds_bind; [apply adds_log; exact I | intros _].
  apply adds_or_else; [unfold method1; adds_with ltac:(exact I)|].
  apply adds_or_else; [unfold method2; adds_with ltac:(exact I)|].
  apply adds_or_else; [unfold method3; adds_with ltac:(exact I)|].
  apply adds_or_else_returns;
    [unfold method4; adds_with ltac:(exact I)|].
  intros w0. apply method4_returns, Hid.
Qed.

End ResolutionCases.

Lemma id_ends_chain_at_content_endpoint_witness :
  adds not_late
    (_process_resource_page (Scenario.resource_portal Scenario.script_page)
       Scenario.cfg Scenario.page_url (lit "/dl") Scenario.slides).
Proof.
  apply (id_ends_chain_at_content_endpoint
           (Scenario.resource_portal Scenario.script_page) Scenario.cfg
           Scenario.page_url (lit "/dl") Scenario.slides
           (Scenario.start []) (Some (lit "42")));
    reflexivity.
Defined.

(** ** Further cases of a download *)

Section DownloadMore.
Context `{PyLib} (env : Env) (cfg : Config).

Lemma skip_existing_force hs filename full_path w :
  force_download cfg = true ->
  skip_existing env cfg hs filename full_path w = (Ret None, w).
Proof. intros Hf. unfold skip_existing. rewrite Hf. reflexivity. Qed.

Lemma write_loop_from_scratch fp chunks w :
  (forall t, os_refuses env t = false) ->
  can_open (fs w) fp = true ->
  exists w',
    bind (open_write env fp)
      (fun _ => for_each chunks (write_chunk env fp)) w = (Ret tt, w')
    /\ fs w' = <[fp := File (concat chunks)]> (fs w).
Proof.
  intros Hos Hopen. unfold bind at 1.
  rewrite (open_write_ok env _ _ Hopen (Hos _)).
  set (w1 := set_fs (<[fp := File []]> (fs w)) (interact (EvOpen fp) w)).
  assert (Hfile1 : fs w1 !! fp = Some (File [])).
  { subst w1. simpl. apply lookup_insert_eq. }
  destruct (write_loop env fp chunks Hos w1 [] Hfile1) as (w' & E & Hfs).
  exists w'. split; [exact E|].
  rewrite Hfs. subst w1. simpl. apply insert_insert_eq.
Qed.

(** Lines 369-381 when the file can be opened and the system accepts the
    writes: the body received replaces what was at the path, and a broken
    connection raises after that. *)
Lemma write_chunks_result fp response w :
  (forall t, os_refuses env t = false) ->
  can_open (fs w) fp = true ->
  exists w',
    write_chunks env fp response w
      = ((if resp_broken response then Raise TransportError else Ret tt), w')
    /\ fs w' = <[fp := File (concat (resp_chunks response))]> (fs w).
Proof.
  intros Hos Hopen.
  destruct (write_loop_from_scratch fp (resp_chunks response) w Hos Hopen)
    as (w' & E & Hfs).
  exists w'. split; [|exact Hfs].
  unfold write_chunks. unfold bind at 1 in E.
  unfold bind at 1.
  destruct (open_write env fp w) as [[[]|e|n] w0]; try discriminate.
  unfold bind at 1. rewrite E.
  destruct (resp_broken response); reflexivity.
Qed.

(** A download that has nothing to skip writes the body. *)
Lemma store_response_writes url path filename response w n :
  let hs := resp_headers response in
  let fp := full_path_of url path filename hs in
  isdir (fs w) (OsPath.dirname fp) = true ->
  entry (fs w) fp = None
  \/ (force_download cfg = true /\ exists d, entry (fs w) fp = Some (File d)) ->
  expected_size_of hs = Some n -> n <> 0%Z ->
  (forall t, os_refuses env t = false) ->
  exists w',
    store_response env cfg url path filename response w
      = ((if resp_broken response then Raise TransportError
          else Ret (Some fp)), w')
    /\ fs w' = <[fp := File (concat (resp_chunks response))]> (fs w).
Proof.
  intros hs fp Hdir Hfree Hn Hn0 Hos.
  destruct (store_response_eq env cfg url path filename response w)
    as (w1 & Hfs1 & Hreq1 & ->).
  fold hs fp. rewrite <- Hfs1 in Hdir, Hfree.
  destruct (makedirs_cases env (OsPath.dirname fp) w1)
    as (r & w2 & Emk & _ & _ & _ & _ & Hex).
  destruct (Hex Hdir) as [-> ->].
  unfold bind at 1. rewrite Emk.
  assert (Hskip : skip_existing env cfg hs (final_filename url filename hs)
                    fp w1 = (Ret None, w1)).
  { destruct Hfree as [Hnone | [Hforce _]];
      [apply skip_existing_absent, Hnone | apply skip_existing_force, Hforce]. }
  unfold or_else, bind at 1. rewrite Hskip.
  unfold bind at 1. rewrite int_content_length_eq, Hn.
  apply Z.eqb_neq in Hn0. rewrite Hn0.
  assert (Hopen : can_open (fs w1) fp = true).
  { destruct Hfree as [Hnone | [_ [d Hfile]]].
    - apply free_path_can_open; assumption.
    - eapply can_open_file, entry_file_raw, Hfile. }
  destruct (write_chunks_result fp response w1 Hos Hopen) as (w' & E & Hfs).
  exists w'. split; [|rewrite Hfs, Hfs1; reflexivity].
  unfold bind. rewrite E. destruct (resp_broken response); reflexivity.
Qed.

(** A complete transfer with nothing to skip stores the body. *)
Lemma download_file_stores url path filename w hr resp n :
  let url' := absolute cfg url in
  let hs := resp_headers resp in
  let fp := full_path_of url' path filename hs in
  recursion_limit cfg <> 0 ->
  transport env (clock w) (HEAD url') = Some hr ->
  session_expired hr url' = false ->
  transport env (S (clock w)) (GET url' true true) = Some resp ->
  isdir (fs w) (OsPath.dirname fp) = true ->
  entry (fs w) fp = None
  \/ (force_download cfg = true /\ exists d, entry (fs w) fp = Some (File d)) ->
  expected_size_of hs = Some n -> n <> 0%Z ->
  (forall t, os_refuses env t = false) ->
  resp_broken resp = false ->
  let out := download_file env cfg url path filename w in
  out.1 = Ret (Some fp)
  /\ fs out.2 = <[fp := File (concat (resp_chunks resp))]> (fs w).
Proof.
  intros url' hs fp Hrl Hhead Hexp Hget Hdir Hfree Hn Hn0 Hos Hbr out.
  subst out.
  rewrite (download_file_live env cfg url path filename w hr resp
             Hrl Hhead Hexp Hget).
  fold url'. set (w2 := interact _ (interact _ w)).
  destruct (store_response_writes url' path filename resp w2 n
              Hdir Hfree Hn Hn0 Hos) as (w' & E & Hfs).
  unfold try_except. rewrite E, Hbr. split; [reflexivity | exact Hfs].
Qed.

(** X6: with a live session, the directory of the target in place,
    nothing to skip (nothing exists at the target path, or the force flag
    is set and a file is there), a length other than zero announced and
    the system accepting the writes, a complete transfer stores exactly
    the body received at the target path and returns that path. *)
Theorem download_stores_body url path filename w hr resp n :
  let url' := absolute cfg url in
  let hs := resp_headers resp in
  let fp := full_path_of url' path filename hs in
  recursion_limit cfg <> 0 ->
  transport env (clock w) (HEAD url') = Some hr ->
  session_expired hr url' = false ->
  transport env (S (clock w)) (GET url' true true) = Some resp ->
  isdir (fs w) (OsPath.dirname fp) = true ->
  entry (fs w) fp = None
  \/ (force_download cfg = true /\ exists d, entry (fs w) fp = Some (File d)) ->
  expected_size_of hs = Some n -> n <> 0%Z ->
  (forall t, os_refuses env t = false) ->
  resp_broken resp = false ->
  let out := download_file env cfg url path filename w in
  out.1 = Ret (Some fp)
  /\ fs out.2 = <[fp := File (concat (resp_chunks resp))]> (fs w).
Proof.
  intros url' hs fp Hrl Hhead Hexp Hget Hdir Hfree Hn Hn0 Hos Hbr.
  exact (download_file_stores url path filename w hr resp n
           Hrl Hhead Hexp Hget Hdir Hfree Hn Hn0 Hos Hbr).
Qed.

(** X7: in the same situation a transfer that breaks makes the download
    fail ([None]) and leaves at the target path the part of the body that
    had arrived: the partial file is not removed. *)
Theorem broken_transfer_leaves_partial_file url path filename w hr resp n :
  let url' := absolute cfg url in
  let hs := resp_headers resp in
  let fp := full_path_of url' path filename hs in
  recursion_limit cfg <> 0 ->
  transport env (clock w) (HEAD url') = Some hr ->
  session_expired hr url' = false ->
  transport env (S (clock w)) (GET url' true true) = Some resp ->
  isdir (fs w) (OsPath.dirname fp) = true ->
  entry (fs w) fp = None
  \/ (force_download cfg = true /\ exists d, entry (fs w) fp = Some (File d)) ->
  expected_size_of hs = Some n -> n <> 0%Z ->
  (forall t, os_refuses env t = false) ->
  resp_broken resp = true ->
  let out := download_file env cfg url path filename w in
  out.1 = Ret None
  /\ fs out.2 = <[fp := File (concat (resp_chunks resp))]> (fs w).
Proof.
  intros url' hs fp Hrl Hhead Hexp Hget Hdir Hfree Hn Hn0 Hos Hbr out.
  subst out.
  rewrite (download_file_live env cfg url path filename w hr resp
             Hrl Hhead Hexp Hget).
  fold url'. set (w2 := interact _ (interact _ w)).
  destruct (store_response_writes url' path filename resp w2 n
              Hdir Hfree Hn Hn0 Hos) as (w' & E & Hfs).
  unfold try_except. rewrite E, Hbr. split; [reflexivity | exact Hfs].
Qed.

(** X8: when the probe itself fails (the transport raises), the download
    returns [None]; the GET is never sent and the file system is left as
    it was. *)
Theorem failed_probe_gives_none url path filename w :
  let url' := absolute cfg url in
  recursion_limit cfg <> 0 ->
  transport env (clock w) (HEAD url') = None ->
  let out := download_file env cfg url path filename w in
  out.1 = Ret None
  /\ fs out.2 = fs w
  /\ requests_of (trace out.2) = HEAD url' :: requests_of (trace w).
Proof.
  intros url' Hrl Hhead out. subst out. unfold download_file.
  destruct (recursion_limit cfg) as [|fuel]; [contradiction|].
  assert (E : download_file_rec env cfg (S fuel) url path filename w
              = (Ret None,
                 logged cfg (ErrorDownloading url' TransportError)
                   (interact (EvRequest (HEAD url')) w))).
  { rewrite download_file_rec_unfold. fold url'. cbv zeta.
    unfold try_except, bind at 1, request. rewrite Hhead. reflexivity. }
  rewrite E. repeat split; reflexivity.
Qed.

End DownloadMore.

Section DownloadErrors.
Context `{PyLib} (env : Env) (cfg : Config).

(** Lines 344-358 when the announced length is not a number: the lines
    either fall through or raise, and change nothing. *)
Lemma skip_existing_unparsed hs filename full_path w :
  expected_size_of hs = None ->
  exists r,
    skip_existing env cfg hs filename full_path w = (r, w)
    /\ (r = Ret None \/ exists e, r = Raise e).
Proof.
  intros Hn. unfold skip_existing.
  destruct (force_download cfg); [eauto|].
  cbv beta iota delta [bind path_exists getsize exists_at].
  destruct (entry (fs w) full_path) as [[d|]|] eqn:E; cbn [negb]; [| |eauto].
  all: rewrite E; cbn [negb].
  all: match goal with
       | |- context [if negb ?b then _ else _] => destruct b
       end; cbn [negb]; [|eauto].
  all: rewrite E; cbn [negb]; rewrite int_content_length_eq, Hn; eauto.
Qed.

Lemma store_response_unparsed url path filename response w :
  expected_size_of (resp_headers response) = None ->
  exists e w',
    store_response env cfg url path filename response w = (Raise e, w')
    /\ same_files (fs w) (fs w').
Proof.
  intros Hn.
  destruct (store_response_eq env cfg url path filename response w)
    as (w1 & Hfs1 & Hreq1 & ->).
  rewrite <- Hfs1.
  set (fp := full_path_of url path filename (resp_headers response)).
  destruct (makedirs_cases env (OsPath.dirname fp) w1)
    as (r & w2 & Emk & Hr & Hreq2 & Hgrow & _ & Hex).
  assert (Hsame : same_files (fs w1) (fs w2)) by apply same_files_grown, Hgrow.
  unfold bind at 1. rewrite Emk.
  destruct Hr as [-> | [e ->]]; [|eauto].
  destruct (skip_existing_unparsed (resp_headers response)
              (final_filename url filename (resp_headers response)) fp w2 Hn)
    as (r & Es & Hr).
  unfold or_else, bind at 1. rewrite Es.
  destruct Hr as [-> | [e ->]]; [|eauto].
  unfold bind. rewrite int_content_length_eq, Hn. eauto.
Qed.

(** X9: a Content-Length header that is not a number makes the download
    fail ([None]): the [ValueError] of [int] is caught, and no file is
    created or changed. *)
Theorem unparsable_length_gives_none url path filename w hr resp s :
  let url' := absolute cfg url in
  recursion_limit cfg <> 0 ->
  transport env (clock w) (HEAD url') = Some hr ->
  session_expired hr url' = false ->
  transport env (S (clock w)) (GET url' true true) = Some resp ->
  content_length (resp_headers resp) = Some s ->
  py_int s = None ->
  let out := download_file env cfg url path filename w in
  out.1 = Ret None /\ same_files (fs w) (fs out.2).
Proof.
  intros url' Hrl Hhead Hexp Hget Hlen Hint out. subst out.
  rewrite (download_file_live env cfg url path filename w hr resp
             Hrl Hhead Hexp Hget).
  fold url'. set (w2 := interact _ (interact _ w)).
  assert (Hn : expected_size_of (resp_headers resp) = None).
  { unfold expected_size_of. rewrite Hlen. exact Hint. }
  destruct (store_response_unparsed url' path filename resp w2 Hn)
    as (e & w' & E & Hsame).
  unfold try_except. rewrite E. split; [reflexivity | exact Hsame].
Qed.

(** A login that the portal rejects ends the process with status 1. *)
Lemma login_rejected w :
  let login_url := urljoin (base_url cfg) (lit "/login/index.php") in
  (forall t, is_Some (transport env t (GET login_url true false))) ->
  (forall t data, exists r,
      transport env t (POST login_url data) = Some r
      /\ Str.any_in login_markers (resp_text r) = true) ->
  exists w',
    login env cfg w = (Exit 1%Z, w')
    /\ head (trace w') = Some (EvExit 1%Z)
    /\ fs w' = fs w.
Proof.
  intros login_url Hget Hpost. unfold login. fold login_url.
  destruct (Hget (clock w)) as [r0 E0].
  unfold bind at 1. rewrite (request_ok env _ _ _ E0).
  destruct (login_token (resp_soup r0)) as [token_name token].
  cbv beta iota delta [bind get_username get_password set_username
                       set_password input ret].
  cbn [username password interact].
  repeat (match goal with
          | |- context [if truthy_opt ?x then _ else _] =>
              destruct (truthy_opt x)
          end; cbn [username password interact clock]);
    (match goal with
     | |- context [request env (POST ?u ?d) ?w0] =>
         destruct (Hpost (clock w0) d) as (r1 & E1 & Hm);
         rewrite (request_ok env _ _ _ E1), Hm
     end);
    eexists; (split; [reflexivity|]); split; reflexivity.
Qed.

(** X10: when the portal rejects the credentials (its answer to the login
    form shows a login-page marker), [login] ends the process with exit
    status 1; it never returns a failure to its caller. *)
Theorem rejected_login_exits w :
  (forall t, is_Some (transport env t
       (GET (urljoin (base_url cfg) (lit "/login/index.php")) true false))) ->
  (forall t data, exists r,
      transport env t
        (POST (urljoin (base_url cfg) (lit "/login/index.php")) data) = Some r
      /\ Str.any_in login_markers (resp_text r) = true) ->
  (login env cfg w).1 = Exit 1%Z
  /\ head (trace (login env cfg w).2) = Some (EvExit 1%Z).
Proof.
  intros Hget Hpost.
  destruct (login_rejected w Hget Hpost) as (w' & E & Hh & _).
  rewrite E. split; [reflexivity | exact Hh].
Qed.

(** X11: an expired session whose renewal the portal rejects ends the
    process from inside [download_file]: the exit is not an [Exception],
    so the handler of the download does not turn it into [None]. *)
Theorem expired_and_rejected_exits url path filename w hr :
  let url' := absolute cfg url in
  recursion_limit cfg <> 0 ->
  transport env (clock w) (HEAD url') = Some hr ->
  session_expired hr url' = true ->
  (forall t, is_Some (transport env t
       (GET (urljoin (base_url cfg) (lit "/login/index.php")) true false))) ->
  (forall t data, exists r,
      transport env t
        (POST (urljoin (base_url cfg) (lit "/login/index.php")) data) = Some r
      /\ Str.any_in login_markers (resp_text r) = true) ->
  let out := download_file env cfg url path filename w in
  out.1 = Exit 1%Z /\ fs out.2 = fs w.
Proof.
  intros url' Hrl Hhead Hexp Hget Hpost out. subst out. unfold download_file.
  destruct (recursion_limit cfg) as [|fuel]; [contradiction|].
  destruct (login_rejected
              (logged cfg SessionExpired (interact (EvRequest (HEAD url')) w))
              Hget Hpost) as (w' & E & _ & Hfs).
  assert (Eq : download_file_rec env cfg (S fuel) url path filename w
               = (Exit 1%Z, w')).
  { rewrite download_file_rec_unfold. fold url'. cbv zeta.
    unfold try_except, bind at 1.
    rewrite (request_ok env _ _ _ Hhead), Hexp.
    unfold bind at 1. rewrite log_eq.
    unfold bind at 1. rewrite E. reflexivity. }
  rewrite Eq. split; [reflexivity | exact Hfs].
Qed.

(** X12: in a portal that serves the file the same way each time, with the
    force flag unset, a first download to a free path in an existing
    directory stores the body; when that body is not empty and its size is
    within 100 bytes of the announced length, a second download returns
    the same path and leaves the file system exactly as the first one left
    it. *)
Theorem download_twice_is_idempotent url path filename w hr resp n :
  let url' := absolute cfg url in
  let hs := resp_headers resp in
  let fp := full_path_of url' path filename hs in
  let body := concat (resp_chunks resp) in
  recursion_limit cfg <> 0 ->
  force_download cfg = false ->
  (forall t, transport env t (HEAD url') = Some hr) ->
  session_expired hr url' = false ->
  (forall t, transport env t (GET url' true true) = Some resp) ->
  (forall t, os_refuses env t = false) ->
  resp_broken resp = false ->
  isdir (fs w) (OsPath.dirname fp) = true ->
  entry (fs w) fp = None ->
  expected_size_of hs = Some n -> n <> 0%Z ->
  body <> [] ->
  (Z.abs (Z.of_nat (length body) - n) < 100)%Z ->
  let first := download_file env cfg url path filename w in
  let second := download_file env cfg url path filename first.2 in
  first.1 = Ret (Some fp)
  /\ fs first.2 = <[fp := File body]> (fs w)
  /\ second.1 = Ret (Some fp)
  /\ fs second.2 = fs first.2.
Proof.
  intros url' hs fp body Hrl Hforce Hhead Hexp Hget Hos Hbr Hdir Hnone
    Hn Hn0 Hbody Htol first second.
  destruct (download_file_stores env cfg url path filename w hr resp n)
    as (H1 & Hfs1); try assumption; try apply Hhead; try apply Hget.
  { left. exact Hnone. }
  fold first in H1, Hfs1. fold url' hs fp body in H1, Hfs1.
  destruct (free_path_plain _ _ Hnone Hdir) as [Hp Hend].
  pose proof (plain_path_shorter fp Hp Hend) as Hshort.
  destruct (download_file_keeps env cfg url path filename first.2 hr resp
              body n) as (H2 & Hfs2 & _);
    try assumption; try apply Hhead; try apply Hget.
  - fold url' hs fp. rewrite Hfs1. apply lookup_insert_eq.
  - fold url' hs fp. rewrite Hfs1. apply isdir_insert_file; assumption.
  - right. exact Htol.
  - fold second in H2, Hfs2. auto.
Qed.

End DownloadErrors.

Section ResolutionEnds.
Context `{PyLib} (env : Env) (cfg : Config).

(** X13: when the redirect probe is answered by a redirect with a
    [Location], resolving the resource is downloading that location: the
    resource page itself is never fetched and no other method runs. *)
Theorem redirect_is_followed url directory name w rid resp loc :
  let url' := absolute cfg url in
  let direct_url :=
    base_url cfg ++ lit "/mod/resource/view.php?id="
      ++ default [] rid ++ lit "&redirect=1" in
  let w1 := logged cfg (TryingDirect direct_url)
              (logged cfg (FetchingResourcePage url') w) in
  (resource_id_of url' w).1 = Ret rid ->
  truthy_opt rid = true ->
  Str.contains (lit "resource/view.php") url' = true ->
  transport env (clock w) (GET direct_url false false) = Some resp ->
  existsb (Z.eqb (status_code resp)) redirect_codes = true ->
  location (resp_headers resp) = Some loc ->
  _process_resource_page env cfg url directory name w =
  download_file env cfg (absolute cfg loc) directory name
    (logged cfg (RedirectedTo (absolute cfg loc))
       (interact (EvRequest (GET direct_url false false)) w1)).
Proof.
  intros url' direct_url w1 Hrid Hid Hview Hget Hcode Hloc.
  unfold _process_resource_page. fold url'.
  unfold try_except, bind at 1. rewrite log_eq.
  set (w0 := logged cfg (FetchingResourcePage url') w).
  unfold bind at 1.
  pose proof (resource_id_of_world url' w0) as Hw.
  pose proof (resource_id_of_result url' w0 w) as Hr. rewrite Hrid in Hr.
  destruct (resource_id_of url' w0) as [r0 w0'].
  cbn [fst snd] in Hr, Hw. subst r0 w0'.
  unfold or_else at 1, bind at 1, try_direct.
  rewrite Hid, Hview. cbn [andb]. fold direct_url.
  unfold bind at 1. rewrite log_eq. fold w1.
  unfold bind at 1. rewrite (request_ok env _ resp); [|exact Hget].
  rewrite Hloc, Hcode.
  unfold bind at 1. rewrite log_eq.
  unfold bind at 1.
  pose proof (no_raise_download_file env cfg (absolute cfg loc) directory name
                (logged cfg (RedirectedTo (absolute cfg loc))
                   (interact (EvRequest (GET direct_url false false)) w1)))
    as Hnr.
  destruct (download_file _ _ _ _ _ _) as [[r|e|n] w4]; try reflexivity.
  exfalso. exact (Hnr e eq_refl).
Qed.

(** Lines 655-664 when the file can be opened and the system accepts the
    writes. *)
Lemma save_debug_result url directory name text w :
  let debug_file :=
    OsPath.join directory
      (sanitize_filename (name_or_resource name) ++ lit "_debug.html") in
  can_open (fs w) debug_file = true ->
  (forall t, os_refuses env t = false) ->
  exists w',
    save_debug env cfg url directory name text w = (Ret None, w')
    /\ fs w' = <[debug_file := File (encode_utf8 text)]> (fs w).
Proof.
  intros debug_file Hopen Hos. unfold save_debug. fold debug_file.
  unfold bind at 1. rewrite log_eq.
  unfold bind at 1.
  rewrite (open_write_ok env) by (first [exact Hopen | apply Hos]).
  unfold bind at 1, write. rewrite Hos. cbn [fs set_fs interact logged].
  rewrite lookup_insert_eq.
  eexists. split; [reflexivity|]. cbn. rewrite insert_insert_eq.
  reflexivity.
Qed.

(** X14: for a resource URL without an [id], on a page that offers
    nothing (no anchor, frame, media element or script), when the
    directory of the debug file exists, no directory is in the place of
    that file and the system accepts the writes, the resolution returns
    [None] and saves the text of the page in the debug file, named after
    the sanitized resource name. *)
Theorem unresolved_page_is_dumped url directory name w resp :
  let url' := absolute cfg url in
  let soup := resp_soup resp in
  let debug_file :=
    OsPath.join directory
      (sanitize_filename (name_or_resource name) ++ lit "_debug.html") in
  (resource_id_of url' w).1 = Ret None ->
  transport env (clock w) (GET url' true false) = Some resp ->
  soup_download soup = [] -> soup_links soup = [] ->
  soup_frames soup = [] -> soup_media soup = [] ->
  soup_scripts soup = [] -> soup_alt soup = [] ->
  isdir (fs w) (OsPath.dirname debug_file) = true ->
  isdir (fs w) debug_file = false ->
  (forall t, os_refuses env t = false) ->
  let out := _process_resource_page env cfg url directory name w in
  out.1 = Ret None
  /\ fs out.2 = <[debug_file := File (encode_utf8 (resp_text resp))]> (fs w).
Proof.
  intros url' soup debug_file Hrid Hget Hd Hl Hf Hm Hs Ha Hdir Hnd Hos out.
  set (w0 := logged cfg (FetchingResourcePage url') w).
  set (w2 := logged cfg PageTitle
               (interact (EvRequest (GET url' true false)) w0)).
  assert (Hopen : can_open (fs w2) debug_file = true).
  { apply can_open_if; assumption. }
  destruct (save_debug_result url' directory name (resp_text resp) w2
              Hopen Hos) as (w' & Esave & Hfs).
  assert (E : _process_resource_page env cfg url directory name w
              = (Ret None, w')).
  { unfold _process_resource_page. fold url'.
    unfold try_except, bind at 1. rewrite log_eq. fold w0.
    unfold bind at 1.
    pose proof (resource_id_of_world url' w0) as Hw.
    pose proof (resource_id_of_result url' w0 w) as Hr. rewrite Hrid in Hr.
    destruct (resource_id_of url' w0) as [r0 w0'].
    cbn [fst snd] in Hr, Hw. subst r0 w0'.
    unfold or_else at 1, bind at 1, try_direct. cbn [truthy_opt andb ret].
    unfold analyse_page, bind at 1.
    rewrite (request_ok env _ resp); [|exact Hget].
    unfold bind at 1. rewrite log_eq. fold w2.
    unfold method1, method2, method3, method4, method5, method6, method7,
      download_links, embedded_sources.
    fold soup. rewrite Hd, Hl, Hf, Hm, Hs, Ha.
    cbn [List.filter app flat_map map truthy_opt andb].
    rewrite andb_false_r.
    cbv beta iota delta [or_else bind for_return ret].
    rewrite Esave. reflexivity. }
  subst out. rewrite E. split; [reflexivity | exact Hfs].
Qed.

End ResolutionEnds.

(** ** More on names and extensions *)

Lemma last_rev (l : pystr) : last (rev l) = head l.
Proof. destruct l as [|a l]; [reflexivity|]. simpl. apply last_snoc. Qed.

Lemma head_rev (l : pystr) : head (rev l) = last l.
Proof. rewrite <- (rev_involutive l) at 2. symmetry. apply last_rev. Qed.

Lemma dropwhile_id (f : char -> bool) (s : pystr) :
  (forall c, head s = Some c -> f c = false) -> Str.dropwhile f s = s.
Proof.
  destruct s as [|c s]; [reflexivity|]. intros Hh. simpl.
  rewrite (Hh c eq_refl). reflexivity.
Qed.

Lemma strip_last (s chars : pystr) (c : char) :
  last (Str.strip s chars) = Some c -> Str.mem c chars = false.
Proof.
  unfold Str.strip, Str.rstrip. rewrite last_rev.
  apply (dropwhile_head (fun c => Str.mem c chars)).
Qed.

Lemma strip_strip (s chars : pystr) :
  Str.strip (Str.strip s chars) chars = Str.strip s chars.
Proof.
  set (t := Str.strip s chars).
  unfold Str.strip at 1, Str.lstrip, Str.rstrip.
  rewrite (dropwhile_id _ t) by (intros c; apply strip_head).
  rewrite (dropwhile_id _ (rev t)).
  - apply rev_involutive.
  - intros c. rewrite head_rev. apply strip_last.
Qed.

Lemma re_sub_illegal_id (s : pystr) :
  Forall (fun c => is_illegal c = false) s -> re_sub_illegal s = s.
Proof.
  induction 1 as [|c s Hc _ IH]; [reflexivity|].
  unfold re_sub_illegal in *. simpl. rewrite Hc, IH. reflexivity.
Qed.

(** X15: when the name, once its characters are replaced and its ends
    stripped, fits in 100 characters, the sanitized name does not end with
    a dot or a space either, and sanitizing it again changes nothing. *)
Theorem sanitize_filename_short (s : pystr) :
  length (Str.strip (re_sub_illegal s) (lit ". ")) <= 100 ->
  (forall c, last (sanitize_filename s) = Some c ->
             c <> ch_dot /\ c <> ch_space)
  /\ sanitize_filename (sanitize_filename s) = sanitize_filename s.
Proof.
  intros Hlen.
  assert (E : sanitize_filename s = Str.strip (re_sub_illegal s) (lit ". ")).
  { unfold sanitize_filename, Str.slice_to. apply take_ge, Hlen. }
  split.
  - intros c Hc. rewrite E in Hc. apply strip_last in Hc.
    split; intros ->; vm_compute in Hc; discriminate.
  - rewrite E at 1. unfold sanitize_filename at 1, Str.slice_to.
    rewrite re_sub_illegal_id by (apply Forall_strip, re_sub_illegal_clean).
    rewrite strip_strip, take_ge by exact Hlen. symmetry. exact E.
Qed.

Lemma sanitize_filename_short_witness :
  (forall c, last (sanitize_filename (lit " ..Week 1: intro?. ")) = Some c ->
             c <> ch_dot /\ c <> ch_space)
  /\ sanitize_filename (sanitize_filename (lit " ..Week 1: intro?. "))
     = sanitize_filename (lit " ..Week 1: intro?. ").
Proof.
  apply sanitize_filename_short. vm_compute. repeat constructor.
Defined.

Lemma endswith_one (a : pystr) (c : char) :
  Str.endswith a [c] = true -> exists a', a = a' ++ [c].
Proof.
  unfold Str.endswith. intros Hs. apply startswith_inv in Hs.
  simpl in Hs. exists (rev (drop 1 (rev a))).
  rewrite <- (rev_involutive a) at 1. rewrite Hs. reflexivity.
Qed.

(** X16: a safe name joined to a directory is the last component of the
    result: the name cannot move the file into another directory. *)
Theorem joined_name_is_basename (path name : pystr) :
  safe_segment name -> OsPath.basename (OsPath.join path name) = name.
Proof.
  intros Hs. pose proof (safe_segment_no_slash name Hs) as Hno.
  unfold OsPath.basename, OsPath.join.
  assert (Hstart : Str.startswith name [ch_slash] = false).
  { destruct name as [|c name]; [reflexivity|].
    change (Str.mem ch_slash (c :: name))
      with ((ch_slash =? c)%N || Str.mem ch_slash name) in Hno.
    apply orb_false_iff in Hno as [Hc _].
    rewrite startswith_one. exact Hc. }
  rewrite Hstart. destruct path as [|a path].
  - apply after_last_absent, Hno.
  - destruct (Str.endswith (a :: path) [ch_slash]) eqn:Ee.
    + destruct (endswith_one _ _ Ee) as [a' ->].
      rewrite <- app_assoc. simpl. apply after_last_app, Hno.
    + apply after_last_app, Hno.
Qed.

Lemma joined_name_is_basename_witness :
  OsPath.basename
    (OsPath.join (lit "/dl/Algebra")
       (sanitize_filename (lit "../../etc/passwd")))
  = sanitize_filename (lit "../../etc/passwd").
Proof. apply joined_name_is_basename, sanitize_filename_safe. Defined.

Section ExtensionMore.
Context `{PyLib}.

Lemma common_formats_nonempty :
  Forall (fun fe => truthy (snd fe) = true) common_formats.
Proof. vm_compute. repeat constructor. Qed.

(** X17: the extension resolver always answers with a non-empty string,
    whatever the URL, the headers, the original file name and the library
    tables are. *)
Theorem get_file_extension_nonempty url response_headers original_filename :
  truthy (get_file_extension url response_headers original_filename) = true.
Proof.
  unfold get_file_extension.
  destruct (ext_of_original original_filename) as [ext|] eqn:E1.
  { unfold ext_of_original in E1.
    destruct original_filename as [f|]; [|discriminate].
    destruct (truthy f); [|discriminate].
    destruct (truthy (snd (OsPath.splitext f))) eqn:Et; [|discriminate].
    injection E1 as <-. exact Et. }
  destruct (ext_of_url_path url) as [ext|] eqn:E2.
  { unfold ext_of_url_path in E2.
    destruct (truthy _ && _) eqn:Et; [|discriminate].
    injection E2 as <-. apply andb_true_iff in Et as [Et _]. exact Et. }
  destruct (ext_of_content_type response_headers) as [ext|] eqn:E3.
  { unfold ext_of_content_type in E3.
    destruct response_headers as [hs|]; [|discriminate].
    destruct (content_type hs) as [ct|]; [|discriminate].
    destruct (guess_extension _) as [e|]; [|discriminate].
    destruct (truthy e) eqn:Et; [|discriminate].
    injection E3 as <-. exact Et. }
  destruct (ext_of_pattern url) as [ext|] eqn:E4.
  { unfold ext_of_pattern in E4.
    destruct (Re.search_digits (lit "pdf=") url);
      [injection E4 as <-; reflexivity|].
    destruct (Re.search_digits (lit "doc=") url);
      [injection E4 as <-; reflexivity | discriminate]. }
  destruct (ext_of_format url) as [ext|] eqn:E5; [|reflexivity].
  unfold ext_of_format in E5.
  destruct (List.find _ common_formats) as [fe|] eqn:Ef; [|discriminate].
  injection E5 as <-. apply find_some in Ef as [Hin _].
  pose proof common_formats_nonempty as Hall.
  rewrite Forall_forall in Hall. apply Hall.
  apply list_elem_of_In. exact Hin.
Qed.

End ExtensionMore.

(** ** More on course discovery, sections and the selection *)

(** X18: what holds of every sanitized name: at most 100 characters, none
    of the nine replaced characters, no dot and no space in front. *)
Theorem sanitize_filename_clean (s : pystr) :
  length (sanitize_filename s) <= 100
  /\ Forall (fun c => is_illegal c = false) (sanitize_filename s)
  /\ head (sanitize_filename s) <> Some ch_dot
  /\ head (sanitize_filename s) <> Some ch_space.
Proof.
  split; [apply sanitize_filename_length|].
  split; [apply sanitize_filename_no_illegal|].
  split; intros Hh; apply sanitize_filename_head in Hh as [Hd Hs];
    congruence.
Qed.

Lemma dedup_fold_sublist (l acc : list Course) (seen : gset pystr) :
  exists kept, (fold_left dedup_step l (acc, seen)).1 = acc ++ kept
               /\ sublist kept l.
Proof.
  revert acc seen. induction l as [|c l IH]; intros acc seen.
  - exists []. rewrite app_nil_r. split; [reflexivity | constructor].
  - simpl. case_bool_decide.
    + destruct (IH acc seen) as (kept & E & Hs).
      exists kept. split; [exact E | apply sublist_cons, Hs].
    + destruct (IH (acc ++ [c]) ({[course_url c]} ∪ seen)) as (kept & E & Hs).
      exists (c :: kept). rewrite E, <- app_assoc.
      split; [reflexivity | apply sublist_skip, Hs].
Qed.

Lemma remove_duplicates_sublist (courses : list Course) :
  sublist (remove_duplicates courses) courses.
Proof.
  unfold remove_duplicates.
  destruct (dedup_fold_sublist courses [] ∅) as (kept & E & Hs).
  rewrite E. exact Hs.
Qed.

Lemma dedup_fold_distinct (l acc : list Course) (seen : gset pystr) :
  NoDup (map course_url l) ->
  (forall c, c ∈ l -> course_url c ∉ seen) ->
  (fold_left dedup_step l (acc, seen)).1 = acc ++ l.
Proof.
  revert acc seen. induction l as [|c l IH]; intros acc seen Hnd Hfresh.
  - simpl. rewrite app_nil_r. reflexivity.
  - simpl. apply NoDup_cons in Hnd as [Hc Hnd].
    rewrite bool_decide_eq_false_2 by (apply Hfresh; left).
    rewrite IH; [rewrite <- app_assoc; reflexivity | exact Hnd |].
    intros c' Hin Hseen. apply elem_of_union in Hseen as [Hseen|Hseen].
    + apply elem_of_singleton in Hseen. apply Hc. rewrite <- Hseen.
      apply list_elem_of_fmap. exists c'. split; [reflexivity | exact Hin].
    + apply (Hfresh c'); [right; exact Hin | exact Hseen].
Qed.

(** X19: removing the duplicates keeps the courses in the order of their
    discovery (the result is a sublist of the input), and on a list
    without duplicates it changes nothing, so that removing them twice is
    removing them once. *)
Theorem remove_duplicates_keeps_order (courses : list Course) :
  sublist (remove_duplicates courses) courses
  /\ remove_duplicates (remove_duplicates courses) = remove_duplicates courses.
Proof.
  split; [apply remove_duplicates_sublist|].
  unfold remove_duplicates at 1.
  rewrite dedup_fold_distinct; [reflexivity | |].
  - unfold remove_duplicates.
    destruct (dedup_inv_fold courses [] ([], ∅) dedup_inv_init) as (Hnd & _).
    exact Hnd.
  - intros c _. apply not_elem_of_empty.
Qed.

Section Discovery.
Context `{PyLib} (env : Env) (cfg : Config).

Lemma collect_courses_total (pages : list pystr) (courses : list Course)
    (w : World) :
  exists found w',
    collect_courses env cfg pages courses w = (Ret found, w')
    /\ requests_of (trace w')
       = rev (map (page_request cfg) pages) ++ requests_of (trace w)
    /\ fs w' = fs w.
Proof.
  revert courses w. induction pages as [|page pages IH]; intros courses w.
  - exists courses, w. repeat split; reflexivity.
  - cbn [collect_courses].
    unfold bind at 1. rewrite log_eq.
    set (w0 := logged cfg (CheckingCourses (urljoin (base_url cfg) page)) w).
    assert (Hstep : exists cs w1,
      try_except
        (bind (request env (GET (urljoin (base_url cfg) page) true false))
           (fun response =>
              match _extract_courses_from_page cfg (resp_soup response) with
              | [] => ret courses
              | _ :: _ =>
                  bind (log cfg (FoundCourses
                          (length (_extract_courses_from_page cfg
                                     (resp_soup response))) page))
                    (fun _ => ret (courses ++ _extract_courses_from_page cfg
                                                (resp_soup response)))
              end))
        (fun _ => bind (log cfg (ErrorAccessing page)) (fun _ => ret courses))
        w0 = (Ret cs, w1)
      /\ requests_of (trace w1)
         = page_request cfg page :: requests_of (trace w)
      /\ fs w1 = fs w).
    { unfold try_except, bind at 1, request.
      destruct (transport env (clock w0) _) as [resp|].
      - destruct (_extract_courses_from_page cfg (resp_soup resp)) as [|c cs].
        + eexists _, _. split; [reflexivity|]. split; reflexivity.
        + unfold bind. rewrite log_eq.
          eexists _, _. split; [reflexivity|]. split; reflexivity.
      - unfold bind. rewrite log_eq.
        eexists _, _. split; [reflexivity|]. split; reflexivity. }
    destruct Hstep as (cs & w1 & E1 & Hr1 & Hf1).
    unfold bind at 1. rewrite E1.
    destruct (IH cs w1) as (found & w' & E & Hr & Hf).
    exists found, w'. split; [exact E|]. split.
    + rewrite Hr, Hr1. cbn [map rev]. rewrite <- app_assoc. reflexivity.
    + rewrite Hf. exact Hf1.
Qed.

(** X20: course discovery always returns a list: whatever the three
    requests answer, and also when some of them fail, it asks for the
    three course pages in their order, one request each, and leaves the
    files alone. *)
Theorem get_courses_tries_every_page (w : World) :
  exists courses w',
    get_courses env cfg w = (Ret courses, w')
    /\ requests_of (trace w')
       = [page_request cfg (lit "/course/index.php");
          page_request cfg (lit "/my/index.php");
          page_request cfg (lit "/my/courses.php")] ++ requests_of (trace w)
    /\ fs w' = fs w.
Proof.
  destruct (collect_courses_total course_pages [] w)
    as (found & w' & E & Hr & Hf).
  exists (remove_duplicates found), w'. split; [|split].
  - unfold get_courses, bind. rewrite E. reflexivity.
  - exact Hr.
  - exact Hf.
Qed.

Lemma or_unnamed_truthy (name : pystr) : truthy (or_unnamed name) = true.
Proof.
  unfold or_unnamed. destruct (truthy name) eqn:E; [exact E | reflexivity].
Qed.

Lemma extracted_courses_named (soup : Soup) :
  Forall named (_extract_courses_from_page cfg soup).
Proof.
  unfold _extract_courses_from_page.
  assert (Hcards : Forall named (courses_from_cards soup)).
  { unfold courses_from_cards. apply Forall_flat_map, Forall_forall.
    intros card _. destruct (el_links card) as [|link links]; [constructor|].
    destruct (is_course_link link); [|constructor].
    repeat constructor. apply or_unnamed_truthy. }
  assert (Hlinks : Forall named (courses_from_links soup)).
  { unfold courses_from_links. apply Forall_flat_map, Forall_forall.
    intros link _. destruct (is_course_link link); [|constructor].
    repeat constructor. apply or_unnamed_truthy. }
  assert (Habs : forall cs, Forall named cs ->
                            Forall named (map (make_absolute cfg) cs)).
  { intros cs Hcs. apply Forall_fmap. eapply Forall_impl; [exact Hcs|].
    intros c Hc. unfold make_absolute, named in *. simpl.
    destruct (is_http (course_url c)); exact Hc. }
  destruct (courses_from_cards soup) as [|c cs] eqn:E; apply Habs.
  - exact Hlinks.
  - exact Hcards.
Qed.

Lemma collect_courses_named (pages : list pystr) (courses : list Course)
    (w : World) :
  Forall named courses ->
  forall found w', collect_courses env cfg pages courses w = (Ret found, w') ->
                   Forall named found.
Proof.
  revert courses w. induction pages as [|page pages IH];
    intros courses w Hcs found w'.
  - intros [= <- _]. exact Hcs.
  - cbn [collect_courses]. unfold bind at 1. rewrite log_eq.
    unfold bind at 1, try_except, bind at 1, request.
    destruct (transport env _ _) as [resp|].
    + pose proof (extracted_courses_named (resp_soup resp)) as Hex.
      destruct (_extract_courses_from_page cfg (resp_soup resp)) as [|c cs].
      * apply IH, Hcs.
      * unfold bind at 1. rewrite log_eq. apply IH.
        apply Forall_app. split; [exact Hcs | exact Hex].
    + unfold bind at 1. rewrite log_eq. apply IH, Hcs.
Qed.

(** X21: every course that discovery returns has a name that is not
    empty: a link without text is listed as an unnamed course. *)
Theorem discovered_courses_are_named (w : World) courses w' :
  get_courses env cfg w = (Ret courses, w') ->
  Forall (fun c => truthy (course_name c) = true) courses.
Proof.
  unfold get_courses, bind.
  destruct (collect_courses env cfg course_pages [] w) as [[raw|e|n] w1] eqn:E;
    try discriminate.
  intros [= <- _].
  apply (collect_courses_named _ _ _ (Forall_nil_2 _)) in E.
  apply Forall_forall. intros c Hc.
  rewrite Forall_forall in E. apply E.
  exact (sublist_subseteq _ _ (remove_duplicates_sublist raw) c Hc).
Qed.

Lemma collect_courses_result (pages : list pystr) (courses : list Course)
    (w : World) :
  exists w',
    collect_courses env cfg pages courses w
    = (Ret (courses ++ pages_courses env cfg (clock w) pages), w').
Proof.
  revert courses w. induction pages as [|page pages IH]; intros courses w.
  - exists w. cbn. rewrite app_nil_r. reflexivity.
  - cbn [collect_courses pages_courses].
    unfold bind at 1. rewrite log_eq.
    set (w0 := logged cfg (CheckingCourses (urljoin (base_url cfg) page)) w).
    assert (Hstep : exists w1,
      try_except
        (bind (request env (GET (urljoin (base_url cfg) page) true false))
           (fun response =>
              match _extract_courses_from_page cfg (resp_soup response) with
              | [] => ret courses
              | _ :: _ =>
                  bind (log cfg (FoundCourses
                          (length (_extract_courses_from_page cfg
                                     (resp_soup response))) page))
                    (fun _ => ret (courses ++ _extract_courses_from_page cfg
                                                (resp_soup response)))
              end))
        (fun _ => bind (log cfg (ErrorAccessing page)) (fun _ => ret courses))
        w0 = (Ret (courses ++ page_courses env cfg (clock w) page), w1)
      /\ clock w1 = S (clock w)).
    { unfold try_except, bind at 1, request, page_courses, page_request.
      change (clock w0) with (clock w).
      destruct (transport env (clock w) _) as [resp|].
      - destruct (_extract_courses_from_page cfg (resp_soup resp)) as [|c cs].
        + eexists. rewrite app_nil_r. split; reflexivity.
        + unfold bind. rewrite log_eq. eexists. split; reflexivity.
      - unfold bind. rewrite log_eq. eexists. rewrite app_nil_r.
        split; reflexivity. }
    destruct Hstep as (w1 & E1 & Hc).
    unfold bind at 1. rewrite E1.
    destruct (IH (courses ++ page_courses env cfg (clock w) page) w1)
      as [w' E].
    exists w'. rewrite E, Hc, <- app_assoc. reflexivity.
Qed.

(** Each course of a page comes from a course link, with the [href] of
    the link made absolute as its URL. *)
Lemma extracted_courses_absolute (soup : Soup) (c : Course) :
  c ∈ _extract_courses_from_page cfg soup ->
  exists link,
    is_course_link link = true
    /\ course_url c = absolute cfg (tag_get_str link (lit "href")).
Proof.
  unfold _extract_courses_from_page.
  assert (Hcards : forall c0, c0 ∈ courses_from_cards soup ->
            exists link, is_course_link link = true
                         /\ course_url c0 = tag_get_str link (lit "href")).
  { intros c0 Hin. unfold courses_from_cards in Hin.
    apply list_elem_of_In, in_flat_map in Hin as (card & _ & Hc).
    destruct (el_links card) as [|link links]; [destruct Hc|].
    destruct (is_course_link link) eqn:El; [|destruct Hc].
    destruct Hc as [<-|[]]. exists link. auto. }
  assert (Hlinks : forall c0, c0 ∈ courses_from_links soup ->
            exists link, is_course_link link = true
                         /\ course_url c0 = tag_get_str link (lit "href")).
  { intros c0 Hin. unfold courses_from_links in Hin.
    apply list_elem_of_In, in_flat_map in Hin as (link & _ & Hc).
    destruct (is_course_link link) eqn:El; [|destruct Hc].
    destruct Hc as [<-|[]]. exists link. auto. }
  intros Hin. apply list_elem_of_fmap in Hin as (c0 & -> & Hin0).
  assert (Hsrc : exists link, is_course_link link = true
                   /\ course_url c0 = tag_get_str link (lit "href")).
  { destruct (courses_from_cards soup) as [|c1 cs] eqn:E; auto. }
  destruct Hsrc as (link & Hl & Hu). exists link. split; [exact Hl|].
  unfold make_absolute, absolute. rewrite <- Hu.
  destruct (is_http (course_url c0)); reflexivity.
Qed.

Lemma pages_courses_absolute (t : nat) (pages : list pystr) (c : Course) :
  c ∈ pages_courses env cfg t pages ->
  exists link,
    is_course_link link = true
    /\ course_url c = absolute cfg (tag_get_str link (lit "href")).
Proof.
  revert t. induction pages as [|page pages IH]; intros t Hin.
  - apply elem_of_nil in Hin. destruct Hin.
  - cbn [pages_courses] in Hin. apply elem_of_app in Hin as [Hin|Hin].
    + unfold page_courses in Hin.
      destruct (transport env t _) as [r|];
        [eapply extracted_courses_absolute, Hin|].
      apply elem_of_nil in Hin. destruct Hin.
    + eapply IH, Hin.
Qed.

(** C7: course discovery returns one course per absolute URL.  The
    courses are collected from the three discovery pages, each with the
    [href] of its link made absolute against the base URL; of the courses
    collected, the list returned holds exactly one for each URL, the
    first one collected with that URL (so with its name): when two pages
    list the same course, under whatever link texts, one entry is
    returned. *)
Theorem get_courses_one_per_url (w : World) :
  let raw := collected env cfg w in
  exists courses,
    (get_courses env cfg w).1 = Ret courses
    /\ NoDup (map course_url courses)
    /\ (forall u, u ∈ map course_url courses <-> u ∈ map course_url raw)
    /\ (forall c, c ∈ courses ->
                  first_with_url (course_url c) raw = Some c)
    /\ (forall c, c ∈ raw ->
          exists link,
            is_course_link link = true
            /\ course_url c = absolute cfg (tag_get_str link (lit "href"))).
Proof.
  intros raw.
  destruct (collect_courses_result course_pages [] w) as [w' E].
  exists (remove_duplicates raw). split.
  - unfold get_courses, bind. rewrite E. reflexivity.
  - destruct (remove_duplicates_first raw) as (Hnd & Hurls & Hfirst).
    repeat (split; [assumption|]).
    intros c Hc. eapply pages_courses_absolute, Hc.
Qed.

End Discovery.

Lemma sections_fold (l : list Element) (acc : list Section_) :
  fold_left
    (fun sections section =>
       let name := match el_sectionname section with
                   | Some t => t
                   | None => lit "Section "
                               ++ str_of_nat (length sections + 1)
                   end in
       sections ++ [{| section_name := name; section_content := section |}])
    l acc
  = acc ++ imap (fun i el => {| section_name :=
                                  section_name_at (length acc + i) el;
                                section_content := el |}) l.
Proof.
  revert acc. induction l as [|el l IH]; intros acc.
  - simpl. rewrite app_nil_r. reflexivity.
  - cbn [fold_left]. rewrite IH. rewrite <- app_assoc. f_equal.
    cbn [imap app]. f_equal.
    + unfold section_name_at. rewrite Nat.add_0_r. reflexivity.
    + apply imap_ext. intros i x _. simpl. rewrite length_app. simpl.
      replace (length acc + 1 + i) with (length acc + S i) by lia.
      reflexivity.
Qed.

(** X22: the sections of a course page are its section elements, in the
    order of the page; a section without a heading is named after its
    position among all of them, counted from 1, the sections that have a
    heading included. *)
Theorem sections_follow_the_page (soup : Soup) :
  _get_course_sections soup
  = imap (fun i el => {| section_name := section_name_at i el;
                         section_content := el |}) (soup_sections soup).
Proof.
  unfold _get_course_sections. rewrite sections_fold. reflexivity.
Qed.

Section Selection.
Context `{PyLib} (cfg : Config).

Lemma pick_courses_listed (courses : list Course) (indices : list Z) :
  pick_courses courses indices ⊆ courses.
Proof.
  intros c Hin. unfold pick_courses in Hin.
  apply list_elem_of_In, in_flat_map in Hin as (idx & _ & Hc).
  destruct (_ && _); [|destruct Hc].
  destruct (courses !! Z.to_nat idx) as [c'|] eqn:E; [|destruct Hc].
  destruct Hc as [<-|[]]. eapply list_elem_of_lookup_2, E.
Qed.

Lemma parse_indices_numbers (parts : list pystr) (ns : list Z) :
  map (fun idx => py_int (str_strip_ws idx)) parts = map Some ns ->
  parse_indices parts = Some (map (fun n => (n - 1)%Z) ns).
Proof.
  revert ns. induction parts as [|idx parts IH]; intros [|n ns] E;
    try discriminate; [reflexivity|].
  cbn [map] in E. injection E as E1 E2.
  cbn [parse_indices]. rewrite E1, (IH ns E2). reflexivity.
Qed.

Lemma parse_indices_no_number (parts : list pystr) :
  None ∈ map (fun idx => py_int (str_strip_ws idx)) parts ->
  parse_indices parts = None.
Proof.
  induction parts as [|idx parts IH]; intros Hin.
  - apply elem_of_nil in Hin. destruct Hin.
  - cbn [map] in Hin. cbn [parse_indices].
    destruct (py_int (str_strip_ws idx)) as [n|] eqn:E; [|reflexivity].
    apply elem_of_cons in Hin as [Hin|Hin]; [discriminate|].
    rewrite (IH Hin). reflexivity.
Qed.

Lemma pick_courses_numbers (courses : list Course) (ns : list Z) :
  pick_courses courses (map (fun n => (n - 1)%Z) ns)
  = omap (course_number courses) ns.
Proof.
  unfold pick_courses.
  induction ns as [|n ns IH]; [reflexivity|].
  cbn [map flat_map]. rewrite IH.
  change (omap (course_number courses) (n :: ns))
    with (match course_number courses n with
          | Some c => c :: omap (course_number courses) ns
          | None => omap (course_number courses) ns
          end).
  unfold course_number.
  destruct (Z.leb_spec 1 n) as [Hn|Hn].
  - replace (0 <=? n - 1)%Z with true by (symmetry; apply Z.leb_le; lia).
    destruct (Z.ltb_spec (n - 1) (Z.of_nat (length courses))) as [Hl|Hl].
    + cbn [andb]. destruct (courses !! Z.to_nat (n - 1)); reflexivity.
    + cbn [andb]. rewrite lookup_ge_None_2 by lia. reflexivity.
  - replace (0 <=? n - 1)%Z with false by (symmetry; apply Z.leb_gt; lia).
    reflexivity.
Qed.

(** X23: whatever is typed at the prompt, the selection returns a list of
    courses of the list shown and touches no file.  [all], in any case
    of letters, selects every course.  Otherwise, when every entry between
    the commas is a number, the courses at those 1-based positions are
    selected, in the order typed, and a number below 1 or past the end is
    left out without an error; when some entry is no number, the invalid
    selection is logged and every course is selected. *)
Theorem select_courses_picks_listed (courses : list Course)
    (selection : pystr) (w : World) :
  exists selected w',
    select_courses cfg courses selection w = (Ret selected, w')
    /\ selected ⊆ courses
    /\ fs w' = fs w
    /\ (str_lower selection = lit "all" -> selected = courses /\ w' = w)
    /\ (str_lower selection <> lit "all" ->
        forall ns, typed_numbers selection = map Some ns ->
                   selected = omap (course_number courses) ns /\ w' = w)
    /\ (str_lower selection <> lit "all" ->
        None ∈ typed_numbers selection ->
        selected = courses /\ w' = logged cfg InvalidSelection w).
Proof.
  unfold select_courses, typed_numbers, Str.eqb.
  destruct (bool_decide_reflect (str_lower selection = lit "all"))
    as [Hall|Hall].
  - exists courses, w. split; [reflexivity|].
    split; [intros c Hc; exact Hc|]. split; [reflexivity|].
    split; [intros _; split; reflexivity|].
    split; intros Hno; destruct (Hno Hall).
  - destruct (parse_indices _) as [indices|] eqn:E.
    + exists (pick_courses courses indices), w.
      split; [reflexivity|]. split; [apply pick_courses_listed|].
      split; [reflexivity|].
      split; [intros Hyes; destruct (Hall Hyes)|].
      split.
      * intros _ ns Hns. apply parse_indices_numbers in Hns.
        rewrite E in Hns. injection Hns as ->.
        split; [apply pick_courses_numbers | reflexivity].
      * intros _ Hbad. apply parse_indices_no_number in Hbad.
        rewrite E in Hbad. discriminate.
    + unfold bind. rewrite log_eq. eexists _, _.
      split; [reflexivity|]. split; [intros c Hc; exact Hc|].
      split; [reflexivity|].
      split; [intros Hyes; destruct (Hall Hyes)|].
      split.
      * intros _ ns Hns. apply parse_indices_numbers in Hns.
        rewrite E in Hns. discriminate.
      * intros _ _. split; reflexivity.
Qed.

End Selection.

(** ** The statements on the scenarios *)

Section OnCases.
Import Scenario Cases.

Lemma download_stores_body_witness :
  let env := serving (length_header "5") five in
  let w := start [(lit "/dl", Dir)] in
  let out := download_file env cfg file_url (lit "/dl") notes w in
  out.1 = Ret (Some target)
  /\ fs out.2 = <[target := File [1; 2; 3; 4; 5]%N]> (fs w).
Proof.
  intros env w.
  apply (download_stores_body env cfg file_url (lit "/dl") notes w
           (plain file_url)
           (answer file_url (length_header "5") [] empty_soup five) 5%Z);
    try reflexivity; try discriminate.
  left. reflexivity.
Defined.

Lemma broken_transfer_leaves_partial_file_witness :
  let w := start [(lit "/dl", Dir)] in
  let out := download_file breaking cfg file_url (lit "/dl") notes w in
  out.1 = Ret None
  /\ fs out.2 = <[target := File [1; 2; 3]%N]> (fs w).
Proof.
  intros w.
  apply (broken_transfer_leaves_partial_file breaking cfg file_url (lit "/dl")
           notes w (plain file_url) (broken file_url) 5%Z);
    try reflexivity; try discriminate.
  left. reflexivity.
Defined.

Lemma failed_probe_gives_none_witness :
  let w := start [(lit "/dl", Dir)] in
  let out := download_file unreachable cfg file_url (lit "/dl") notes w in
  out.1 = Ret None
  /\ fs out.2 = fs w
  /\ requests_of (trace out.2) = HEAD file_url :: requests_of (trace w).
Proof.
  intros w.
  apply (failed_probe_gives_none unreachable cfg file_url (lit "/dl") notes w);
    [discriminate | reflexivity].
Defined.

Lemma unparsable_length_gives_none_witness :
  let env := serving (length_header "five") five in
  let w := start [(lit "/dl", Dir)] in
  let out := download_file env cfg file_url (lit "/dl") notes w in
  out.1 = Ret None /\ same_files (fs w) (fs out.2).
Proof.
  intros env w.
  apply (unparsable_length_gives_none env cfg file_url (lit "/dl") notes w
           (plain file_url)
           (answer file_url (length_header "five") [] empty_soup five)
           (lit "five"));
    try reflexivity; discriminate.
Defined.

Lemma rejected_login_exits_witness :
  (login rejecting cfg (start [])).1 = Exit 1%Z
  /\ head (trace (login rejecting cfg (start [])).2) = Some (EvExit 1%Z).
Proof.
  apply (rejected_login_exits rejecting cfg (start [])).
  - intros t. eexists. reflexivity.
  - intros t data. eexists. split; reflexivity.
Defined.

Lemma expired_and_rejected_exits_witness :
  let w := start [(lit "/dl", Dir)] in
  let out := download_file rejecting cfg file_url (lit "/dl") notes w in
  out.1 = Exit 1%Z /\ fs out.2 = fs w.
Proof.
  intros w.
  apply (expired_and_rejected_exits rejecting cfg file_url (lit "/dl") notes w
           (plain login_url)).
  - discriminate.
  - reflexivity.
  - reflexivity.
  - intros t. eexists. reflexivity.
  - intros t data. eexists. split; reflexivity.
Defined.

Lemma download_twice_is_idempotent_witness :
  let env := serving (length_header "5") five in
  let w := start [(lit "/dl", Dir)] in
  let first := download_file env cfg file_url (lit "/dl") notes w in
  let second := download_file env cfg file_url (lit "/dl") notes first.2 in
  first.1 = Ret (Some target)
  /\ fs first.2 = <[target := File [1; 2; 3; 4; 5]%N]> (fs w)
  /\ second.1 = Ret (Some target)
  /\ fs second.2 = fs first.2.
Proof.
  intros env w.
  apply (download_twice_is_idempotent env cfg file_url (lit "/dl") notes w
           (plain file_url)
           (answer file_url (length_header "5") [] empty_soup five) 5%Z);
    try reflexivity; try discriminate.
Defined.

Lemma redirect_is_followed_witness :
  _process_resource_page redirecting cfg page_url (lit "/dl") slides (start [])
  = download_file redirecting cfg slides_url (lit "/dl") slides
      (logged cfg (RedirectedTo slides_url)
         (interact (EvRequest (GET direct_url false false))
            (logged cfg (TryingDirect direct_url)
               (logged cfg (FetchingResourcePage page_url) (start []))))).
Proof.
  apply (redirect_is_followed redirecting cfg page_url (lit "/dl") slides
           (start []) (Some (lit "42")) moved slides_url);
    reflexivity.
Defined.

Lemma unresolved_page_is_dumped_witness :
  let out := _process_resource_page empty_pages cfg bare_url (lit "/dl")
               slides (start [(lit "/dl", Dir)]) in
  out.1 = Ret None
  /\ fs out.2 = <[lit "/dl/Slides_debug.html" := File []]>
                  (fs (start [(lit "/dl", Dir)])).
Proof.
  change (lit "/dl/Slides_debug.html")
    with (OsPath.join (lit "/dl")
            (sanitize_filename (name_or_resource slides)
             ++ lit "_debug.html")).
  change (File []) with (File (encode_utf8 (resp_text (plain bare_url)))).
  apply (unresolved_page_is_dumped empty_pages cfg bare_url (lit "/dl") slides
           (start [(lit "/dl", Dir)]) (plain bare_url));
    reflexivity.
Defined.

Lemma select_courses_picks_listed_witness :
  select_courses cfg [algebra; biology] (lit "2, 7,0 ,1") (start [])
  = (Ret [biology; algebra], start []).
Proof.
  destruct (select_courses_picks_listed cfg [algebra; biology]
              (lit "2, 7,0 ,1") (start []))
    as (selected & w' & E & _ & _ & _ & Hnumbers & _).
  destruct (Hnumbers ltac:(vm_compute; discriminate) [2; 7; 0; 1]%Z
              ltac:(vm_compute; reflexivity)) as [-> ->].
  exact E.
Defined.

Lemma discovered_courses_are_named_witness :
  exists courses,
    (get_courses listed_twice cfg (start [])).1 = Ret courses
    /\ Forall (fun c => truthy (course_name c) = true) courses.
Proof.
  eexists. split; [vm_compute; reflexivity|].
  eapply (discovered_courses_are_named listed_twice cfg (start [])).
  vm_compute. reflexivity.
Defined.

End OnCases.

Section OnCases2.
Import Scenario Cases2.

(** C9 fails as stated, in two ways.  With the download directory
    missing, the download returns [None] but has made that directory: the
    disk is written.  With a file name that sanitizes to the empty string
    the target path is the download directory itself, spelled with a
    trailing slash: no file is there, and the function returns that path
    instead of [None]. *)
Lemma download_without_length_touches_disk :
  (let env := serving no_headers [[1; 2; 3]%N] in
   let w := start [] in
   let out := download_file env cfg file_url (lit "/dl") notes w in
   entry (fs w) target = None
   /\ out.1 = Ret None
   /\ fs w !! lit "/dl" = None
   /\ fs out.2 !! lit "/dl" = Some Dir)
  /\ (let env := serving blank_name [[1; 2; 3]%N] in
      let w := start [(lit "/dl", Dir)] in
      let out := download_file env cfg file_url (lit "/dl") None w in
      full_path_of file_url (lit "/dl") None blank_name = lit "/dl/"
      /\ fs w !! lit "/dl/" = None
      /\ out.1 = Ret (Some (lit "/dl/"))
      /\ fs out.2 = fs w).
Proof. vm_compute. repeat split; reflexivity. Qed.

End OnCases2.

(** ** The resolution is its decision list *)

Section ChainProof.
Context `{PyLib} (env : Env) (cfg : Config).

Lemma bind_ext {A B} (c : M A) (k k' : A -> M B) w :
  (forall a w', k a w' = k' a w') -> bind c k w = bind c k' w.
Proof.
  intros Hk. unfold bind. destruct (c w) as [[a|e|n] w']; auto.
Qed.

(** A step that returns what its candidate gives, followed by the rest
    of the function. *)
Lemma or_else_settled {R} (c : M (option R)) (k : M R) (cand : option (M R))
    w :
  c w = match cand with
        | Some act => bind act (fun r => ret (Some r)) w
        | None => (Ret None, w)
        end ->
  or_else c k w = match cand with
                  | Some act => act w
                  | None => k w
                  end.
Proof.
  intros Hc. unfold or_else, bind at 1. rewrite Hc.
  destruct cand as [act|]; [|reflexivity].
  unfold bind. destruct (act w) as [[r|e|n] w']; reflexivity.
Qed.

(** A loop that returns the download of the first item that passes. *)
Lemma settle_loop {X} (xs : list X) (f : X -> pystr) (p : pystr -> bool)
    announce directory name w :
  for_return xs
    (fun x =>
       if p (f x) then
         bind (log cfg (announce (absolute cfg (f x)))) (fun _ =>
         bind (download_file env cfg (absolute cfg (f x)) directory name)
           (fun r => ret (Some r)))
       else ret None) w
  = match option_map
            (fun h => settle env cfg announce (absolute cfg h) directory name)
            (head (List.filter p (map f xs))) with
    | Some act => bind act (fun r => ret (Some r)) w
    | None => (Ret None, w)
    end.
Proof.
  induction xs as [|x xs IH]; [reflexivity|].
  cbn [for_return map List.filter]. destruct (p (f x)) eqn:Ep.
  - cbn [head option_map]. unfold settle, bind. rewrite log_eq.
    destruct (download_file _ _ _ _ _ _) as [[r|e|n] w']; reflexivity.
  - unfold bind at 1. cbn [ret]. exact IH.
Qed.

Lemma method1_eq soup directory name w :
  method1 env cfg soup directory name w
  = match option_map
            (fun h => settle env cfg FoundDownloadLink (absolute cfg h)
                        directory name)
            (anchor_candidate soup) with
    | Some act => bind act (fun r => ret (Some r)) w
    | None => (Ret None, w)
    end.
Proof.
  apply (settle_loop (download_links soup)
           (fun a => tag_get_str a (lit "href")) truthy FoundDownloadLink).
Qed.

Lemma method5_eq soup directory name w :
  method5 env cfg soup directory name w
  = match option_map
            (fun h => settle env cfg FoundByExtension (absolute cfg h)
                        directory name)
            (extension_candidate soup) with
    | Some act => bind act (fun r => ret (Some r)) w
    | None => (Ret None, w)
    end.
Proof.
  apply (settle_loop (soup_links soup)
           (fun a => tag_get_str a (lit "href")) has_file_extension
           FoundByExtension).
Qed.

Lemma method6_eq soup directory name w :
  method6 env cfg soup directory name w
  = match option_map
            (fun h => settle env cfg FoundAlternative (absolute cfg h)
                        directory name)
            (alternative_candidate soup) with
    | Some act => bind act (fun r => ret (Some r)) w
    | None => (Ret None, w)
    end.
Proof.
  apply (settle_loop (soup_alt soup)
           (fun a => tag_get_str a (lit "href")) truthy FoundAlternative).
Qed.

Lemma method2_eq soup directory name w :
  method2 env cfg soup directory name w
  = match option_map
            (fun s => settle env cfg FoundEmbedded (absolute cfg s)
                        directory name)
            (embedded_candidate soup) with
    | Some act => bind act (fun r => ret (Some r)) w
    | None => (Ret None, w)
    end.
Proof.
  unfold method2, embedded_candidate.
  induction (embedded_sources soup) as [|src srcs IH]; [reflexivity|].
  cbn [for_return flat_map]. destruct src as [s|].
  - cbn [app List.filter]. fold (is_file_source s).
    destruct (is_file_source s) eqn:Es.
    + cbn [head option_map]. unfold settle, bind. rewrite log_eq.
      destruct (download_file _ _ _ _ _ _) as [[r|e|n] w']; reflexivity.
    + unfold bind at 1. cbn [ret]. exact IH.
  - unfold bind at 1. cbn [ret app]. exact IH.
Qed.

Lemma for_return_app {X R} (a b : list X) (body : X -> M (option R)) w :
  for_return (a ++ b) body w
  = bind (for_return a body)
      (fun r => match r with
                | Some v => ret (Some v)
                | None => for_return b body
                end) w.
Proof.
  revert w. induction a as [|x a IH]; intros w.
  - unfold bind. reflexivity.
  - cbn [app for_return]. unfold bind.
    destruct (body x w) as [[[v|]|e|n] w']; try reflexivity.
    rewrite IH. reflexivity.
Qed.

(** The two nested loops of the script scan are one loop over all the
    URLs found. *)
Lemma script_loops (scripts : list Tag)
    (inner : pystr -> M (option (option pystr))) w :
  for_return scripts
    (fun script =>
       match tag_string script with
       | Some body =>
           if truthy body then
             for_return
               (findall_abs_file_url body ++ findall_rel_file_url body) inner
           else ret None
       | None => ret None
       end) w
  = for_return
      (flat_map
         (fun script =>
            match tag_string script with
            | Some body =>
                if truthy body
                then findall_abs_file_url body ++ findall_rel_file_url body
                else []
            | None => []
            end) scripts) inner w.
Proof.
  revert w. induction scripts as [|script scripts IH]; intros w;
    [reflexivity|].
  cbn [for_return flat_map]. rewrite for_return_app.
  assert (E : (match tag_string script with
               | Some body =>
                   if truthy body then
                     for_return
                       (findall_abs_file_url body ++ findall_rel_file_url body)
                       inner
                   else ret None
               | None => ret None
               end)
              = for_return
                  (match tag_string script with
                   | Some body =>
                       if truthy body
                       then findall_abs_file_url body
                            ++ findall_rel_file_url body
                       else []
                   | None => []
                   end) inner).
  { destruct (tag_string script) as [body|]; [|reflexivity].
    destruct (truthy body); reflexivity. }
  rewrite E. apply bind_ext. intros [v|] w'; [reflexivity | apply IH].
Qed.

Lemma first_success_loop urls directory name w :
  for_return urls
    (fun m =>
       bind (log cfg (FoundInScript (absolute cfg m))) (fun _ =>
       bind (download_file env cfg (absolute cfg m) directory name)
         (fun result =>
            if truthy_opt result then ret (Some result) else ret None))) w
  = bind (first_success env cfg FoundInScript urls directory name)
      (fun found => if truthy_opt found then ret (Some found) else ret None)
      w.
Proof.
  revert w. induction urls as [|u urls IH]; intros w; [reflexivity|].
  cbn [for_return first_success]. unfold bind. rewrite log_eq.
  destruct (download_file _ _ _ _ _ _) as [[r|e|n] w'] eqn:Ed;
    try reflexivity.
  destruct (truthy_opt r) eqn:Et.
  - cbn [ret]. rewrite Et. reflexivity.
  - cbn [ret]. exact (IH w').
Qed.

Lemma method3_eq soup directory name w :
  method3 env cfg soup directory name w
  = bind (first_success env cfg FoundInScript (script_candidates soup)
            directory name)
      (fun found => if truthy_opt found then ret (Some found) else ret None)
      w.
Proof.
  unfold method3, script_candidates.
  rewrite (script_loops (soup_scripts soup)
             (fun m =>
                bind (log cfg (FoundInScript (absolute cfg m))) (fun _ =>
                bind (download_file env cfg (absolute cfg m) directory name)
                  (fun result =>
                     if truthy_opt result then ret (Some result)
                     else ret None)))).
  apply first_success_loop.
Qed.

Lemma or_else_method3 soup directory name (k : M (option pystr)) w :
  or_else (method3 env cfg soup directory name) k w
  = bind (first_success env cfg FoundInScript (script_candidates soup)
            directory name)
      (fun found => if truthy_opt found then ret found else k) w.
Proof.
  unfold or_else, bind at 1. rewrite method3_eq. unfold bind.
  destruct (first_success _ _ _ _ _ _ w) as [[found|e|n] w'];
    try reflexivity.
  destruct (truthy_opt found); reflexivity.
Qed.

Lemma or_else_method4 directory name resource_id (k : M (option pystr)) w :
  or_else (method4 env cfg directory name resource_id) k w
  = if truthy_opt resource_id then
      settle env cfg TryingContentEndpoint
        (base_url cfg ++ lit "/mod/resource/content.php?id="
           ++ default [] resource_id) directory name w
    else k w.
Proof.
  unfold or_else, method4. destruct (truthy_opt resource_id); [|reflexivity].
  unfold settle, bind. rewrite log_eq.
  destruct (download_file _ _ _ _ _ _) as [[r|e|n] w']; reflexivity.
Qed.

Lemma page_chain_eq url directory name resource_id w :
  analyse_page env cfg url directory name resource_id w
  = page_chain env cfg url directory name resource_id w.
Proof.
  unfold analyse_page, page_chain.
  apply bind_ext. intros response w1. apply bind_ext. intros _ w2.
  cbv zeta.
  rewrite (or_else_settled _ _ _ _ (method1_eq _ _ _ _)).
  destruct (anchor_candidate (resp_soup response)) as [href|];
    [reflexivity|]. cbn [option_map].
  rewrite (or_else_settled _ _ _ _ (method2_eq _ _ _ _)).
  destruct (embedded_candidate (resp_soup response)) as [src|];
    [reflexivity|]. cbn [option_map].
  rewrite or_else_method3. apply bind_ext. intros found w3.
  destruct (truthy_opt found); [reflexivity|].
  rewrite or_else_method4.
  destruct (truthy_opt resource_id) eqn:Eid; [reflexivity|].
  rewrite (or_else_settled _ _ _ _ (method5_eq _ _ _ _)).
  destruct (extension_candidate (resp_soup response)) as [href|];
    [reflexivity|]. cbn [option_map].
  rewrite (or_else_settled _ _ _ _ (method6_eq _ _ _ _)).
  destruct (alternative_candidate (resp_soup response)) as [href|];
    [reflexivity|]. cbn [option_map].
  rewrite (method7_without_id env cfg _ _ _ _ _ Eid). reflexivity.
Qed.

Lemma try_direct_eq url directory name resource_id (k : M (option pystr)) w :
  or_else (try_direct env cfg url directory name resource_id) k w
  = bind (redirect_probe env cfg url resource_id)
      (fun redirect =>
         match redirect with
         | Some loc =>
             settle env cfg RedirectedTo (absolute cfg loc) directory name
         | None => k
         end) w.
Proof.
  unfold or_else, try_direct, redirect_probe.
  destruct (truthy_opt resource_id
            && Str.contains (lit "resource/view.php") url); [|reflexivity].
  cbv zeta. unfold settle, bind. rewrite !log_eq.
  destruct (request env _ _) as [[response|e|n] w1]; try reflexivity.
  cbn [ret].
  destruct (location (resp_headers response)) as [loc|]; [|reflexivity].
  destruct (existsb _ redirect_codes); [|reflexivity].
  rewrite log_eq.
  destruct (download_file _ _ _ _ _ _) as [[r|e|n] w']; reflexivity.
Qed.

(** C2, as amended: resolving a resource page is going through the
    decision list [resolution_chain].  The strategies are tried in the
    order redirect probe, download anchors, embedded media, script URLs,
    content endpoint, extension match, alternative links.  The redirect
    probe, the download anchors, the embedded media, the content endpoint,
    the extension match and the alternative links settle the resolution as
    soon as one of them has a candidate: the candidate is downloaded and
    the result of that download, a path or [None], is the result of the
    resolution, so that no later strategy runs even when the download
    fails.  The script scan downloads its candidates in turn and settles
    the resolution only when a download gives a file; after its last
    failure the chain goes on with the content endpoint.  With a resource
    id the chain ends at the content endpoint at the latest; without one
    the pattern guesses do not run, and the page is saved for inspection
    when no strategy has a candidate. *)
Theorem resolution_short_circuits url directory name w :
  _process_resource_page env cfg url directory name w
  = resolution_chain env cfg url directory name w.
Proof.
  unfold _process_resource_page, resolution_chain. cbv zeta.
  unfold try_except.
  match goal with
  | |- match ?c1 w with _ => _ end = match ?c2 w with _ => _ end =>
      assert (E : c1 w = c2 w); [|rewrite E; reflexivity]
  end.
  apply bind_ext. intros _ w1. apply bind_ext. intros resource_id w2.
  rewrite try_direct_eq. apply bind_ext. intros [loc|] w3; [reflexivity|].
  apply page_chain_eq.
Qed.

End ChainProof.

Section OnChain.
Import Scenario.

(** The amended statement on a page with a download anchor and a script
    URL: the anchor is downloaded, the download fails, and nothing else is
    tried. *)
Lemma download_link_short_circuits_witness :
  let w := start [(lit "/dl", Dir)] in
  let out := _process_resource_page (resource_portal button_page) cfg
               page_url (lit "/dl") slides w in
  out.1 = Ret None
  /\ rev (strategy_logs (trace out.2)) = [FoundDownloadLink slides_url].
Proof.
  intros w out. subst out. rewrite resolution_short_circuits.
  vm_compute. split; reflexivity.
Defined.

End OnChain.
